(** * Whisperer: a shallow embedding of [whisperer.py]

    The script downloads numbered DigitalWhisper issues.  This development
    embeds its functions over an explicit model of the things the script
    touches (standard streams, the file system, the network) and proves the
    properties its specification states about them.

    Layout:
    - [PyStr], [PyBytes], [Regex]: the Python string, integer, bytes and
      pattern primitives the script calls;
    - [Py]: exceptions, the world and the state-and-exception monad of a
      run;
    - section [Program]: the methods of class [Whisperer], [main] and the
      script as the interpreter runs it, over an arbitrary platform (path
      functions, [urlopen], float formatting);
    - [Demo]: a concrete platform for closed runs;
    - the vocabulary of the statements, then the lemmas and the theorems:
      one per claim of the specification (C1 to C10), followed by further
      properties of the script (X1 to X21). *)

From Stdlib Require Import ZArith Ascii String List Lia.
From stdpp Require Import gmap strings list sorting.

Open Scope Z_scope.

(* ================================================================== *)
(** ** Python strings and integers *)
(* ================================================================== *)

(** A Python [str] is modelled as the [string] of its code points, each
    below 256 (the Latin-1 range).  This is every value of a header, which
    [http.client] decodes as Latin-1, and every token or answer written in
    ASCII or Latin-1 text; a [str] with a code point above 255 is outside
    the model.  Over this range the functions below agree with Python's:
    the decimal digits are [0]..[9] alone, [int()] drops the white space
    9..13, 32, U+0085 and U+00A0 (but not 28..31, which only [str.strip]
    drops), and [lower()] changes [A]..[Z] and the Latin-1 capitals. *)

Module PyStr.

(** [ord(c)]. *)
Definition ord (c : ascii) : Z := Z.of_N (N_of_ascii c).

(** [chr(k)] for [0 <= k < 256]. *)
Definition chr (k : Z) : ascii := ascii_of_N (Z.to_N k).

Definition is_digit (c : ascii) : bool := (48 <=? ord c) && (ord c <=? 57).

Definition is_upper_hexdigit (c : ascii) : bool :=
  is_digit c || ((65 <=? ord c) && (ord c <=? 70)).

(** The character of a digit [0 <= d < 16], upper case as [%X] prints it. *)
Definition upper_digit (d : Z) : ascii :=
  if d <? 10 then chr (48 + d) else chr (55 + d).

(** The character of a digit [0 <= d < 16], lower case as [\x..] escapes
    print it. *)
Definition lower_digit (d : Z) : ascii :=
  if d <? 10 then chr (48 + d) else chr (87 + d).

(** The value of a digit character (upper-case hexadecimal included). *)
Definition digit_value (c : ascii) : Z :=
  if is_digit c then ord c - 48 else ord c - 55.

(** Positional rendering of a non-negative integer, most significant
    digit first; [fuel] bounds the number of digits. *)
Fixpoint render_fuel (base : Z) (fuel : nat) (n : Z) (acc : string) : string :=
  match fuel with
  | O => acc
  | S f =>
      let acc' := String (upper_digit (n mod base)) acc in
      if n / base =? 0 then acc' else render_fuel base f (n / base) acc'
  end.

Definition render (base n : Z) : string :=
  render_fuel base (S (Z.to_nat (Z.log2 n))) n "".

(** The integer a digit string denotes in [base], folding from [acc]. *)
Fixpoint digits_value (base acc : Z) (s : string) : Z :=
  match s with
  | EmptyString => acc
  | String c s' => digits_value base (base * acc + digit_value c) s'
  end.

Fixpoint all_chars (p : ascii -> bool) (s : string) : bool :=
  match s with
  | EmptyString => true
  | String c s' => p c && all_chars p s'
  end.

Fixpoint repeat_char (c : ascii) (n : nat) : string :=
  match n with
  | O => ""
  | S k => String c (repeat_char c k)
  end.

(** Left padding with zeros up to [width] characters; never truncates. *)
Definition zfill (width : nat) (s : string) : string :=
  repeat_char "0" (width - String.length s) +:+ s.

(** [str(n)] and [%d] for an [int]. *)
Definition str_int (n : Z) : string :=
  if n <? 0 then String "-" (render 10 (- n)) else render 10 n.

(** [%02X] for an [int]: upper-case hexadecimal, zero padded to a field
    of two characters, the sign counting as one of them. *)
Definition format_02X (n : Z) : string :=
  if n <? 0 then String "-" (zfill 1 (render 16 (- n)))
  else zfill 2 (render 16 n).

(** [str(x)] for a value that is an [int] or [None]. *)
Definition str_opt_int (x : option Z) : string :=
  match x with
  | Some n => str_int n
  | None => "None"
  end.

(** [sub in s] for strings. *)
Fixpoint contains (sub s : string) : bool :=
  String.prefix sub s ||
  match s with
  | EmptyString => false
  | String _ s' => contains sub s'
  end.

(** [s.split(sep)] for a one-character separator: always at least one
    piece, empty pieces kept. *)
Fixpoint split (sep : ascii) (s : string) : list string :=
  match s with
  | EmptyString => [""]
  | String c s' =>
      if Ascii.eqb c sep then "" :: split sep s'
      else match split sep s' with
           | piece :: rest => String c piece :: rest
           | [] => [String c ""]
           end
  end.

(** [s.replace(old, new)] for a non-empty [old]: every non-overlapping
    occurrence, leftmost first.  [skip] counts the characters of an
    occurrence that are still to be dropped. *)
Fixpoint replace_from (old new : string) (skip : nat) (s : string) : string :=
  match s with
  | EmptyString => ""
  | String c s' =>
      match skip with
      | S k => replace_from old new k s'
      | O =>
          if String.prefix old s
          then new +:+ replace_from old new (String.length old - 1) s'
          else String c (replace_from old new 0 s')
      end
  end.

Definition replace (old new s : string) : string := replace_from old new 0 s.

(** [s.rfind(c)]: the index of the last occurrence of [c], or [-1]. *)
Fixpoint rfind (c : ascii) (s : string) : Z :=
  match s with
  | EmptyString => -1
  | String d s' =>
      let r := rfind c s' in
      if 0 <=? r then r + 1 else if Ascii.eqb d c then 0 else -1
  end.

Fixpoint drop (n : nat) (s : string) : string :=
  match n, s with
  | S k, String _ s' => drop k s'
  | _, _ => s
  end.

(** [s[i:]] for [i >= 0]. *)
Definition slice_from (i : Z) (s : string) : string := drop (Z.to_nat i) s.

(** [s.lower()]: [A]..[Z] and the Latin-1 capitals U+00C0..U+00DE (the
    multiplication sign U+00D7 apart) move 32 places up; nothing else
    changes. *)
Definition is_upper (c : ascii) : bool :=
  ((65 <=? ord c) && (ord c <=? 90)) ||
  ((192 <=? ord c) && (ord c <=? 222) && negb (ord c =? 215)).

Definition lower_char (c : ascii) : ascii :=
  if is_upper c then chr (ord c + 32) else c.

Fixpoint lower (s : string) : string :=
  match s with
  | EmptyString => ""
  | String c s' => String (lower_char c) (lower s')
  end.

(** The white space [int()] drops around a literal: the ASCII white
    space of C ([\t], [\n], [\v], [\f], [\r], the blank) and the two
    Latin-1 spaces U+0085 and U+00A0, which [int()] turns into blanks
    first.  The separators 28..31 are not among them: [int] raises
    [ValueError] on them. *)
Definition is_space (c : ascii) : bool :=
  (ord c =? 32) || ((9 <=? ord c) && (ord c <=? 13)) ||
  (ord c =? 133) || (ord c =? 160).

Fixpoint lstrip (s : string) : string :=
  match s with
  | String c s' => if is_space c then lstrip s' else s
  | EmptyString => ""
  end.

(** Drops trailing white space: a character is kept when something that
    is kept follows it or it is not white space itself. *)
Fixpoint rstrip (s : string) : string :=
  match s with
  | EmptyString => ""
  | String c s' =>
      match rstrip s' with
      | EmptyString => if is_space c then "" else String c ""
      | kept => String c kept
      end
  end.

(** The argument of [int()] without the white space around it (this is
    not [str.strip], which drops 28..31 as well). *)
Definition strip (s : string) : string := rstrip (lstrip s).

(** The digit part of an [int()] literal: digits, with single
    underscores allowed between two digits. *)
Fixpoint int_digits (acc : Z) (s : string) : option Z :=
  match s with
  | EmptyString => Some acc
  | String c s' =>
      if is_digit c then int_digits (10 * acc + digit_value c) s'
      else if Ascii.eqb c "_" then
        match s' with
        | String d _ => if is_digit d then int_digits acc s' else None
        | EmptyString => None
        end
      else None
  end.

Definition int_unsigned (s : string) : option Z :=
  match s with
  | String c _ => if is_digit c then int_digits 0 s else None
  | EmptyString => None
  end.

(** [int(s)] for a [str] in base ten: surrounding white space dropped,
    an optional sign, then the digits.  [None] stands for [ValueError]. *)
Definition int_of_str (s : string) : option Z :=
  match strip s with
  | String "+" s' => int_unsigned s'
  | String "-" s' => Z.opp <$> int_unsigned s'
  | s' => int_unsigned s'
  end.

End PyStr.

Import PyStr.

(* ================================================================== *)
(** ** Bytes, and the one regular expression of the script *)
(* ================================================================== *)

Module PyBytes.

Definition char_of_byte (b : Byte.byte) : ascii := ascii_of_byte b.

Definition has_byte (c : ascii) (body : list Byte.byte) : bool :=
  existsb (fun b => Ascii.eqb (char_of_byte b) c) body.

(** The quote [repr] puts around a bytes literal: the single quote,
    unless the bytes hold a single quote and no double quote. *)
Definition repr_quote (body : list Byte.byte) : ascii :=
  if has_byte "'" body && negb (has_byte (chr 34) body) then chr 34 else "'"%char.

Definition repr_byte (quote : ascii) (b : Byte.byte) : string :=
  let c := char_of_byte b in
  if Ascii.eqb c quote || Ascii.eqb c "\" then String "\" (String c "")
  else if ord c =? 9 then "\t"
  else if ord c =? 10 then "\n"
  else if ord c =? 13 then "\r"
  else if (ord c <? 32) || (127 <=? ord c) then
    String "\" (String "x" (String (lower_digit (ord c / 16))
                             (String (lower_digit (ord c mod 16)) "")))
  else String c "".

(** [str(b)] for a [bytes] value [b], which is its [repr]: [b'...']. *)
Definition str_bytes (body : list Byte.byte) : string :=
  let quote := repr_quote body in
  String "b" (String quote
    (fold_right (fun b acc => repr_byte quote b +:+ acc) (String quote "") body)).

Definition bytes_of_str (s : string) : list Byte.byte := list_byte_of_string s.

End PyBytes.

Module Regex.

(** One element of a pattern without repetition: a literal character, or
    [.], which matches any character but a newline. *)
Inductive atom := Lit (c : ascii) | AnyChar.

Definition atom_matches (a : atom) (c : ascii) : bool :=
  match a with
  | Lit d => Ascii.eqb c d
  | AnyChar => negb (ord c =? 10)
  end.

Fixpoint atoms_of (pattern : string) : list atom :=
  match pattern with
  | EmptyString => []
  | String c p => (if Ascii.eqb c "." then AnyChar else Lit c) :: atoms_of p
  end.

(** Matches the atoms at the start of [s]; returns what follows. *)
Fixpoint match_atoms (p : list atom) (s : string) : option string :=
  match p, s with
  | [], _ => Some s
  | a :: p', String c s' => if atom_matches a c then match_atoms p' s' else None
  | _ :: _, EmptyString => None
  end.

(** The longest run of digits at the start of [s]: the greedy [[0-9]+]. *)
Fixpoint take_digits (s : string) : string :=
  match s with
  | String c s' => if is_digit c then String c (take_digits s') else ""
  | EmptyString => ""
  end.

(** A match of [prefix([0-9]+)] at the start of [s]: group 1. *)
Definition match_here (prefix : string) (s : string) : option string :=
  match match_atoms (atoms_of prefix) s with
  | Some rest =>
      match take_digits rest with
      | EmptyString => None
      | ds => Some ds
      end
  | None => None
  end.

(** [re.search(prefix + "([0-9]+)", s)]: group 1 of the leftmost match. *)
Fixpoint search_digits_after (prefix : string) (s : string) : option string :=
  match match_here prefix s with
  | Some ds => Some ds
  | None =>
      match s with
      | EmptyString => None
      | String _ s' => search_digits_after prefix s'
      end
  end.

End Regex.

(* ================================================================== *)
(** ** Exceptions, the world, and the monad of a run *)
(* ================================================================== *)

Module Py.

(** [URLError.reason] is a message string or another exception
    instance ([urlopen] wraps the [OSError] of a failed connection). *)
Inductive url_reason :=
| ReasonStr (msg : string)
| ReasonExc (cls : string).

Inductive exn :=
| SystemExit (code : Z)
| ValueError (msg : string)
| TypeError (msg : string)
| EOFError
| OSError (msg : string)
| HTTPError (code : Z) (reason : string)
| URLError (reason : url_reason)
| OverflowError (msg : string)
| OtherError (cls : string).

(** [isinstance(e, urllib.error.URLError)]: [HTTPError] is a subclass. *)
Definition is_URLError (e : exn) : bool :=
  match e with
  | HTTPError _ _ | URLError _ => true
  | _ => false
  end.

Definition is_ValueError (e : exn) : bool :=
  match e with
  | ValueError _ => true
  | _ => false
  end.

(** The name of the class of an exception. *)
Definition exn_class (e : exn) : string :=
  match e with
  | SystemExit _ => "SystemExit"
  | ValueError _ => "ValueError"
  | TypeError _ => "TypeError"
  | EOFError => "EOFError"
  | OSError _ => "OSError"
  | HTTPError _ _ => "urllib.error.HTTPError"
  | URLError _ => "urllib.error.URLError"
  | OverflowError _ => "OverflowError"
  | OtherError cls => cls
  end.

(** [str(e)] for the exceptions the script prints. *)
Definition str_exn (e : exn) : string :=
  match e with
  | ValueError msg | TypeError msg | OSError msg => msg
  | _ => ""
  end.

(** What a run can observe and change. *)
Record World := mkWorld {
  files : gmap string (list Byte.byte);  (** regular files and their contents *)
  stdin : list string;                   (** the lines still to be read *)
  stdout : list string;                  (** what was written, oldest first *)
  stderr : list string;
  requests : list string                 (** the URLs opened, oldest first *)
}.

Inductive result (A : Type) :=
| Ok (a : A)
| Raise (e : exn).
Arguments Ok {A} a.
Arguments Raise {A} e.

Definition IO (A : Type) : Type := World -> result A * World.

Definition ret {A} (a : A) : IO A := fun w => (Ok a, w).

Definition bind {A B} (m : IO A) (k : A -> IO B) : IO B :=
  fun w =>
    match m w with
    | (Ok a, w') => k a w'
    | (Raise e, w') => (Raise e, w')
    end.

Definition raise {A} (e : exn) : IO A := fun w => (Raise e, w).

(** [try: body except <catches> as e: handler e]. *)
Definition try_except {A} (body : IO A) (catches : exn -> bool)
    (handler : exn -> IO A) : IO A :=
  fun w =>
    match body w with
    | (Ok a, w') => (Ok a, w')
    | (Raise e, w') => if catches e then handler e w' else (Raise e, w')
    end.

(** [print(s)] and [print(s, file=sys.stderr)]. *)
Definition print (s : string) : IO unit :=
  fun w => (Ok tt, mkWorld (files w) (stdin w) (stdout w ++ [s]) (stderr w) (requests w)).

Definition eprint (s : string) : IO unit :=
  fun w => (Ok tt, mkWorld (files w) (stdin w) (stdout w) (stderr w ++ [s]) (requests w)).

(** [input(prompt)]: writes the prompt, reads one line without its
    newline; [EOFError] at the end of the input. *)
Definition input (prompt : string) : IO string :=
  fun w =>
    let out := stdout w ++ [prompt] in
    match stdin w with
    | line :: rest => (Ok line, mkWorld (files w) rest out (stderr w) (requests w))
    | [] => (Raise EOFError, mkWorld (files w) [] out (stderr w) (requests w))
    end.

(** [exit(code)]. *)
Definition exit {A} (code : Z) : IO A := raise (SystemExit code).

(** [os.path.isfile(path)]. *)
Definition isfile (path : string) : IO bool :=
  fun w => (Ok (bool_decide (is_Some (files w !! path))), w).

(** Writing [data] over the file at [path]. *)
Definition set_file (path : string) (data : list Byte.byte) : IO unit :=
  fun w => (Ok tt, mkWorld (<[path := data]> (files w)) (stdin w) (stdout w) (stderr w) (requests w)).

(** How the interpreter ends the process: status 0 after a normal end,
    the code of [SystemExit], and for any other exception a traceback on
    the error stream and status 1. *)
Definition exit_status (r : result unit) : Z :=
  match r with
  | Ok _ => 0
  | Raise (SystemExit code) => code
  | Raise _ => 1
  end.

End Py.

Import Py.

Notation "'let*' x := m 'in' k" := (bind m (fun x => k))
  (at level 10, x pattern, m at level 100, k at level 200).
Notation "m ;; k" := (bind m (fun _ => k))
  (at level 100, k at level 200, right associativity).

(* ================================================================== *)
(** ** The platform: what the standard library gives the script *)
(* ================================================================== *)

(** What [urllib.request.urlopen(url)] followed by [read()] and
    [getheader("Content-Length")] can do. *)
Inductive urlopen_outcome :=
| Response (body : list Byte.byte) (content_length : option string)
| FailHTTP (code : Z) (reason : string)
| FailURL (reason : url_reason)
| FailOther (cls : string).

(** The library functions whose results depend on the machine and the
    network.  [urlopen] sees the requests made so far, so that the same
    URL may answer differently later in a run.  Python floats are kept
    abstract: [truediv] is [/] on two ints, which has no result when the
    quotient is beyond the range of a float ([OverflowError]),
    [round_ndigits] is [round(x, n)] and [str_float] is [str] on a
    float. *)
Record Platform := mkPlatform {
  abspath : string -> string;
  realpath : string -> string;
  isdir : string -> bool;
  open_denied : string -> bool;
  urlopen : list string -> string -> urlopen_outcome;
  pyfloat : Type;
  truediv : Z -> Z -> option pyfloat;
  round_ndigits : pyfloat -> Z -> pyfloat;
  str_float : pyfloat -> string
}.

(** The parsed command line ([argparse] namespace). *)
Record Options := mkOptions {
  directory : string;
  overwrite : bool;
  skip : bool;
  range : string
}.

(** The fields of a [Whisperer] object. *)
Record Whisperer := mkWhisperer {
  _options : Options;
  _download_queue : gset Z;
  _last_issue_id_cache : option Z;
  _overwrite_without_confirmation : bool;
  _skip_existing_issues : bool;
  _download_path : string
}.

Definition FIRST_ISSUE_ID : Z := 1.

Definition newline : string := String (chr 10) "".
Definition dquote : string := String (chr 34) "".

(** The fixed URL of the index page and the prefix of the pattern searched
    in it. *)
Definition issues_url : string := "https://digitalwhisper.co.il/issues".
Definition issue_pattern_prefix : string := "www.digitalwhisper.co.il/issue".

(** [sorted(s)] for a set of ints. *)
Definition sorted (s : gset Z) : list Z := merge_sort Z.le (elements s).

(** [range(start, stop)] as the list it iterates over. *)
Definition py_range (start stop : Z) : list Z := seqZ start (stop - start).

(** [start, finish = pieces]: exactly two pieces, or [ValueError]. *)
Definition unpack2 (pieces : list string) : IO (string * string) :=
  match pieces with
  | [a; b] => ret (a, b)
  | [] | [_] => raise (ValueError "not enough values to unpack (expected 2, got fewer)")
  | _ => raise (ValueError "too many values to unpack (expected 2)")
  end.

(** [int(s)] for a [str]. *)
Definition int (s : string) : IO Z :=
  match int_of_str s with
  | Some n => ret n
  | None => raise (ValueError ("invalid literal for int() with base 10: '" +:+ s +:+ "'"))
  end.

(** [int(x)] for the value of a header, a [str] or [None]. *)
Definition int_header (x : option string) : IO Z :=
  match x with
  | Some s => int s
  | None => raise (TypeError "int() argument must be a string, a bytes-like object or a real number, not 'NoneType'")
  end.

Section Program.

Context (os : Platform).

(** [__init__] ends with [set_download_path]. *)
Definition set_download_path (self : Whisperer) (path_dir : string) : IO Whisperer :=
  let path_dir := abspath os path_dir in
  if negb (isdir os path_dir)
  then raise (ValueError ("Directory " +:+ path_dir +:+ " does not exist!"))
  else ret (mkWhisperer (_options self) (_download_queue self)
              (_last_issue_id_cache self) (_overwrite_without_confirmation self)
              (_skip_existing_issues self) path_dir).

Definition __init__ (options : Options) : IO Whisperer :=
  set_download_path
    (mkWhisperer options ∅ None (overwrite options) (skip options) "")
    (directory options).

Definition _generate_issue_url (issue_id : Z) : string :=
  "http://www.digitalwhisper.co.il/files/Zines/0x" +:+ format_02X issue_id +:+
  "/DigitalWhisper" +:+ str_int issue_id +:+ ".pdf".

Definition _fetch_url_content (url : string) : IO (list Byte.byte * option string) :=
  fun w =>
    let w' := mkWorld (files w) (stdin w) (stdout w) (stderr w) (requests w ++ [url]) in
    match urlopen os (requests w) url with
    | Response body content_length => (Ok (body, content_length), w')
    | FailHTTP code reason =>
        (eprint ("HTTP Error: " +:+ str_int code +:+ " " +:+ reason) ;;
         raise (HTTPError code reason)) w'
    | FailURL (ReasonStr msg) =>
        (eprint ("URL Error: " +:+ msg) ;;
         raise (URLError (ReasonStr msg))) w'
    | FailURL (ReasonExc cls) =>
        (* [str + exception]: the concatenation itself raises *)
        raise (TypeError ("can only concatenate str (not " +:+ dquote +:+ cls +:+
                          dquote +:+ ") to str")) w'
    | FailOther cls =>
        (eprint ("Error: <class '" +:+ cls +:+ "'>") ;;
         raise (OtherError cls)) w'
    end.

Definition _get_last_issue_id (self : Whisperer) : IO (option Z * Whisperer) :=
  match _last_issue_id_cache self with
  | Some cached => ret (Some cached, self)
  | None =>
      print "Fetching latest issue ID..." ;;
      let* fetched := _fetch_url_content issues_url in
      let data := PyBytes.str_bytes (fst fetched) in
      match Regex.search_digits_after issue_pattern_prefix data with
      | Some group1 =>
          let* latest := int group1 in
          let self := mkWhisperer (_options self) (_download_queue self)
                        (Some latest) (_overwrite_without_confirmation self)
                        (_skip_existing_issues self) (_download_path self) in
          ret (_last_issue_id_cache self, self)
      | None =>
          eprint "Error: Can't find last issue ID" ;;
          ret (_last_issue_id_cache self, self)
      end
  end.

(** [round(size/1000000, 2)]: the division of two ints raises
    [OverflowError] when the quotient does not fit a float. *)
Definition _bytes_to_megabytes (size : Z) : IO (pyfloat os) :=
  match truediv os size 1000000 with
  | Some quotient => ret (round_ndigits os quotient 2)
  | None => raise (OverflowError "integer division result too large for a float")
  end.

(** [open(out_path, 'wb')]: the file is created or cut to length zero. *)
Definition open_wb (path : string) : IO unit :=
  if open_denied os path
  then raise (OSError ("cannot open " +:+ path))
  else set_file path [].

(** Lines 81 to 87 of [_download_issue]: what follows the check of an
    existing file. *)
Definition fetch_and_save (issue_id : Z) (issue_url filename out_path : string) : IO unit :=
  print ("Downloading issue #" +:+ str_int issue_id +:+ " < " +:+ filename +:+ " >") ;;
  let* data := _fetch_url_content issue_url in
  open_wb out_path ;;
  let* size := int_header (snd data) in
  let* size_in_mb := _bytes_to_megabytes size in
  let filesize := str_float os size_in_mb +:+ " MB" in
  set_file out_path (fst data) ;;
  print ("Download successful! (" +:+ filesize +:+ ")").

Definition issue_filename (issue_id : Z) : string :=
  let issue_url := _generate_issue_url issue_id in
  slice_from (rfind "/" issue_url + 1) issue_url.

Definition issue_out_path (self : Whisperer) (issue_id : Z) : string :=
  realpath os (_download_path self +:+ "/" +:+ issue_filename issue_id).

Definition _download_issue (self : Whisperer) (issue_id : Z) : IO unit :=
  let issue_url := _generate_issue_url issue_id in
  let filename := issue_filename issue_id in
  let out_path := issue_out_path self issue_id in
  let* exists_ := isfile out_path in
  if negb (_overwrite_without_confirmation self) && exists_ then
    if _skip_existing_issues self then
      print ("Skipping issue #" +:+ str_int issue_id)
    else
      print ("File " +:+ dquote +:+ filename +:+ dquote +:+ " already exists!") ;;
      let* answer := input "Would you like to overwrite this file? [Y/n] " in
      if negb (String.eqb (lower answer) "y") then
        print ("Skipping issue #" +:+ str_int issue_id)
      else fetch_and_save issue_id issue_url filename out_path
  else fetch_and_save issue_id issue_url filename out_path.

(** The [for] loop of [download] over the sorted queue; [counter] is the
    number of items already started. *)
Fixpoint download_loop (self : Whisperer) (total counter : Z) (ids : list Z) : IO unit :=
  match ids with
  | [] => ret tt
  | issue_id :: rest =>
      let counter := counter + 1 in
      print (newline +:+ "Progress [" +:+ str_int counter +:+ "/" +:+ str_int total +:+ "]") ;;
      let* go_on :=
        try_except (_download_issue self issue_id ;; ret true) is_URLError
          (fun _ =>
             print ("Error while trying to fetch issue #" +:+ str_int issue_id) ;;
             let* fail_continue := input "Would you like to continue? [Y/n] " in
             ret (String.eqb (lower fail_continue) "y")) in
      if go_on then download_loop self total counter rest else ret tt
  end.

Definition download (self : Whisperer) : IO unit :=
  let total := Z.of_nat (size (_download_queue self)) in
  download_loop self total 0 (sorted (_download_queue self)).

Definition with_queue (self : Whisperer) (queue : gset Z) : Whisperer :=
  mkWhisperer (_options self) queue (_last_issue_id_cache self)
    (_overwrite_without_confirmation self) (_skip_existing_issues self)
    (_download_path self).

Definition add_issue_id (self : Whisperer) (issue_id : Z) : Whisperer :=
  with_queue self (_download_queue self ∪ {[issue_id]}).

Definition add_issue_id_range (self : Whisperer) (issue_id_range : list Z) : Whisperer :=
  with_queue self (_download_queue self ∪ list_to_set issue_id_range).

Definition clear_download_queue (self : Whisperer) : Whisperer :=
  with_queue self ∅.

(** Lines 146 to 152 of [main]: the expansion of one substituted token. *)
Definition expand_issue_range (whisperer : Whisperer) (issue_range : string) : IO Whisperer :=
  if contains "-" issue_range then
    let* pieces := unpack2 (split "-" issue_range) in
    let* start := int (fst pieces) in
    let* finish := int (snd pieces) in
    ret (add_issue_id_range whisperer (py_range start (finish + 1)))
  else
    let* issue_id := int issue_range in
    ret (add_issue_id whisperer issue_id).

(** The body of the [for issue_range in ranges] loop of [main]. *)
Definition add_range_token (whisperer : Whisperer) (issue_range : string) : IO Whisperer :=
  if contains "all" issue_range then
    if String.eqb "all" issue_range then
      let* resolved := _get_last_issue_id whisperer in
      let '(last_issue_id, whisperer) := resolved in
      expand_issue_range whisperer
        (str_int FIRST_ISSUE_ID +:+ "-" +:+ str_opt_int last_issue_id)
    else
      eprint "Error: 'all' cannot be used as part of a range" ;;
      exit 1
  else if contains "last" issue_range then
    let* resolved := _get_last_issue_id whisperer in
    let '(last_issue_id, whisperer) := resolved in
    expand_issue_range whisperer (replace "last" (str_opt_int last_issue_id) issue_range)
  else expand_issue_range whisperer issue_range.

Fixpoint add_range_tokens (whisperer : Whisperer) (ranges : list string) : IO Whisperer :=
  match ranges with
  | [] => ret whisperer
  | issue_range :: rest =>
      let* whisperer := add_range_token whisperer issue_range in
      add_range_tokens whisperer rest
  end.

Definition main (options : Options) : IO unit :=
  let* whisperer :=
    try_except (__init__ options) is_ValueError
      (fun e => eprint ("Error: " +:+ str_exn e) ;; exit 1) in
  let ranges := split "," (range options) in
  let* whisperer := add_range_tokens whisperer ranges in
  download whisperer ;;
  print "All Done!".

(** The script as the interpreter runs it: the exit status, and for an
    exception other than [SystemExit] the traceback it prints on the error
    stream before it stops. *)
Definition run_script (options : Options) (w : World) : Z * World :=
  match main options w with
  | (Raise (SystemExit code), w') => (code, w')
  | (Raise e, w') =>
      (exit_status (Raise e),
       mkWorld (files w') (stdin w') (stdout w')
         (stderr w' ++ ["Traceback (most recent call last): " +:+ exn_class e])
         (requests w'))
  | (Ok _, w') => (0, w')
  end.

End Program.

(* ================================================================== *)
(** ** A concrete platform, for closed runs *)
(* ================================================================== *)

Module Demo.

(** Python floats as the binary64 numbers they are: a sign, a mantissa
    and a binary exponent, the value being [mant * 2 ^ expo]. *)
Record binary64 := mkBinary64 { negative : bool; mant : Z; expo : Z }.

(** [num / den] rounded to the nearest integer, ties to the even one,
    for [0 <= num] and [0 < den]. *)
Definition div_half_even (num den : Z) : Z :=
  let q := num / den in
  let r := num mod den in
  if 2 * r <? den then q
  else if den <? 2 * r then q + 1
  else if Z.even q then q else q + 1.

(** [num / den / 2 ^ e], rounded likewise. *)
Definition scaled (num den e : Z) : Z :=
  if 0 <=? e then div_half_even num (den * 2 ^ e)
  else div_half_even (num * 2 ^ (- e)) den.

(** The binary64 number nearest to [num / den] for [0 <= num] and
    [0 < den]: a mantissa of 53 bits, fewer below the smallest normal
    number; nothing when the rounded quotient reaches [2 ^ 1024]. *)
Definition nearest (neg : bool) (num den : Z) : option binary64 :=
  if num =? 0 then Some (mkBinary64 neg 0 0)
  else
    let e := Z.log2 num - Z.log2 den - 52 in
    let low := if 0 <=? e then num / (den * 2 ^ e) else (num * 2 ^ (- e)) / den in
    let e := if low <? 2 ^ 52 then e - 1 else e in
    let e := Z.max e (-1074) in
    let m := scaled num den e in
    if 2 ^ 1024 <=? m * 2 ^ e then None else Some (mkBinary64 neg m e).

(** [a / b] on two ints, for [b > 0]: the correctly rounded quotient. *)
Definition float_div (a b : Z) : option binary64 :=
  if b <=? 0 then None else nearest (a <? 0) (Z.abs a) b.

(** The exact value of [abs x * 10 ^ ndigits], rounded to an integer. *)
Definition shifted (x : binary64) (ndigits : Z) : Z :=
  scaled (mant x * 10 ^ ndigits) 1 (- expo x).

(** [round(x, ndigits)] for [ndigits >= 0]: the exact value of [x] is
    rounded to [ndigits] decimals, ties to even, and the float nearest to
    that decimal is returned. *)
Definition float_round (x : binary64) (ndigits : Z) : binary64 :=
  match nearest (negative x) (shifted x ndigits) (10 ^ ndigits) with
  | Some y => y
  | None => x
  end.

(** [str(x)] for a float that [round(x, 2)] returned, below [10 ^ 13]
    in size: the shortest decimal that reads back as [x] is the one with
    at most two decimals. *)
Definition float_str (x : binary64) : string :=
  let k := shifted x 2 in
  let frac := k mod 100 in
  (if negative x then "-" else "") +:+ str_int (k / 100) +:+ "." +:+
  (if frac mod 10 =? 0 then str_int (frac / 10) else zfill 2 (str_int frac)).

Definition index_page : list Byte.byte :=
  PyBytes.bytes_of_str "<a href='http://www.digitalwhisper.co.il/issue3'>latest</a>".

Definition pdf (issue_id : Z) : list Byte.byte :=
  PyBytes.bytes_of_str ("%PDF issue " +:+ str_int issue_id).

(** A server that knows issues 1 to 3, declares the length of what it
    sends, and answers 404 for anything else. *)
Definition server (history : list string) (url : string) : urlopen_outcome :=
  if String.eqb url issues_url then Response index_page (Some "59")
  else if String.eqb url (_generate_issue_url 1) then Response (pdf 1) (Some "1234567")
  else if String.eqb url (_generate_issue_url 2) then Response (pdf 2) (Some "2500000")
  else if String.eqb url (_generate_issue_url 3) then Response (pdf 3) (Some "12")
  else FailHTTP 404 "Not Found".

Definition platform_with (net : list string -> string -> urlopen_outcome) : Platform :=
  mkPlatform (fun p => p) (fun p => p) (fun p => String.eqb p "/tmp/x") (fun _ => false)
    net binary64 float_div float_round float_str.

Definition platform : Platform := platform_with server.

Definition empty_world (lines : list string) : World := mkWorld ∅ lines [] [] [].

End Demo.

(* ================================================================== *)
(** ** Vocabulary of the statements *)
(* ================================================================== *)

(** A digit below sixteen, case by case. *)
Ltac digit_cases d :=
  let H := fresh "H" in
  assert (H : d = 0 \/ d = 1 \/ d = 2 \/ d = 3 \/ d = 4 \/ d = 5 \/ d = 6 \/ d = 7 \/
              d = 8 \/ d = 9 \/ d = 10 \/ d = 11 \/ d = 12 \/ d = 13 \/ d = 14 \/ d = 15)
    by lia;
  repeat (destruct H as [->|H]); [..|subst d].

(** A character, case by case on its eight bits. *)
Ltac char_cases c := destruct c as [[] [] [] [] [] [] [] []].

Definition is_not (sep : ascii) (c : ascii) : bool := negb (Ascii.eqb c sep).

(** The characters of a range token made of two numerals and a dash. *)
Definition is_digit_or_dash (c : ascii) : bool := is_digit c || Ascii.eqb c "-".

(** The object [__init__] builds when the directory exists. *)
Definition fresh_whisperer (os : Platform) (options : Options) : Whisperer :=
  mkWhisperer options ∅ None (overwrite options) (skip options)
    (abspath os (directory options)).

Definition with_cache (self : Whisperer) (cache : option Z) : Whisperer :=
  mkWhisperer (_options self) (_download_queue self) cache
    (_overwrite_without_confirmation self) (_skip_existing_issues self)
    (_download_path self).

Definition fetching_line : string := "Fetching latest issue ID...".

(** The world after the announcement and the request of the index page. *)
Definition index_requested (w : World) : World :=
  mkWorld (files w) (stdin w) (stdout w ++ ["Fetching latest issue ID..."])
    (stderr w) (requests w ++ [issues_url]).

(** The cache only ever holds what the pattern captured: a number read
    from digits.  This holds of a new object and is kept by every step. *)
Definition cache_valid (self : Whisperer) : Prop :=
  forall v : Z, _last_issue_id_cache self = Some v -> 0 <= v.

(** Before [download()] is called the script reads no input, writes no
    file, requests nothing but the index page and prints nothing on the
    output stream but the announcement of that request. *)
Record prelude (w w' : World) : Prop := mkPrelude {
  prelude_files : files w' = files w;
  prelude_stdin : stdin w' = stdin w;
  prelude_requests : exists reqs, requests w' = requests w ++ reqs /\ Forall (eq issues_url) reqs;
  prelude_stdout : exists out, stdout w' = stdout w ++ out /\ Forall (eq fetching_line) out;
  prelude_stderr : exists errs, stderr w' = stderr w ++ errs
}.

(** An exit through [exit(code)] comes with a non-zero code and after a
    message on the error stream. *)
Definition reported (e : exn) (w w' : World) : Prop :=
  match e with
  | SystemExit code => code <> 0 /\ exists errs, errs <> [] /\ stderr w' = stderr w ++ errs
  | _ => True
  end.

Definition not_exit (e : exn) : Prop :=
  match e with
  | SystemExit _ => False
  | _ => True
  end.

Definition downloading_line (issue_id : Z) : string :=
  "Downloading issue #" +:+ str_int issue_id +:+ " < " +:+ issue_filename issue_id +:+ " >".

Definition skipping_line (issue_id : Z) : string := "Skipping issue #" +:+ str_int issue_id.

Definition exists_line (issue_id : Z) : string :=
  "File " +:+ dquote +:+ issue_filename issue_id +:+ dquote +:+ " already exists!".

Definition overwrite_prompt : string := "Would you like to overwrite this file? [Y/n] ".

Definition continue_prompt : string := "Would you like to continue? [Y/n] ".

Definition add_stdout (w : World) (lines : list string) : World :=
  mkWorld (files w) (stdin w) (stdout w ++ lines) (stderr w) (requests w).

(** The world once the question about the existing file was answered. *)
Definition asked (issue_id : Z) (w : World) (rest : list string) : World :=
  mkWorld (files w) rest (stdout w ++ [exists_line issue_id; overwrite_prompt])
    (stderr w) (requests w).

(** The handler of the loop: the question after a failed request. *)
Definition ask_continue (issue_id : Z) : exn -> IO bool :=
  fun _ =>
    print ("Error while trying to fetch issue #" +:+ str_int issue_id) ;;
    let* fail_continue := input continue_prompt in
    ret (String.eqb (lower fail_continue) "y").

(** The line of a finished download: the size is [quotient], the count
    of megabytes, rounded to two decimals. *)
Definition success_line (os : Platform) (quotient : pyfloat os) : string :=
  "Download successful! (" +:+ (str_float os (round_ndigits os quotient 2) +:+ " MB") +:+ ")".

(** A declared length the script can report: [int()] reads it and the
    count of megabytes fits a float.  The literal is not longer than the
    4300 digits CPython 3.11 and later convert by default. *)
Definition reportable_length (os : Platform) (cl : string) (quotient : pyfloat os) : Prop :=
  (String.length cl <= 4300)%nat /\
  exists n : Z, int_of_str cl = Some n /\ truediv os n 1000000 = Some quotient.

Definition progress_line (counter total : Z) : string :=
  newline +:+ "Progress [" +:+ str_int counter +:+ "/" +:+ str_int total +:+ "]".

Definition failed_line (issue_id : Z) : string :=
  "Error while trying to fetch issue #" +:+ str_int issue_id.




(** The characters [int()] accepts somewhere in its argument. *)
Definition int_char (c : ascii) : bool :=
  is_digit c || Ascii.eqb c "_" || Ascii.eqb c "+" || Ascii.eqb c "-" || is_space c.

(** Every queued id is a natural number. *)
Definition queue_nonneg (self : Whisperer) : Prop :=
  forall x : Z, x ∈ _download_queue self -> 0 <= x.

(** What a run prints when every queued issue is skipped. *)
Fixpoint skip_report (total counter : Z) (ids : list Z) : list string :=
  match ids with
  | [] => []
  | issue_id :: rest =>
      progress_line (counter + 1) total :: skipping_line issue_id ::
      skip_report total (counter + 1) rest
  end.

(** A character that [repr] of a bytes value prints as itself between
    single quotes: printable ASCII other than the single quote and the
    backslash. *)
Definition plain (c : ascii) : bool :=
  (32 <=? ord c) && (ord c <? 127) && negb (Ascii.eqb c "'") && negb (Ascii.eqb c "\").

(** A token that needs the latest id: [all] itself, or a token with
    [last] and without [all]. *)
Definition needs_latest (issue_range : string) : Prop :=
  issue_range = "all" \/
  (contains "all" issue_range = false /\ contains "last" issue_range = true).

(** A token without keyword. *)
Definition keyword_free (issue_range : string) : Prop :=
  contains "all" issue_range = false /\ contains "last" issue_range = false.

(** The ids a token without keyword denotes, when it denotes any: one
    number, or the numbers between the two numbers around its dash. *)
Definition token_ids (issue_range : string) : option (list Z) :=
  if contains "-" issue_range then
    match split "-" issue_range with
    | [p1; p2] =>
        match int_of_str p1, int_of_str p2 with
        | Some start, Some finish => Some (py_range start (finish + 1))
        | _, _ => None
        end
    | _ => None
    end
  else
    match int_of_str issue_range with
    | Some issue_id => Some [issue_id]
    | None => None
    end.

(* ================================================================== *)
(** ** The primitives on sample inputs *)
(* ================================================================== *)

Example str_int_42 : str_int 42 = "42".
Proof. reflexivity. Qed.

Example format_02X_examples :
  format_02X 1 = "01" /\ format_02X 26 = "1A" /\ format_02X 255 = "FF" /\
  format_02X 300 = "12C" /\ format_02X (-5) = "-5".
Proof. repeat split; reflexivity. Qed.

Example split_examples :
  split "," "5,3-5" = ["5"; "3-5"] /\ split "-" "-1-5" = [""; "1"; "5"] /\
  split "," "" = [""] /\ split "-" "3-" = ["3"; ""].
Proof. repeat split; reflexivity. Qed.

Example replace_examples :
  replace "last" "97" "5-last" = "5-97" /\
  replace "last" "97" "lastlast" = "9797" /\
  replace "last" "7" "lalast" = "la7".
Proof. repeat split; reflexivity. Qed.

Example int_of_str_examples :
  int_of_str "12" = Some 12 /\ int_of_str " +1_000 " = Some 1000 /\
  int_of_str "-7" = Some (-7) /\ int_of_str "None" = None /\
  int_of_str "" = None /\ int_of_str "1__0" = None /\ int_of_str "007" = Some 7.
Proof. repeat split; reflexivity. Qed.

(** Around a literal [int()] drops the Latin-1 spaces U+0085 and U+00A0
    like the ASCII ones, but not the separator U+001F; and a Latin-1
    digit-like character such as the superscript two is no digit. *)
Example int_of_str_latin1 :
  int_of_str (String (chr 160) "12") = Some 12 /\
  int_of_str (String (chr 133) ("12" +:+ String (chr 9) "")) = Some 12 /\
  int_of_str (String (chr 31) "5") = None /\
  int_of_str (String (chr 28) ("5" +:+ String (chr 160) "")) = None /\
  int_of_str (String (chr 178) "") = None /\
  lower (String (chr 192) "bC") = String (chr 224) "bc".
Proof. repeat split; reflexivity. Qed.

(** The sizes the demonstration platform prints, with the ties of the
    decimal notation that binary64 decides: 0.005 is a little above the
    tie and 0.015 a little below, 0.125 is exact and goes to the even
    neighbour, 2.675 is below 2.675.  The division overflows from the
    middle between the largest float and [2 ^ 1024] on. *)
Example demo_megabytes :
  map (fun size => match Demo.float_div size 1000000 with
                   | Some quotient => Demo.float_str (Demo.float_round quotient 2)
                   | None => "OverflowError"
                   end)
      [0; 12; 5000; 15000; 25000; 125000; 1234567; 2500000; 2675000; 999999999; -5000;
       10 ^ 18 + 5000; 10 ^ 400] =
  ["0.0"; "0.0"; "0.01"; "0.01"; "0.03"; "0.12"; "1.23"; "2.5"; "2.67"; "1000.0"; "-0.01";
   "1000000000000.01"; "OverflowError"] /\
  Demo.float_div ((2 ^ 1024 - 2 ^ 970) * 1000000 - 1) 1000000 =
    Some (Demo.mkBinary64 false (2 ^ 53 - 1) 971) /\
  Demo.float_div ((2 ^ 1024 - 2 ^ 970) * 1000000) 1000000 = None.
Proof. repeat split; vm_compute; reflexivity. Qed.

Example rfind_examples :
  rfind "/" "a/b/c" = 3 /\ rfind "/" "abc" = -1 /\
  slice_from (rfind "/" "a/b/cd" + 1) "a/b/cd" = "cd".
Proof. repeat split; reflexivity. Qed.

Example str_bytes_example :
  PyBytes.str_bytes (PyBytes.bytes_of_str "a'b") = String "b" (String (chr 34) ("a'b" +:+ String (chr 34) "")) /\
  PyBytes.str_bytes (PyBytes.bytes_of_str ("x" +:+ String (chr 10) "y\")) = "b'x\ny\\'".
Proof. split; reflexivity. Qed.

Example search_example :
  Regex.search_digits_after "www.digitalwhisper.co.il/issue"
    "<a href='http://www.digitalwhisper.co.il/issue97'>x</a> www.digitalwhisper.co.il/issue12" = Some "97" /\
  Regex.search_digits_after "www.digitalwhisper.co.il/issue"
    "wwwXdigitalwhisperYcoZil/issue5x" = Some "5" /\
  Regex.search_digits_after "www.digitalwhisper.co.il/issue" "www.digitalwhisper.co.il/issues" = None.
Proof. repeat split; reflexivity. Qed.

(* ================================================================== *)
(** ** Facts about the string primitives *)
(* ================================================================== *)

Lemma app_nil_l_str (s : string) : "" +:+ s = s.
Proof. reflexivity. Qed.

Lemma app_cons (c : ascii) (s1 s2 : string) : String c s1 +:+ s2 = String c (s1 +:+ s2).
Proof. reflexivity. Qed.

Lemma app_empty_r (s : string) : s +:+ "" = s.
Proof. induction s as [|c s IH]; [reflexivity|]. now rewrite app_cons, IH. Qed.

Lemma app_assoc_str (s1 s2 s3 : string) : (s1 +:+ s2) +:+ s3 = s1 +:+ s2 +:+ s3.
Proof. induction s1 as [|c s1 IH]; [reflexivity|]. now rewrite !app_cons, IH. Qed.

Lemma length_app_str (s1 s2 : string) :
  String.length (s1 +:+ s2) = (String.length s1 + String.length s2)%nat.
Proof. induction s1 as [|c s1 IH]; [reflexivity|]. rewrite app_cons. cbn. now rewrite IH. Qed.

Lemma all_chars_app (p : ascii -> bool) (s1 s2 : string) :
  all_chars p (s1 +:+ s2) = all_chars p s1 && all_chars p s2.
Proof.
  induction s1 as [|c s1 IH]; [reflexivity|].
  rewrite app_cons. cbn. rewrite IH. now rewrite andb_assoc.
Qed.

Lemma all_chars_impl (p q : ascii -> bool) (s : string) :
  (forall c, p c = true -> q c = true) ->
  all_chars p s = true -> all_chars q s = true.
Proof.
  intros Hpq. induction s as [|c s IH]; [reflexivity|].
  cbn. intros [Hc Hs]%andb_true_iff. rewrite (Hpq _ Hc). now apply IH.
Qed.

Lemma digits_value_app (base acc : Z) (s1 s2 : string) :
  digits_value base acc (s1 +:+ s2) = digits_value base (digits_value base acc s1) s2.
Proof.
  revert acc. induction s1 as [|c s1 IH]; intros acc; [reflexivity|].
  rewrite app_cons. cbn. apply IH.
Qed.

Lemma upper_digit_value (d : Z) : 0 <= d < 16 -> digit_value (upper_digit d) = d.
Proof. intros Hd. digit_cases d; reflexivity. Qed.

Lemma upper_digit_hex (d : Z) : 0 <= d < 16 -> is_upper_hexdigit (upper_digit d) = true.
Proof. intros Hd. digit_cases d; reflexivity. Qed.

Lemma upper_digit_dec (d : Z) : 0 <= d < 10 -> is_digit (upper_digit d) = true.
Proof. intros Hd. digit_cases d; try reflexivity; lia. Qed.

Lemma upper_digit_zero (d : Z) : 0 <= d < 16 -> upper_digit d = "0"%char -> d = 0.
Proof. intros Hd. digit_cases d; intros E; try reflexivity; discriminate E. Qed.

Lemma is_digit_hex (c : ascii) : is_digit c = true -> is_upper_hexdigit c = true.
Proof. unfold is_upper_hexdigit. now intros ->. Qed.

Lemma is_digit_not_space (c : ascii) : is_digit c = true -> is_space c = false.
Proof. char_cases c; vm_compute; congruence. Qed.

Lemma digit_value_nonneg (c : ascii) : is_digit c = true -> 0 <= digit_value c <= 9.
Proof. char_cases c; vm_compute; intuition congruence. Qed.

Lemma render_fuel_acc (base : Z) (fuel : nat) (n : Z) (acc : string) :
  render_fuel base fuel n acc = render_fuel base fuel n "" +:+ acc.
Proof.
  revert n acc. induction fuel as [|f IH]; intros n acc; [reflexivity|].
  cbn. destruct (n / base =? 0); [reflexivity|].
  rewrite IH. rewrite (IH _ (String _ "")). now rewrite app_assoc_str.
Qed.

Lemma render_fuel_step (base : Z) (f : nat) (n : Z) :
  render_fuel base (S f) n "" =
  (if n / base =? 0 then "" else render_fuel base f (n / base) "") +:+
  String (upper_digit (n mod base)) "".
Proof. cbn. destruct (n / base =? 0); [reflexivity|]. apply render_fuel_acc. Qed.

Lemma div_lt_pow2 (base n : Z) (f : nat) :
  2 <= base -> 0 <= n < 2 ^ Z.of_nat (S f) -> 0 <= n / base < 2 ^ Z.of_nat f.
Proof.
  intros Hb [Hn Hlt]. split; [apply Z.div_pos; lia|].
  apply Z.div_lt_upper_bound; [lia|].
  rewrite Nat2Z.inj_succ, Z.pow_succ_r in Hlt by lia. nia.
Qed.

(** The rendering denotes the number it renders. *)
Lemma render_fuel_value (base : Z) (fuel : nat) (n : Z) :
  2 <= base <= 16 -> 0 <= n < 2 ^ Z.of_nat fuel ->
  digits_value base 0 (render_fuel base fuel n "") = n.
Proof.
  intros Hb. revert n. induction fuel as [|f IH]; intros n Hn.
  - cbn in *. lia.
  - rewrite render_fuel_step, digits_value_app. cbn.
    pose proof (Z.mod_pos_bound n base ltac:(lia)) as Hmod.
    rewrite upper_digit_value by lia.
    pose proof (Z.div_mod n base ltac:(lia)) as Hdm.
    destruct (n / base =? 0) eqn:E.
    + apply Z.eqb_eq in E. cbn. lia.
    + rewrite IH by (apply div_lt_pow2; lia). lia.
Qed.

Lemma render_fuel_chars (p : ascii -> bool) (base : Z) (fuel : nat) (n : Z) :
  0 < base -> (forall d, 0 <= d < base -> p (upper_digit d) = true) ->
  all_chars p (render_fuel base fuel n "") = true.
Proof.
  intros Hb Hp. revert n. induction fuel as [|f IH]; intros n; [reflexivity|].
  rewrite render_fuel_step, all_chars_app. cbn.
  rewrite Hp by (apply Z.mod_pos_bound; lia).
  destruct (n / base =? 0); [reflexivity|]. now rewrite IH.
Qed.

(** A positive number is rendered without a leading zero. *)
Lemma render_fuel_no_leading_zero (base : Z) (fuel : nat) (n : Z) :
  2 <= base <= 16 -> 1 <= n < 2 ^ Z.of_nat fuel ->
  exists c s, render_fuel base fuel n "" = String c s /\ c <> "0"%char.
Proof.
  intros Hb. revert n. induction fuel as [|f IH]; intros n Hn.
  - cbn in *. lia.
  - rewrite render_fuel_step.
    pose proof (Z.mod_pos_bound n base ltac:(lia)) as Hmod.
    pose proof (Z.div_mod n base ltac:(lia)) as Hdm.
    destruct (n / base =? 0) eqn:E.
    + apply Z.eqb_eq in E. eexists _, _. split; [reflexivity|].
      intros H0%upper_digit_zero; lia.
    + apply Z.eqb_neq in E.
      destruct (IH (n / base)) as (c & s & -> & Hc).
      { pose proof (div_lt_pow2 base n f ltac:(lia) ltac:(lia)). lia. }
      eexists _, _. split; [reflexivity|exact Hc].
Qed.

Lemma render_fuel_enough (n : Z) : 0 <= n -> n < 2 ^ Z.of_nat (S (Z.to_nat (Z.log2 n))).
Proof.
  intros Hn. rewrite Nat2Z.inj_succ, Z2Nat.id by apply Z.log2_nonneg.
  destruct (Z.eq_dec n 0) as [->|Hne]; [reflexivity|].
  apply Z.log2_spec. lia.
Qed.

Lemma render_value (base n : Z) :
  2 <= base <= 16 -> 0 <= n -> digits_value base 0 (render base n) = n.
Proof.
  intros Hb Hn. apply render_fuel_value; [exact Hb|].
  split; [exact Hn | now apply render_fuel_enough].
Qed.

Lemma render_dec_digits (n : Z) : all_chars is_digit (render 10 n) = true.
Proof. apply render_fuel_chars; [lia|]. intros d Hd. now apply upper_digit_dec. Qed.

Lemma render_hex_digits (n : Z) : all_chars is_upper_hexdigit (render 16 n) = true.
Proof. apply render_fuel_chars; [lia|]. intros d Hd. now apply upper_digit_hex. Qed.

Lemma render_no_leading_zero (base n : Z) :
  2 <= base <= 16 -> 1 <= n ->
  exists c s, render base n = String c s /\ c <> "0"%char.
Proof.
  intros Hb Hn. apply render_fuel_no_leading_zero; [exact Hb|].
  split; [exact Hn | apply render_fuel_enough; lia].
Qed.

(** A rendering is never empty. *)
Lemma render_nonempty (base n : Z) : exists c s, render base n = String c s.
Proof.
  unfold render. rewrite render_fuel_step.
  destruct (n / base =? 0); [now eexists _, _|].
  destruct (render_fuel _ _ _ _); now eexists _, _.
Qed.

Lemma str_int_nonneg (n : Z) : 0 <= n -> str_int n = render 10 n.
Proof. intros Hn. unfold str_int. destruct (n <? 0) eqn:E; [lia|reflexivity]. Qed.

Lemma str_int_digits (n : Z) : 0 <= n -> all_chars is_digit (str_int n) = true.
Proof. intros Hn. rewrite str_int_nonneg by exact Hn. apply render_dec_digits. Qed.

Lemma str_int_value (n : Z) : 0 <= n -> digits_value 10 0 (str_int n) = n.
Proof. intros Hn. rewrite str_int_nonneg by exact Hn. apply render_value; lia. Qed.

Lemma str_int_head (n : Z) :
  0 <= n -> exists c s, str_int n = String c s /\ is_digit c = true.
Proof.
  intros Hn. pose proof (str_int_digits n Hn) as Hd.
  rewrite str_int_nonneg in * by exact Hn.
  destruct (render_nonempty 10 n) as (c & s & E). rewrite E in *.
  exists c, s. split; [reflexivity|]. cbn in Hd. now apply andb_true_iff in Hd.
Qed.

Lemma repeat_zero_value (base acc : Z) (k : nat) (s : string) :
  acc = 0 -> digits_value base acc (repeat_char "0" k +:+ s) = digits_value base 0 s.
Proof.
  intros ->. induction k as [|k IH]; [reflexivity|].
  change (repeat_char "0" (S k) +:+ s) with (String "0" (repeat_char "0" k +:+ s)).
  change (digits_value base 0 (String "0" (repeat_char "0" k +:+ s)))
    with (digits_value base (base * 0 + 0) (repeat_char "0" k +:+ s)).
  now rewrite Z.mul_0_r.
Qed.

Lemma zfill_value (base : Z) (width : nat) (s : string) :
  digits_value base 0 (zfill width s) = digits_value base 0 s.
Proof. now apply repeat_zero_value. Qed.

Lemma repeat_char_all (p : ascii -> bool) (c : ascii) (k : nat) :
  p c = true -> all_chars p (repeat_char c k) = true.
Proof. intros Hp. induction k as [|k IH]; [reflexivity|]. cbn. now rewrite Hp. Qed.

Lemma zfill_chars (p : ascii -> bool) (width : nat) (s : string) :
  p "0"%char = true -> all_chars p s = true -> all_chars p (zfill width s) = true.
Proof.
  intros H0 Hs. unfold zfill. rewrite all_chars_app, Hs.
  now rewrite repeat_char_all.
Qed.

Lemma length_repeat_char (c : ascii) (k : nat) : String.length (repeat_char c k) = k.
Proof. induction k as [|k IH]; [reflexivity|]. cbn. now rewrite IH. Qed.

Lemma zfill_length (width : nat) (s : string) :
  String.length (zfill width s) = Nat.max width (String.length s).
Proof. unfold zfill. rewrite length_app_str, length_repeat_char. lia. Qed.

Lemma zfill_wide (width : nat) (s : string) :
  (width <= String.length s)%nat -> zfill width s = s.
Proof.
  intros H. unfold zfill. now replace (width - String.length s)%nat with 0%nat by lia.
Qed.

Lemma format_02X_nonneg (n : Z) : 0 <= n -> format_02X n = zfill 2 (render 16 n).
Proof. intros Hn. unfold format_02X. destruct (n <? 0) eqn:E; [lia|reflexivity]. Qed.

(* ================================================================== *)
(** ** The URL builder *)
(* ================================================================== *)

Lemma prefix_cons (c1 c2 : ascii) (s1 s2 : string) :
  String.prefix (String c1 s1) (String c2 s2) =
  if ascii_dec c1 c2 then String.prefix s1 s2 else false.
Proof. reflexivity. Qed.

Lemma prefix_zero_false (c : ascii) (s : string) :
  c <> "0"%char -> String.prefix "0" (String c s) = false.
Proof.
  intros Hc. rewrite prefix_cons.
  destruct (ascii_dec "0" c) as [E|_]; [now symmetry in E|reflexivity].
Qed.

Lemma format_02X_spec (n : Z) :
  1 <= n ->
  all_chars is_upper_hexdigit (format_02X n) = true /\
  digits_value 16 0 (format_02X n) = n /\
  (2 <= String.length (format_02X n))%nat /\
  ((2 < String.length (format_02X n))%nat -> String.prefix "0" (format_02X n) = false).
Proof.
  intros Hn. rewrite format_02X_nonneg by lia. repeat split.
  - apply zfill_chars; [reflexivity | apply render_hex_digits].
  - rewrite zfill_value. apply render_value; lia.
  - rewrite zfill_length. lia.
  - rewrite zfill_length. intros Hlen. rewrite zfill_wide by lia.
    destruct (render_no_leading_zero 16 n) as (c & s & -> & Hc); [lia..|].
    now apply prefix_zero_false.
Qed.

Lemma str_int_spec (n : Z) :
  1 <= n ->
  all_chars is_digit (str_int n) = true /\
  digits_value 10 0 (str_int n) = n /\
  String.prefix "0" (str_int n) = false.
Proof.
  intros Hn. repeat split.
  - apply str_int_digits. lia.
  - apply str_int_value. lia.
  - rewrite str_int_nonneg by lia.
    destruct (render_no_leading_zero 10 n) as (c & s & -> & Hc); [lia..|].
    now apply prefix_zero_false.
Qed.

(** C4. For every issue identifier [n >= 1] the URL builder returns
    [http://www.digitalwhisper.co.il/files/Zines/0x<HEX2>/DigitalWhisper<n>.pdf]:
    [HEX2] is made of upper-case hexadecimal digits, denotes [n], is at
    least two characters wide and carries a leading zero only to reach that
    width; [<n>] is the decimal numeral of [n]; so the URL ends with
    [DigitalWhisper<n>.pdf]. *)
Theorem generate_issue_url_form (n : Z) :
  1 <= n ->
  exists hex2 dec : string,
    _generate_issue_url n =
      "http://www.digitalwhisper.co.il/files/Zines/0x" +:+ hex2 +:+
      "/DigitalWhisper" +:+ dec +:+ ".pdf" /\
    (all_chars is_upper_hexdigit hex2 = true /\
     digits_value 16 0 hex2 = n /\
     (2 <= String.length hex2)%nat /\
     ((2 < String.length hex2)%nat -> String.prefix "0" hex2 = false)) /\
    (all_chars is_digit dec = true /\
     digits_value 10 0 dec = n /\
     String.prefix "0" dec = false) /\
    exists front : string,
      _generate_issue_url n = front +:+ "DigitalWhisper" +:+ dec +:+ ".pdf".
Proof.
  intros Hn. exists (format_02X n), (str_int n).
  split; [reflexivity|].
  split; [now apply format_02X_spec|].
  split; [now apply str_int_spec|].
  exists ("http://www.digitalwhisper.co.il/files/Zines/0x" +:+ format_02X n +:+ "/").
  unfold _generate_issue_url. now rewrite !app_assoc_str.
Qed.

Lemma generate_issue_url_form_witness :
  exists hex2 dec : string,
    _generate_issue_url 26 =
      "http://www.digitalwhisper.co.il/files/Zines/0x" +:+ hex2 +:+
      "/DigitalWhisper" +:+ dec +:+ ".pdf" /\
    (all_chars is_upper_hexdigit hex2 = true /\
     digits_value 16 0 hex2 = 26 /\
     (2 <= String.length hex2)%nat /\
     ((2 < String.length hex2)%nat -> String.prefix "0" hex2 = false)) /\
    (all_chars is_digit dec = true /\
     digits_value 10 0 dec = 26 /\
     String.prefix "0" dec = false) /\
    exists front : string,
      _generate_issue_url 26 = front +:+ "DigitalWhisper" +:+ dec +:+ ".pdf".
Proof. apply (generate_issue_url_form 26). lia. Defined.

Example generate_issue_url_26 :
  _generate_issue_url 26 =
  "http://www.digitalwhisper.co.il/files/Zines/0x1A/DigitalWhisper26.pdf" /\
  _generate_issue_url 300 =
  "http://www.digitalwhisper.co.il/files/Zines/0x12C/DigitalWhisper300.pdf".
Proof. split; reflexivity. Qed.

(* ================================================================== *)
(** ** Substrings, splitting and [int()] on numerals *)
(* ================================================================== *)

Lemma contains_cons (sub : string) (c : ascii) (s : string) :
  contains sub (String c s) = String.prefix sub (String c s) || contains sub s.
Proof. reflexivity. Qed.

Lemma prefix_empty (s : string) : String.prefix "" s = true.
Proof. now destruct s. Qed.

(** A string whose characters all satisfy [p] holds no substring that
    starts with a character outside [p]. *)
Lemma contains_outside (p : ascii -> bool) (c : ascii) (sub s : string) :
  p c = false -> all_chars p s = true -> contains (String c sub) s = false.
Proof.
  intros Hc. induction s as [|d s IH]; [reflexivity|].
  cbn [all_chars]. intros [Hd Hs]%andb_true_iff.
  rewrite contains_cons, prefix_cons, (IH Hs).
  destruct (ascii_dec c d) as [->|_]; [congruence|reflexivity].
Qed.

Lemma contains_middle (c : ascii) (s1 s2 : string) :
  contains (String c "") (s1 +:+ String c s2) = true.
Proof.
  induction s1 as [|d s1 IH].
  - rewrite app_nil_l_str, contains_cons, prefix_cons, prefix_empty.
    now destruct (ascii_dec c c).
  - rewrite app_cons, contains_cons, IH. apply orb_true_r.
Qed.

Lemma split_cons (sep c : ascii) (s : string) :
  split sep (String c s) =
  if Ascii.eqb c sep then "" :: split sep s
  else match split sep s with
       | piece :: rest => String c piece :: rest
       | [] => [String c ""]
       end.
Proof. reflexivity. Qed.

Lemma split_whole (sep : ascii) (s : string) :
  all_chars (is_not sep) s = true -> split sep s = [s].
Proof.
  induction s as [|c s IH]; [reflexivity|].
  cbn [all_chars]. intros [Hc Hs]%andb_true_iff.
  rewrite split_cons, (IH Hs). unfold is_not in Hc.
  now destruct (Ascii.eqb c sep).
Qed.

Lemma split_at_first (sep : ascii) (s1 s2 : string) :
  all_chars (is_not sep) s1 = true ->
  split sep (s1 +:+ String sep s2) = s1 :: split sep s2.
Proof.
  induction s1 as [|c s1 IH].
  - intros _. now rewrite app_nil_l_str, split_cons, Ascii.eqb_refl.
  - cbn [all_chars]. intros [Hc Hs]%andb_true_iff.
    rewrite app_cons, split_cons, (IH Hs). unfold is_not in Hc.
    now destruct (Ascii.eqb c sep).
Qed.

Lemma lstrip_head (c : ascii) (s : string) :
  is_space c = false -> lstrip (String c s) = String c s.
Proof. intros H. cbn [lstrip]. now rewrite H. Qed.

Lemma rstrip_cons (c : ascii) (s : string) :
  rstrip (String c s) =
  match rstrip s with
  | EmptyString => if is_space c then "" else String c ""
  | kept => String c kept
  end.
Proof. reflexivity. Qed.

Lemma rstrip_solid (s : string) :
  all_chars (fun c => negb (is_space c)) s = true -> rstrip s = s.
Proof.
  induction s as [|c s IH]; [reflexivity|].
  cbn [all_chars]. intros [Hc Hs]%andb_true_iff.
  rewrite rstrip_cons, (IH Hs). apply negb_true_iff in Hc. rewrite Hc.
  now destruct s.
Qed.

Lemma int_digits_numeral (acc : Z) (s : string) :
  all_chars is_digit s = true -> int_digits acc s = Some (digits_value 10 acc s).
Proof.
  revert acc. induction s as [|c s IH]; intros acc; [reflexivity|].
  cbn [all_chars]. intros [Hc Hs]%andb_true_iff.
  cbn [int_digits digits_value]. rewrite Hc. now apply IH.
Qed.

Lemma int_of_str_head (c : ascii) (s : string) :
  is_digit c = true -> strip (String c s) = String c s ->
  int_of_str (String c s) = int_digits 0 (String c s).
Proof.
  intros Hc Hstrip. unfold int_of_str. rewrite Hstrip. clear Hstrip.
  char_cases c; try (vm_compute in Hc; discriminate Hc); reflexivity.
Qed.

(** [int()] reads a non-empty string of digits as the number it denotes. *)
Lemma int_of_str_numeral (s : string) :
  s <> "" -> all_chars is_digit s = true ->
  int_of_str s = Some (digits_value 10 0 s).
Proof.
  intros Hne Hs. destruct s as [|c s]; [congruence|].
  pose proof Hs as Hall. cbn [all_chars] in Hs. apply andb_true_iff in Hs as [Hc Hs].
  rewrite int_of_str_head; [now apply int_digits_numeral | exact Hc |].
  unfold strip. rewrite lstrip_head by now apply is_digit_not_space.
  apply rstrip_solid. apply (all_chars_impl is_digit); [|exact Hall].
  intros d Hd. now rewrite is_digit_not_space.
Qed.

Lemma digits_value_nonneg (acc : Z) (s : string) :
  0 <= acc -> all_chars is_digit s = true -> 0 <= digits_value 10 acc s.
Proof.
  revert acc. induction s as [|c s IH]; intros acc Hacc; [intros _; exact Hacc|].
  cbn [all_chars digits_value]. intros [Hc Hs]%andb_true_iff.
  apply IH; [|exact Hs]. pose proof (digit_value_nonneg c Hc). lia.
Qed.

(** [int(str(n)) == n] for a non-negative [n]. *)
Lemma int_of_str_str_int (n : Z) : 0 <= n -> int_of_str (str_int n) = Some n.
Proof.
  intros Hn. destruct (str_int_head n Hn) as (c & s & E & _).
  rewrite int_of_str_numeral.
  - now rewrite str_int_value.
  - rewrite E. discriminate.
  - now apply str_int_digits.
Qed.

Lemma is_digit_not_char (sep c : ascii) :
  is_digit sep = false -> is_digit c = true -> is_not sep c = true.
Proof.
  intros Hsep Hc. unfold is_not. destruct (Ascii.eqb_spec c sep) as [->|_]; [congruence|reflexivity].
Qed.

Lemma str_int_without (sep : ascii) (n : Z) :
  is_digit sep = false -> 0 <= n -> all_chars (is_not sep) (str_int n) = true.
Proof.
  intros Hsep Hn. apply (all_chars_impl is_digit); [|now apply str_int_digits].
  intros c. now apply is_digit_not_char.
Qed.

Section RangeToken.

Context (a b : Z) (Ha : 0 <= a) (Hb : 0 <= b).

Local Abbreviation token := (str_int a +:+ "-" +:+ str_int b).

Lemma range_token_chars : all_chars is_digit_or_dash token = true.
Proof.
  assert (Hnum : forall n, 0 <= n -> all_chars is_digit_or_dash (str_int n) = true).
  { intros n Hn. apply (all_chars_impl is_digit); [|now apply str_int_digits].
    intros c Hc. unfold is_digit_or_dash. now rewrite Hc. }
  rewrite !all_chars_app, !Hnum by assumption. reflexivity.
Qed.

Lemma range_token_no_all : contains "all" token = false.
Proof. apply (contains_outside is_digit_or_dash); [reflexivity | apply range_token_chars]. Qed.

Lemma range_token_no_last : contains "last" token = false.
Proof. apply (contains_outside is_digit_or_dash); [reflexivity | apply range_token_chars]. Qed.

Lemma range_token_dash : contains "-" token = true.
Proof. apply contains_middle. Qed.

Lemma range_token_split : split "-" token = [str_int a; str_int b].
Proof.
  change ("-" +:+ str_int b) with (String "-" (str_int b)).
  rewrite split_at_first by now apply str_int_without.
  now rewrite split_whole by now apply str_int_without.
Qed.

Lemma range_token_no_comma : split "," token = [token].
Proof.
  apply split_whole. apply (all_chars_impl is_digit_or_dash); [|apply range_token_chars].
  intros c. unfold is_digit_or_dash, is_not.
  char_cases c; vm_compute; congruence.
Qed.

End RangeToken.

(* ================================================================== *)
(** ** Running the monad *)
(* ================================================================== *)

Lemma bind_ok {A B} (m : IO A) (k : A -> IO B) (w w' : World) (a : A) :
  m w = (Ok a, w') -> bind m k w = k a w'.
Proof. intros E. unfold bind. now rewrite E. Qed.

Lemma bind_raise {A B} (m : IO A) (k : A -> IO B) (w w' : World) (e : exn) :
  m w = (Raise e, w') -> bind m k w = (Raise e, w').
Proof. intros E. unfold bind. now rewrite E. Qed.

Lemma then_ret_ok {A B} (m : IO A) (b : B) (w w' : World) (a : A) :
  m w = (Ok a, w') -> (m ;; ret b) w = (Ok b, w').
Proof. intros E. unfold bind. now rewrite E. Qed.

Lemma try_except_ok {A} (body : IO A) catches handler (w w' : World) (a : A) :
  body w = (Ok a, w') -> try_except body catches handler w = (Ok a, w').
Proof. intros E. unfold try_except. now rewrite E. Qed.

Lemma try_except_caught {A} (body : IO A) catches handler (w w' : World) (e : exn) :
  body w = (Raise e, w') -> catches e = true ->
  try_except body catches handler w = handler e w'.
Proof. intros E Hc. unfold try_except. now rewrite E, Hc. Qed.

Lemma try_except_passed {A} (body : IO A) catches handler (w w' : World) (e : exn) :
  body w = (Raise e, w') -> catches e = false ->
  try_except body catches handler w = (Raise e, w').
Proof. intros E Hc. unfold try_except. now rewrite E, Hc. Qed.

Lemma init_ok (os : Platform) (options : Options) (w : World) :
  isdir os (abspath os (directory options)) = true ->
  __init__ os options w = (Ok (fresh_whisperer os options), w).
Proof. intros Hdir. unfold __init__, set_download_path. now rewrite Hdir. Qed.

Lemma init_no_directory (os : Platform) (options : Options) (w : World) :
  isdir os (abspath os (directory options)) = false ->
  __init__ os options w =
  (Raise (ValueError ("Directory " +:+ abspath os (directory options) +:+ " does not exist!")), w).
Proof. intros Hdir. unfold __init__, set_download_path. now rewrite Hdir. Qed.

Lemma main_after_init (os : Platform) (options : Options) (w : World) :
  isdir os (abspath os (directory options)) = true ->
  main os options w =
  (let* whisperer := add_range_tokens os (fresh_whisperer os options)
                       (split "," (range options)) in
   download os whisperer ;; print "All Done!") w.
Proof.
  intros Hdir. unfold main.
  erewrite bind_ok; [reflexivity|].
  erewrite try_except_ok; [reflexivity|]. now apply init_ok.
Qed.

(* ================================================================== *)
(** ** The range expander on a dash range *)
(* ================================================================== *)

Lemma with_queue_same (self : Whisperer) : with_queue self (_download_queue self) = self.
Proof. now destruct self. Qed.

Lemma py_range_empty (start stop : Z) : stop <= start -> py_range start stop = [].
Proof. intros H. apply seqZ_nil. lia. Qed.

Lemma elem_of_py_range (start stop x : Z) : x ∈ py_range start stop <-> start <= x < stop.
Proof. unfold py_range. rewrite elem_of_seqZ. lia. Qed.

Lemma add_issue_id_range_nil (self : Whisperer) : add_issue_id_range self [] = self.
Proof.
  unfold add_issue_id_range. rewrite list_to_set_nil, (right_id_L ∅ (∪)).
  apply with_queue_same.
Qed.

Lemma elem_of_add_issue_id_range (self : Whisperer) (ids : list Z) (x : Z) :
  x ∈ _download_queue (add_issue_id_range self ids) <-> x ∈ _download_queue self \/ x ∈ ids.
Proof. cbn. rewrite elem_of_union, elem_of_list_to_set. reflexivity. Qed.

Lemma expand_issue_range_numerals (self : Whisperer) (a b : Z) (w : World) :
  0 <= a -> 0 <= b ->
  expand_issue_range self (str_int a +:+ "-" +:+ str_int b) w =
  (Ok (add_issue_id_range self (py_range a (b + 1))), w).
Proof.
  intros Ha Hb. unfold expand_issue_range.
  rewrite range_token_dash, (range_token_split a b Ha Hb).
  unfold unpack2, bind, ret, int. cbn [fst snd].
  now rewrite !int_of_str_str_int by assumption.
Qed.

Lemma add_range_token_numerals (os : Platform) (self : Whisperer) (a b : Z) (w : World) :
  0 <= a -> 0 <= b ->
  add_range_token os self (str_int a +:+ "-" +:+ str_int b) w =
  (Ok (add_issue_id_range self (py_range a (b + 1))), w).
Proof.
  intros Ha Hb. unfold add_range_token.
  rewrite (range_token_no_all a b Ha Hb), (range_token_no_last a b Ha Hb).
  now apply expand_issue_range_numerals.
Qed.

Lemma sorted_empty : sorted ∅ = [].
Proof. unfold sorted. now rewrite elements_empty. Qed.

Lemma download_empty (os : Platform) (self : Whisperer) (w : World) :
  _download_queue self = ∅ -> download os self w = (Ok tt, w).
Proof. intros E. unfold download. now rewrite E, sorted_empty. Qed.

(** C1. A token [a-b] of two numerals adds exactly the integers from [a]
    to [b] to the download queue and touches nothing else; when [b < a] it
    adds nothing, and a run on that token alone downloads nothing, prints
    [All Done!] and ends with status 0. *)
Theorem range_token_adds_interval (os : Platform) (a b : Z) :
  0 <= a -> 0 <= b ->
  (forall (self : Whisperer) (world : World),
     exists self' : Whisperer,
       add_range_token os self (str_int a +:+ "-" +:+ str_int b) world = (Ok self', world) /\
       self' = with_queue self (_download_queue self') /\
       (forall x : Z, x ∈ _download_queue self' <-> x ∈ _download_queue self \/ a <= x <= b) /\
       (b < a -> self' = self)) /\
  (b < a ->
   forall (options : Options) (world : World),
     range options = str_int a +:+ "-" +:+ str_int b ->
     isdir os (abspath os (directory options)) = true ->
     main os options world =
       (Ok tt, mkWorld (files world) (stdin world) (stdout world ++ ["All Done!"])
                 (stderr world) (requests world)) /\
     exit_status (fst (main os options world)) = 0).
Proof.
  intros Ha Hb. split.
  - intros self world. exists (add_issue_id_range self (py_range a (b + 1))).
    split; [now apply add_range_token_numerals|].
    split; [reflexivity|]. split.
    + intros x. rewrite elem_of_add_issue_id_range, elem_of_py_range.
      intuition lia.
    + intros Hlt. rewrite py_range_empty by lia. apply add_issue_id_range_nil.
  - intros Hlt options world Hrange Hdir.
    assert (Hrun : main os options world =
       (Ok tt, mkWorld (files world) (stdin world) (stdout world ++ ["All Done!"])
                 (stderr world) (requests world))).
    { rewrite main_after_init by exact Hdir.
      rewrite Hrange, (range_token_no_comma a b Ha Hb).
      erewrite bind_ok; cycle 1.
      { cbn [add_range_tokens]. erewrite bind_ok; [reflexivity|].
        now apply add_range_token_numerals. }
      rewrite py_range_empty by lia. rewrite add_issue_id_range_nil.
      erewrite bind_ok; [reflexivity|]. now apply download_empty. }
    rewrite Hrun. split; reflexivity.
Qed.

Lemma range_token_adds_interval_witness :
  (forall (self : Whisperer) (world : World),
     exists self' : Whisperer,
       add_range_token Demo.platform self (str_int 3 +:+ "-" +:+ str_int 1) world = (Ok self', world) /\
       self' = with_queue self (_download_queue self') /\
       (forall x : Z, x ∈ _download_queue self' <-> x ∈ _download_queue self \/ 3 <= x <= 1) /\
       (1 < 3 -> self' = self)) /\
  (1 < 3 ->
   forall (options : Options) (world : World),
     range options = str_int 3 +:+ "-" +:+ str_int 1 ->
     isdir Demo.platform (abspath Demo.platform (directory options)) = true ->
     main Demo.platform options world =
       (Ok tt, mkWorld (files world) (stdin world) (stdout world ++ ["All Done!"])
                 (stderr world) (requests world)) /\
     exit_status (fst (main Demo.platform options world)) = 0).
Proof. apply (range_token_adds_interval Demo.platform 3 1); lia. Defined.

Example range_3_1_run :
  main Demo.platform (mkOptions "/tmp/x" false false "3-1") (Demo.empty_world []) =
  (Ok tt, mkWorld ∅ [] ["All Done!"] [] []).
Proof. vm_compute. reflexivity. Qed.

Example range_2_4_queue :
  forall self w,
    _download_queue self = ∅ ->
    exists self', add_range_token Demo.platform self "2-4" w = (Ok self', w) /\
                  sorted (_download_queue self') = [2; 3; 4].
Proof.
  intros self w E. eexists. split.
  - apply (add_range_token_numerals Demo.platform self 2 4); lia.
  - cbn. rewrite E. vm_compute. reflexivity.
Qed.

(* ================================================================== *)
(** ** The latest-issue resolver *)
(* ================================================================== *)

Lemma take_digits_digits (s : string) : all_chars is_digit (Regex.take_digits s) = true.
Proof.
  induction s as [|c s IH]; [reflexivity|].
  cbn [Regex.take_digits]. destruct (is_digit c) eqn:E; [|reflexivity].
  cbn [all_chars]. now rewrite E, IH.
Qed.

Lemma match_here_digits (prefix s ds : string) :
  Regex.match_here prefix s = Some ds -> ds <> "" /\ all_chars is_digit ds = true.
Proof.
  unfold Regex.match_here.
  destruct (Regex.match_atoms _ s) as [rest|]; [|discriminate].
  pose proof (take_digits_digits rest) as Hd.
  destruct (Regex.take_digits rest) as [|c r]; [discriminate|].
  intros [= <-]. split; [discriminate | exact Hd].
Qed.

Lemma search_digits (prefix s ds : string) :
  Regex.search_digits_after prefix s = Some ds -> ds <> "" /\ all_chars is_digit ds = true.
Proof.
  induction s as [|c s IH]; cbn [Regex.search_digits_after];
    destruct (Regex.match_here prefix _) as [ds'|] eqn:E; try discriminate.
  - intros [= <-]. now apply (match_here_digits prefix "").
  - intros [= <-]. now apply (match_here_digits prefix (String c s)).
  - exact IH.
Qed.

Lemma with_cache_same (self : Whisperer) : with_cache self (_last_issue_id_cache self) = self.
Proof. now destruct self. Qed.

Lemma get_last_issue_id_cached (os : Platform) (self : Whisperer) (w : World) (v : Z) :
  _last_issue_id_cache self = Some v ->
  _get_last_issue_id os self w = (Ok (Some v, self), w).
Proof. intros E. unfold _get_last_issue_id. now rewrite E. Qed.

(** A call with an empty cache whose index page matches the pattern. *)
Lemma get_last_issue_id_found (os : Platform) (self : Whisperer) (w : World)
    (body : list Byte.byte) (cl : option string) (ds : string) :
  _last_issue_id_cache self = None ->
  urlopen os (requests w) issues_url = Response body cl ->
  Regex.search_digits_after issue_pattern_prefix (PyBytes.str_bytes body) = Some ds ->
  _get_last_issue_id os self w =
  (Ok (Some (digits_value 10 0 ds), with_cache self (Some (digits_value 10 0 ds))),
   index_requested w).
Proof.
  intros Hcache Hresp Hfound. unfold _get_last_issue_id. rewrite Hcache.
  unfold bind at 1. cbn [print].
  unfold bind at 1, _fetch_url_content. cbn [requests files stdin stdout stderr].
  rewrite Hresp. cbn [fst]. rewrite Hfound.
  destruct (search_digits _ _ _ Hfound) as [Hne Hds].
  unfold bind, int. rewrite (int_of_str_numeral ds Hne Hds). reflexivity.
Qed.

(** A call with an empty cache whose index page does not match. *)
Lemma get_last_issue_id_not_found (os : Platform) (self : Whisperer) (w : World)
    (body : list Byte.byte) (cl : option string) :
  _last_issue_id_cache self = None ->
  urlopen os (requests w) issues_url = Response body cl ->
  Regex.search_digits_after issue_pattern_prefix (PyBytes.str_bytes body) = None ->
  _get_last_issue_id os self w =
  (Ok (None, self),
   mkWorld (files w) (stdin w) (stdout w ++ ["Fetching latest issue ID..."])
     (stderr w ++ ["Error: Can't find last issue ID"]) (requests w ++ [issues_url])).
Proof.
  intros Hcache Hresp Hnone. unfold _get_last_issue_id. rewrite Hcache.
  unfold bind at 1. cbn [print].
  unfold bind at 1, _fetch_url_content. cbn [requests files stdin stdout stderr].
  rewrite Hresp. cbn [fst]. rewrite Hnone.
  reflexivity.
Qed.

(** Whatever the index request does, it is made when the cache is empty. *)
Lemma get_last_issue_id_requests (os : Platform) (self : Whisperer) (w : World) :
  _last_issue_id_cache self = None ->
  requests (snd (_get_last_issue_id os self w)) = requests w ++ [issues_url].
Proof.
  intros Hcache. unfold _get_last_issue_id. rewrite Hcache.
  unfold bind at 1. cbn [print].
  unfold bind at 1, _fetch_url_content. cbn [requests files stdin stdout stderr].
  destruct (urlopen os (requests w) issues_url) as [body cl|code reason|[msg|cls]|cls];
    try reflexivity.
  cbn [fst].
  destruct (Regex.search_digits_after _ _) as [ds|] eqn:Hs; [|reflexivity].
  destruct (search_digits _ _ _ Hs) as [Hne Hds].
  unfold bind, int. now rewrite (int_of_str_numeral ds Hne Hds).
Qed.

(** Every way a call of the resolver can return. *)
Lemma get_last_issue_id_returns (os : Platform) (self : Whisperer) (w : World)
    (res : option Z) (self' : Whisperer) (w' : World) :
  _get_last_issue_id os self w = (Ok (res, self'), w') ->
  (exists v, _last_issue_id_cache self = Some v /\ res = Some v /\ self' = self /\ w' = w) \/
  (_last_issue_id_cache self = None /\
   exists ds, ds <> "" /\ all_chars is_digit ds = true /\
              res = Some (digits_value 10 0 ds) /\ self' = with_cache self res /\
              w' = index_requested w) \/
  (_last_issue_id_cache self = None /\ res = None /\ self' = self /\
   files w' = files w /\ stdin w' = stdin w /\ requests w' = requests w ++ [issues_url]).
Proof.
  destruct (_last_issue_id_cache self) as [v|] eqn:Hcache.
  - rewrite (get_last_issue_id_cached os self w v Hcache). intros [= <- <- <-].
    left. now exists v.
  - destruct (urlopen os (requests w) issues_url) as [body cl|code reason|[msg|cls]|cls] eqn:Hresp.
    + destruct (Regex.search_digits_after issue_pattern_prefix (PyBytes.str_bytes body))
        as [ds|] eqn:Hs.
      * rewrite (get_last_issue_id_found os self w body cl ds Hcache Hresp Hs).
        intros [= <- <- <-]. right. left. split; [reflexivity|].
        destruct (search_digits _ _ _ Hs) as [Hne Hds]. now exists ds.
      * rewrite (get_last_issue_id_not_found os self w body cl Hcache Hresp Hs).
        intros [= <- <- <-]. right. right. now repeat split.
    + unfold _get_last_issue_id. rewrite Hcache. unfold bind at 1. cbn [print].
      unfold bind at 1, _fetch_url_content. cbn [requests files stdin stdout stderr].
      rewrite Hresp. discriminate.
    + unfold _get_last_issue_id. rewrite Hcache. unfold bind at 1. cbn [print].
      unfold bind at 1, _fetch_url_content. cbn [requests files stdin stdout stderr].
      rewrite Hresp. discriminate.
    + unfold _get_last_issue_id. rewrite Hcache. unfold bind at 1. cbn [print].
      unfold bind at 1, _fetch_url_content. cbn [requests files stdin stdout stderr].
      rewrite Hresp. discriminate.
    + unfold _get_last_issue_id. rewrite Hcache. unfold bind at 1. cbn [print].
      unfold bind at 1, _fetch_url_content. cbn [requests files stdin stdout stderr].
      rewrite Hresp. discriminate.
Qed.

(** C8. When a call of the resolver returns, the cache holds what it
    returned.  After a success every later call, in any later state of the
    world, returns the same integer and leaves the world as it is: no
    request is made.  After a failure (the pattern is not found) the object
    is unchanged, the cache is still empty, and a later call requests the
    index page again. *)
Theorem last_issue_id_cache_behaviour (os : Platform) (self self' : Whisperer)
    (w w' : World) (res : option Z) :
  _get_last_issue_id os self w = (Ok (res, self'), w') ->
  _last_issue_id_cache self' = res /\
  match res with
  | Some latest =>
      forall later : World,
        _get_last_issue_id os self' later = (Ok (Some latest, self'), later)
  | None =>
      self' = self /\
      requests w' = requests w ++ [issues_url] /\
      forall later : World,
        requests (snd (_get_last_issue_id os self' later)) = requests later ++ [issues_url]
  end.
Proof.
  intros Hrun.
  destruct (get_last_issue_id_returns os self w res self' w' Hrun)
    as [(v & Hc & -> & -> & ->) | [(Hc & ds & _ & _ & -> & -> & ->) |
        (Hc & -> & -> & _ & _ & Hreq)]].
  - split; [exact Hc|]. intros later. now apply get_last_issue_id_cached.
  - split; [reflexivity|]. intros later. now apply get_last_issue_id_cached.
  - split; [exact Hc|]. split; [reflexivity|]. split; [exact Hreq|].
    intros later. now apply get_last_issue_id_requests.
Qed.

Lemma last_issue_id_cache_behaviour_witness :
  let self := fresh_whisperer Demo.platform (mkOptions "/tmp/x" false false "all") in
  let self' := with_cache self (Some 3) in
  _last_issue_id_cache self' = Some 3 /\
  forall later : World,
    _get_last_issue_id Demo.platform self' later = (Ok (Some 3, self'), later).
Proof.
  intros self self'.
  apply (last_issue_id_cache_behaviour Demo.platform self self'
           (Demo.empty_world []) (index_requested (Demo.empty_world [])) (Some 3)).
  vm_compute. reflexivity.
Defined.

(** A page without the pattern: nothing is cached and the next call asks
    the server again. *)
Example resolver_retries_after_failure :
  let os := Demo.platform_with (fun _ _ => Response (PyBytes.bytes_of_str "no issues here") None) in
  let self := fresh_whisperer os (mkOptions "/tmp/x" false false "last") in
  let w1 := mkWorld ∅ [] [fetching_line] ["Error: Can't find last issue ID"] [issues_url] in
  let w2 := mkWorld ∅ [] [fetching_line; fetching_line]
              ["Error: Can't find last issue ID"; "Error: Can't find last issue ID"]
              [issues_url; issues_url] in
  _get_last_issue_id os self (Demo.empty_world []) = (Ok (None, self), w1) /\
  _get_last_issue_id os self w1 = (Ok (None, self), w2).
Proof. split; vm_compute; reflexivity. Qed.

(* ================================================================== *)
(** ** The keyword [all] *)
(* ================================================================== *)

Lemma fresh_cache_valid (os : Platform) (options : Options) :
  cache_valid (fresh_whisperer os options).
Proof. intros v. discriminate. Qed.

Lemma with_queue_cache_valid (self : Whisperer) (queue : gset Z) :
  cache_valid self -> cache_valid (with_queue self queue).
Proof. intros H v. apply H. Qed.

Lemma get_last_issue_id_valid (os : Platform) (self self' : Whisperer) (w w' : World)
    (res : option Z) :
  cache_valid self ->
  _get_last_issue_id os self w = (Ok (res, self'), w') ->
  cache_valid self' /\ self' = with_cache self res /\
  (forall latest, res = Some latest -> 0 <= latest).
Proof.
  intros Hvalid Hrun.
  destruct (get_last_issue_id_returns os self w res self' w' Hrun)
    as [(v & Hc & -> & -> & ->) | [(Hc & ds & _ & Hds & -> & -> & ->) |
        (Hc & -> & -> & _)]].
  - split; [exact Hvalid|]. split; [now rewrite <- Hc, with_cache_same|].
    intros latest [= <-]. now apply Hvalid.
  - assert (0 <= digits_value 10 0 ds) by (apply digits_value_nonneg; [lia|exact Hds]).
    split; [now intros v [= <-]|]. split; [reflexivity|]. now intros latest [= <-].
  - split; [exact Hvalid|]. split; [now rewrite <- Hc, with_cache_same|]. discriminate.
Qed.

(** C2. When the token is exactly [all] and the resolver returns the
    latest id [latest], the token adds exactly the integers from
    [FIRST_ISSUE_ID] = 1 to [latest] to the download queue; apart from the
    queue and the cache the object is unchanged, and the world is the one
    the resolver left. *)
Theorem all_token_adds_first_to_latest (os : Platform) (self resolved : Whisperer)
    (w w' : World) (latest : Z) :
  cache_valid self ->
  _get_last_issue_id os self w = (Ok (Some latest, resolved), w') ->
  exists self' : Whisperer,
    add_range_token os self "all" w = (Ok self', w') /\
    self' = with_queue (with_cache self (Some latest)) (_download_queue self') /\
    FIRST_ISSUE_ID = 1 /\
    forall x : Z,
      x ∈ _download_queue self' <-> x ∈ _download_queue self \/ FIRST_ISSUE_ID <= x <= latest.
Proof.
  intros Hvalid Hrun.
  destruct (get_last_issue_id_valid os self resolved w w' _ Hvalid Hrun)
    as (_ & -> & Hpos).
  specialize (Hpos latest eq_refl).
  exists (add_issue_id_range (with_cache self (Some latest)) (py_range 1 (latest + 1))).
  split; [|split; [reflexivity|split; [reflexivity|]]].
  - unfold add_range_token.
    change (contains "all" "all") with true. change (String.eqb "all" "all") with true.
    cbn match. erewrite bind_ok; [|exact Hrun].
    apply (expand_issue_range_numerals _ 1 latest); lia.
  - intros x. rewrite elem_of_add_issue_id_range, elem_of_py_range.
    unfold FIRST_ISSUE_ID. cbn [_download_queue with_cache]. intuition lia.
Qed.

Lemma all_token_adds_first_to_latest_witness :
  let self := fresh_whisperer Demo.platform (mkOptions "/tmp/x" false false "all") in
  exists self' : Whisperer,
    add_range_token Demo.platform self "all" (Demo.empty_world []) =
      (Ok self', index_requested (Demo.empty_world [])) /\
    self' = with_queue (with_cache self (Some 3)) (_download_queue self') /\
    FIRST_ISSUE_ID = 1 /\
    forall x : Z,
      x ∈ _download_queue self' <-> x ∈ _download_queue self \/ FIRST_ISSUE_ID <= x <= 3.
Proof.
  intros self.
  apply (all_token_adds_first_to_latest Demo.platform self (with_cache self (Some 3))
           (Demo.empty_world []) (index_requested (Demo.empty_world [])) 3).
  - intros v Hv. discriminate Hv.
  - vm_compute. reflexivity.
Defined.

(* ================================================================== *)
(** ** What the expansion of the range list can do to the world *)
(* ================================================================== *)

Lemma prelude_refl (w : World) : prelude w w.
Proof.
  split; try reflexivity; exists []; rewrite ?app_nil_r; auto.
Qed.

Lemma prelude_trans (w1 w2 w3 : World) : prelude w1 w2 -> prelude w2 w3 -> prelude w1 w3.
Proof.
  intros [Hf1 Hi1 (r1 & Hr1 & Fr1) (o1 & Ho1 & Fo1) (e1 & He1)]
         [Hf2 Hi2 (r2 & Hr2 & Fr2) (o2 & Ho2 & Fo2) (e2 & He2)].
  split.
  - congruence.
  - congruence.
  - exists (r1 ++ r2). split; [now rewrite Hr2, Hr1, app_assoc | now apply Forall_app].
  - exists (o1 ++ o2). split; [now rewrite Ho2, Ho1, app_assoc | now apply Forall_app].
  - exists (e1 ++ e2). now rewrite He2, He1, app_assoc.
Qed.

Lemma reported_after (e : exn) (w1 w2 w3 : World) :
  prelude w1 w2 -> reported e w2 w3 -> reported e w1 w3.
Proof.
  intros [_ _ _ _ (e1 & He1)]. destruct e; try exact (fun H => H).
  intros (Hcode & errs & Hne & Herrs). split; [exact Hcode|].
  exists (e1 ++ errs). split.
  - destruct e1; [exact Hne | discriminate].
  - now rewrite Herrs, He1, app_assoc.
Qed.

Lemma not_exit_reported (e : exn) (w w' : World) : not_exit e -> reported e w w'.
Proof. now destruct e. Qed.

(** What one request does to the world, whatever its outcome. *)
Lemma fetch_url_content_effect (os : Platform) (url : string) (w w' : World)
    (r : result (list Byte.byte * option string)) :
  _fetch_url_content os url w = (r, w') ->
  files w' = files w /\ stdin w' = stdin w /\ stdout w' = stdout w /\
  requests w' = requests w ++ [url] /\
  (exists errs, stderr w' = stderr w ++ errs) /\
  (forall e, r = Raise e -> not_exit e).
Proof.
  unfold _fetch_url_content.
  destruct (urlopen os (requests w) url) as [body cl|code reason|[msg|cls]|cls];
    intros [= <- <-]; cbn; repeat split; eauto;
    try (exists []; now rewrite app_nil_r);
    try (intros e [= <-]; exact I); discriminate.
Qed.

Lemma get_last_issue_id_effect (os : Platform) (self : Whisperer) (w w' : World)
    (r : result (option Z * Whisperer)) :
  _get_last_issue_id os self w = (r, w') ->
  prelude w w' /\ (forall e, r = Raise e -> not_exit e).
Proof.
  unfold _get_last_issue_id.
  destruct (_last_issue_id_cache self) as [v|].
  { intros [= <- <-]. split; [apply prelude_refl | discriminate]. }
  unfold bind at 1. cbn [print].
  unfold bind at 1.
  destruct (_fetch_url_content os issues_url _) as [[fetched|e] w1] eqn:Hfetch;
    apply fetch_url_content_effect in Hfetch as (Hf & Hi & Ho & Hr & (errs & He) & Hexn);
    cbn [files stdin stdout stderr requests] in *.
  - assert (Hpre : prelude w w1).
    { split; try assumption.
      - exists [issues_url]. split; [exact Hr | now constructor].
      - exists [fetching_line]. split; [exact Ho | now constructor].
      - now exists errs. }
    destruct (Regex.search_digits_after _ _) as [ds|] eqn:Hs.
    + destruct (search_digits _ _ _ Hs) as [Hne Hds].
      unfold bind, int. rewrite (int_of_str_numeral ds Hne Hds).
      intros [= <- <-]. split; [exact Hpre | discriminate].
    + intros [= <- <-]. split; [|discriminate].
      apply (prelude_trans _ w1); [exact Hpre|].
      split; try reflexivity; cbn.
      * exists []. now rewrite app_nil_r.
      * exists []. now rewrite app_nil_r.
      * now eexists.
  - intros [= <- <-]. split.
    + split; try assumption.
      * exists [issues_url]. split; [exact Hr | now constructor].
      * exists [fetching_line]. split; [exact Ho | now constructor].
      * now exists errs.
    + intros e' [= <-]. now apply Hexn.
Qed.

Lemma expand_issue_range_effect (self : Whisperer) (issue_range : string) (w w' : World)
    (r : result Whisperer) :
  expand_issue_range self issue_range w = (r, w') ->
  w' = w /\ (forall e, r = Raise e -> not_exit e).
Proof.
  unfold expand_issue_range, bind, unpack2, int, ret, raise.
  destruct (contains "-" issue_range).
  - destruct (split "-" issue_range) as [|p1 [|p2 [|p3 ps]]];
      try (intros [= <- <-]; split; [reflexivity | now intros e [= <-]]).
    cbn [fst snd].
    destruct (int_of_str p1); [|intros [= <- <-]; split; [reflexivity | now intros e [= <-]]].
    destruct (int_of_str p2); intros [= <- <-]; split; try reflexivity;
      [discriminate | now intros e [= <-]].
  - destruct (int_of_str issue_range); intros [= <- <-]; split; try reflexivity;
      [discriminate | now intros e [= <-]].
Qed.

Lemma add_range_token_effect (os : Platform) (self : Whisperer) (issue_range : string)
    (w w' : World) (r : result Whisperer) :
  add_range_token os self issue_range w = (r, w') ->
  prelude w w' /\ (forall e, r = Raise e -> reported e w w').
Proof.
  assert (Hresolved : forall rest : option Z -> string,
    (let* resolved := _get_last_issue_id os self in
     let '(last_issue_id, whisperer) := resolved in
     expand_issue_range whisperer (rest last_issue_id)) w = (r, w') ->
    prelude w w' /\ (forall e, r = Raise e -> reported e w w')).
  { intros rest. unfold bind at 1.
    destruct (_get_last_issue_id os self w) as [[[latest self1]|e] w1] eqn:Hres;
      apply get_last_issue_id_effect in Hres as [Hpre Hexn].
    - intros [-> Hexp]%expand_issue_range_effect. split; [exact Hpre|].
      intros e He. apply not_exit_reported. now apply Hexp.
    - intros [= <- <-]. split; [exact Hpre|].
      intros e' [= <-]. apply not_exit_reported. now apply Hexn. }
  unfold add_range_token.
  destruct (contains "all" issue_range).
  - destruct (String.eqb "all" issue_range).
    + apply (Hresolved (fun latest => str_int FIRST_ISSUE_ID +:+ "-" +:+ str_opt_int latest)).
    + intros [= <- <-]. split.
      * split; try reflexivity; cbn.
        -- exists []. now rewrite app_nil_r.
        -- exists []. now rewrite app_nil_r.
        -- now eexists.
      * intros e [= <-]. split; [lia|]. cbn. eexists. split; [|reflexivity]. discriminate.
  - destruct (contains "last" issue_range).
    + apply (Hresolved (fun latest => replace "last" (str_opt_int latest) issue_range)).
    + intros [-> Hexp]%expand_issue_range_effect. split; [apply prelude_refl|].
      intros e He. apply not_exit_reported. now apply Hexp.
Qed.

(** A list of tokens that holds a misuse of [all] never expands to the
    end. *)
Lemma add_range_tokens_misuse (os : Platform) (before after : list string) (tok : string)
    (self : Whisperer) (w w' : World) (r : result Whisperer) :
  contains "all" tok = true -> tok <> "all" ->
  add_range_tokens os self (before ++ tok :: after) w = (r, w') ->
  exists e, r = Raise e /\ prelude w w' /\ reported e w w'.
Proof.
  intros Hall Hne. revert self w.
  induction before as [|first before IH]; intros self w.
  - cbn [app add_range_tokens]. unfold bind.
    destruct (add_range_token os self tok w) as [[self1|e] w1] eqn:Htok.
    + exfalso. revert Htok. unfold add_range_token. rewrite Hall.
      destruct (String.eqb_spec "all" tok) as [<-|_]; [congruence | discriminate].
    + apply add_range_token_effect in Htok as [Hpre Hexn].
      intros [= <- <-]. exists e. auto.
  - cbn [app add_range_tokens]. unfold bind.
    destruct (add_range_token os self first w) as [[self1|e] w1] eqn:Hfirst;
      apply add_range_token_effect in Hfirst as [Hpre Hexn].
    + intros Hrest. destruct (IH _ _ Hrest) as (e & -> & Hpre' & Hrep).
      exists e. split; [reflexivity|]. split.
      * now apply (prelude_trans _ w1).
      * now apply (reported_after _ _ w1).
    + intros [= <- <-]. exists e. auto.
Qed.

(** C3. A token that holds [all] without being [all] prints the error on
    the error stream and raises [SystemExit(1)] on the spot; and a run
    whose range list holds such a token ends with a non-zero status and
    something on the error stream, having written no file, read no input,
    requested nothing but the index page and printed nothing but the
    announcement of that request: [download()] is never entered. *)
Theorem all_inside_token_aborts (os : Platform) (options : Options) (world : World)
    (tok : string) :
  tok ∈ split "," (range options) ->
  contains "all" tok = true ->
  tok <> "all" ->
  (forall (self : Whisperer) (w : World),
     add_range_token os self tok w =
     (Raise (SystemExit 1),
      mkWorld (files w) (stdin w) (stdout w)
        (stderr w ++ ["Error: 'all' cannot be used as part of a range"]) (requests w))) /\
  exists (code : Z) (world' : World),
    run_script os options world = (code, world') /\
    code <> 0 /\
    (exists errs, errs <> [] /\ stderr world' = stderr world ++ errs) /\
    files world' = files world /\
    stdin world' = stdin world /\
    (exists reqs, requests world' = requests world ++ reqs /\ Forall (eq issues_url) reqs) /\
    (exists out, stdout world' = stdout world ++ out /\ Forall (eq fetching_line) out).
Proof.
  intros [before [after Hsplit]]%list_elem_of_split Hall Hne. split.
  { intros self w. unfold add_range_token. rewrite Hall.
    destruct (String.eqb_spec "all" tok) as [<-|_]; [congruence | reflexivity]. }
  unfold run_script.
  destruct (isdir os (abspath os (directory options))) eqn:Hdir.
  - rewrite main_after_init by exact Hdir. rewrite Hsplit. unfold bind at 1.
    destruct (add_range_tokens os _ _ world) as [r w'] eqn:Hrun.
    destruct (add_range_tokens_misuse os before after tok _ _ _ _ Hall Hne Hrun)
      as (e & -> & [Hf Hi Hr Ho (errs & He)] & Hrep).
    destruct e; cbn [reported] in Hrep;
      try (eexists _, _; split; [reflexivity|];
           cbn [files stdin stdout stderr requests exit_status];
           split; [lia|]; split;
           [eexists; split; [|rewrite He, <- app_assoc; reflexivity]; now destruct errs
           |auto]).
    destruct Hrep as (Hcode & errs' & Hne' & He').
    eexists _, _. split; [reflexivity|]. split; [exact Hcode|].
    split; [now exists errs' | auto].
  - unfold main. unfold bind at 1.
    erewrite try_except_caught; [|now apply init_no_directory|reflexivity].
    eexists _, _. split; [reflexivity|].
    cbn [files stdin stdout stderr requests eprint bind exit raise].
    split; [lia|]. split; [eexists; split; [|reflexivity]; discriminate|].
    split; [reflexivity|]. split; [reflexivity|].
    split; exists []; now rewrite app_nil_r.
Qed.

Lemma all_inside_token_aborts_witness :
  let options := mkOptions "/tmp/x" true false "2,all-20" in
  let world := Demo.empty_world [] in
  (forall (self : Whisperer) (w : World),
     add_range_token Demo.platform self "all-20" w =
     (Raise (SystemExit 1),
      mkWorld (files w) (stdin w) (stdout w)
        (stderr w ++ ["Error: 'all' cannot be used as part of a range"]) (requests w))) /\
  exists (code : Z) (world' : World),
    run_script Demo.platform options world = (code, world') /\
    code <> 0 /\
    (exists errs, errs <> [] /\ stderr world' = stderr world ++ errs) /\
    files world' = files world /\
    stdin world' = stdin world /\
    (exists reqs, requests world' = requests world ++ reqs /\ Forall (eq issues_url) reqs) /\
    (exists out, stdout world' = stdout world ++ out /\ Forall (eq fetching_line) out).
Proof.
  intros options world.
  apply (all_inside_token_aborts Demo.platform options world "all-20").
  - vm_compute. apply list_elem_of_further, list_elem_of_here.
  - reflexivity.
  - discriminate.
Defined.

Example all_20_run :
  run_script Demo.platform (mkOptions "/tmp/x" true false "2,all-20") (Demo.empty_world []) =
  (1, mkWorld ∅ [] [] ["Error: 'all' cannot be used as part of a range"] []) /\
  run_script Demo.platform (mkOptions "/tmp/x" true false "x,all-20") (Demo.empty_world []) =
  (1, mkWorld ∅ [] [] ["Traceback (most recent call last): ValueError"] []).
Proof. split; vm_compute; reflexivity. Qed.

(* ================================================================== *)
(** ** Downloading one issue *)
(* ================================================================== *)

Section OneIssue.

Context (os : Platform) (self : Whisperer) (issue_id : Z).

Local Abbreviation url := (_generate_issue_url issue_id).
Local Abbreviation out_path := (issue_out_path os self issue_id).
Local Abbreviation save w :=
  (fetch_and_save os issue_id url (issue_filename issue_id) out_path w).

(** Whatever happens after the check, the request is made, once. *)
Lemma fetch_and_save_requests (w : World) :
  requests (snd (save w)) = requests w ++ [url].
Proof.
  unfold fetch_and_save.
  unfold bind at 1. cbn [print]. unfold bind at 1.
  destruct (_fetch_url_content os url _) as [[data|e] w1] eqn:Hfetch;
    apply fetch_url_content_effect in Hfetch as (_ & _ & _ & Hr & _);
    cbn [requests] in Hr; [|exact Hr].
  unfold bind at 1, open_wb.
  destruct (open_denied os out_path); [exact Hr|].
  cbn [set_file]. unfold bind at 1, int_header, int.
  destruct (snd data) as [cl|]; [|exact Hr].
  destruct (int_of_str cl) as [n|]; [|exact Hr].
  unfold ret at 1. cbv beta iota. unfold bind at 1, _bytes_to_megabytes.
  destruct (truediv os n 1000000); exact Hr.
Qed.

(** The files after a request that did not fail: only the target can
    have changed. *)
Lemma fetch_and_save_other_files (w : World) (path : string) :
  path <> out_path -> files (snd (save w)) !! path = files w !! path.
Proof.
  intros Hpath. unfold fetch_and_save.
  unfold bind at 1. cbn [print]. unfold bind at 1.
  destruct (_fetch_url_content os url _) as [[data|e] w1] eqn:Hfetch;
    apply fetch_url_content_effect in Hfetch as (Hf & _);
    cbn [files] in Hf; [|now rewrite <- Hf].
  unfold bind at 1, open_wb.
  destruct (open_denied os out_path); [now rewrite <- Hf|].
  cbn [set_file]. unfold bind at 1, int_header, int.
  destruct (snd data) as [cl|]; [|cbn; now rewrite lookup_insert_ne, Hf].
  destruct (int_of_str cl) as [n|]; [|cbn; now rewrite lookup_insert_ne, Hf].
  unfold ret at 1. cbv beta iota. unfold bind at 1, _bytes_to_megabytes.
  destruct (truediv os n 1000000); cbn; now rewrite ?lookup_insert_ne, Hf.
Qed.

(** The server answers with a length that [int()] reads and whose
    count of megabytes fits a float. *)
Lemma fetch_and_save_success (w : World) (body : list Byte.byte) (cl : string) (n : Z)
    (quotient : pyfloat os) :
  urlopen os (requests w) url = Response body (Some cl) ->
  int_of_str cl = Some n ->
  truediv os n 1000000 = Some quotient ->
  open_denied os out_path = false ->
  save w =
  (Ok tt,
   mkWorld (<[out_path := body]> (files w)) (stdin w)
     (stdout w ++ [downloading_line issue_id; success_line os quotient])
     (stderr w) (requests w ++ [url])).
Proof.
  intros Hresp Hint Hdiv Hopen. unfold fetch_and_save.
  unfold bind at 1. cbn [print]. unfold bind at 1, _fetch_url_content.
  cbn [requests files stdin stdout stderr]. rewrite Hresp.
  unfold bind at 1, open_wb. rewrite Hopen. cbn [set_file files stdin stdout stderr requests].
  unfold bind at 1, int_header, int. cbn [snd fst]. rewrite Hint.
  unfold ret at 1. cbv beta iota. unfold bind at 1, _bytes_to_megabytes. rewrite Hdiv.
  unfold ret, bind, set_file, print, success_line. cbn [files stdin stdout stderr requests].
  now rewrite insert_insert_eq, <- app_assoc.
Qed.

(** The server answers with a length that [int()] reads but whose count
    of megabytes is beyond the range of a float: line 84 raises after the
    file was opened, and the file is left empty. *)
Lemma fetch_and_save_overflow (w : World) (body : list Byte.byte) (cl : string) (n : Z) :
  urlopen os (requests w) url = Response body (Some cl) ->
  int_of_str cl = Some n ->
  truediv os n 1000000 = None ->
  open_denied os out_path = false ->
  save w =
  (Raise (OverflowError "integer division result too large for a float"),
   mkWorld (<[out_path := []]> (files w)) (stdin w)
     (stdout w ++ [downloading_line issue_id]) (stderr w) (requests w ++ [url])).
Proof.
  intros Hresp Hint Hdiv Hopen. unfold fetch_and_save.
  unfold bind at 1. cbn [print]. unfold bind at 1, _fetch_url_content.
  cbn [requests files stdin stdout stderr]. rewrite Hresp.
  unfold bind at 1, open_wb. rewrite Hopen. cbn [set_file files stdin stdout stderr requests].
  unfold bind at 1, int_header, int. cbn [snd fst]. rewrite Hint.
  unfold ret at 1. cbv beta iota. unfold bind at 1, _bytes_to_megabytes. rewrite Hdiv.
  reflexivity.
Qed.

(** The server answers without a length. *)
Lemma fetch_and_save_no_length (w : World) (body : list Byte.byte) :
  urlopen os (requests w) url = Response body None ->
  open_denied os out_path = false ->
  save w =
  (Raise (TypeError "int() argument must be a string, a bytes-like object or a real number, not 'NoneType'"),
   mkWorld (<[out_path := []]> (files w)) (stdin w)
     (stdout w ++ [downloading_line issue_id]) (stderr w) (requests w ++ [url])).
Proof.
  intros Hresp Hopen. unfold fetch_and_save.
  unfold bind at 1. cbn [print]. unfold bind at 1, _fetch_url_content.
  cbn [requests files stdin stdout stderr]. rewrite Hresp.
  unfold bind at 1, open_wb. rewrite Hopen. reflexivity.
Qed.

(** The overwrite flag, or no file in the way: straight to the request. *)
Lemma download_issue_direct (w : World) :
  _overwrite_without_confirmation self = true \/ files w !! out_path = None ->
  _download_issue os self issue_id w = save w.
Proof.
  intros Hdirect. unfold _download_issue, bind at 1, isfile.
  destruct Hdirect as [-> | Hnone]; [reflexivity|].
  rewrite Hnone.
  rewrite bool_decide_eq_false_2 by (intros [? ?]; discriminate).
  now rewrite andb_false_r.
Qed.

Lemma download_issue_skip (w : World) :
  _overwrite_without_confirmation self = false ->
  is_Some (files w !! out_path) ->
  _skip_existing_issues self = true ->
  _download_issue os self issue_id w = (Ok tt, add_stdout w [skipping_line issue_id]).
Proof.
  intros Hover Hfile Hskip. unfold _download_issue, bind at 1, isfile.
  rewrite bool_decide_eq_true_2 by exact Hfile.
  now rewrite Hover, Hskip.
Qed.

Lemma download_issue_ask (w : World) (answer : string) (rest : list string) :
  _overwrite_without_confirmation self = false ->
  is_Some (files w !! out_path) ->
  _skip_existing_issues self = false ->
  stdin w = answer :: rest ->
  _download_issue os self issue_id w =
  if String.eqb (lower answer) "y" then save (asked issue_id w rest)
  else (Ok tt, add_stdout (asked issue_id w rest) [skipping_line issue_id]).
Proof.
  intros Hover Hfile Hskip Hin. unfold _download_issue, bind at 1, isfile.
  rewrite bool_decide_eq_true_2 by exact Hfile.
  rewrite Hover, Hskip. cbn [negb andb].
  unfold bind at 1. cbn [print]. unfold bind at 1, input.
  cbn [files stdin stdout stderr requests]. rewrite Hin.
  unfold asked. rewrite <- app_assoc. cbn [app].
  now destruct (String.eqb (lower answer) "y").
Qed.

Lemma download_issue_eof (w : World) :
  _overwrite_without_confirmation self = false ->
  is_Some (files w !! out_path) ->
  _skip_existing_issues self = false ->
  stdin w = [] ->
  _download_issue os self issue_id w = (Raise EOFError, asked issue_id w []).
Proof.
  intros Hover Hfile Hskip Hin. unfold _download_issue, bind at 1, isfile.
  rewrite bool_decide_eq_true_2 by exact Hfile.
  rewrite Hover, Hskip. cbn [negb andb].
  unfold bind at 1. cbn [print]. unfold bind at 1, input.
  cbn [files stdin stdout stderr requests]. rewrite Hin.
  unfold asked. now rewrite <- app_assoc.
Qed.

(** Every call either leaves files and requests alone, or goes on to the
    request from a world with the same files and requests. *)
Lemma download_issue_cases (w : World) :
  (files (snd (_download_issue os self issue_id w)) = files w /\
   requests (snd (_download_issue os self issue_id w)) = requests w /\
   forall e, fst (_download_issue os self issue_id w) = Raise e -> e = EOFError) \/
  (exists w1, files w1 = files w /\ requests w1 = requests w /\
              _download_issue os self issue_id w = save w1).
Proof.
  destruct (_overwrite_without_confirmation self) eqn:Hover.
  { right. exists w. rewrite download_issue_direct by now left. auto. }
  destruct (files w !! out_path) as [old|] eqn:Hfile.
  2:{ right. exists w. rewrite download_issue_direct by now right. auto. }
  assert (Hsome : is_Some (files w !! out_path)) by now rewrite Hfile.
  destruct (_skip_existing_issues self) eqn:Hskip.
  { left. rewrite download_issue_skip by assumption. cbn. repeat split. discriminate. }
  destruct (stdin w) as [|answer rest] eqn:Hin.
  { left. rewrite download_issue_eof by assumption. cbn. repeat split. now intros e [= <-]. }
  rewrite (download_issue_ask w answer rest) by assumption.
  destruct (String.eqb (lower answer) "y").
  - right. now exists (asked issue_id w rest).
  - left. cbn. repeat split. discriminate.
Qed.

End OneIssue.

(** Only [y] and [Y] are affirmative answers. *)
Lemma lower_is_y (s : string) : String.eqb (lower s) "y" = true <-> s = "y" \/ s = "Y".
Proof.
  split.
  - rewrite String.eqb_eq. destruct s as [|c [|d s']]; cbn [lower]; try discriminate.
    intros [= H]. char_cases c; vm_compute in H; try discriminate H; auto.
  - intros [-> | ->]; reflexivity.
Qed.

(** C6. The target file exists and the overwrite flag is not set.  With
    the skip flag the call only prints that it skips the issue: the files
    and the list of requests are as before.  Without it the user is asked;
    the answer counts as affirmative exactly when it is [y] or [Y]; an
    affirmative answer goes on to the request, which is then made; any
    other answer only prints that it skips the issue, with the files and
    the list of requests as before. *)
Theorem existing_file_policy (os : Platform) (self : Whisperer) (issue_id : Z) (w : World) :
  _overwrite_without_confirmation self = false ->
  is_Some (files w !! issue_out_path os self issue_id) ->
  (_skip_existing_issues self = true ->
   _download_issue os self issue_id w =
   (Ok tt, mkWorld (files w) (stdin w) (stdout w ++ [skipping_line issue_id])
             (stderr w) (requests w))) /\
  (_skip_existing_issues self = false ->
   forall (answer : string) (rest : list string),
     stdin w = answer :: rest ->
     let prompted :=
       mkWorld (files w) rest (stdout w ++ [exists_line issue_id; overwrite_prompt])
         (stderr w) (requests w) in
     (String.eqb (lower answer) "y" = true <-> answer = "y" \/ answer = "Y") /\
     (answer = "y" \/ answer = "Y" ->
      _download_issue os self issue_id w =
        fetch_and_save os issue_id (_generate_issue_url issue_id)
          (issue_filename issue_id) (issue_out_path os self issue_id) prompted /\
      requests (snd (_download_issue os self issue_id w)) =
        requests w ++ [_generate_issue_url issue_id]) /\
     (answer <> "y" -> answer <> "Y" ->
      _download_issue os self issue_id w =
      (Ok tt, mkWorld (files w) rest
                (stdout w ++ [exists_line issue_id; overwrite_prompt; skipping_line issue_id])
                (stderr w) (requests w)))).
Proof.
  intros Hover Hfile. split.
  - intros Hskip. now apply download_issue_skip.
  - intros Hskip answer rest Hin prompted.
    pose proof (download_issue_ask os self issue_id w answer rest Hover Hfile Hskip Hin) as Hask.
    split; [apply lower_is_y|]. split.
    + intros Hyes. apply lower_is_y in Hyes. rewrite Hyes in Hask.
      split; [exact Hask|].
      rewrite Hask. apply (fetch_and_save_requests os self issue_id (asked issue_id w rest)).
    + intros Hy HY.
      destruct (String.eqb (lower answer) "y") eqn:Hans.
      * apply lower_is_y in Hans. tauto.
      * rewrite Hask. unfold add_stdout, asked. cbn [files stdin stdout stderr requests].
        now rewrite <- app_assoc.
Qed.

Lemma existing_file_policy_witness :
  let self := fresh_whisperer Demo.platform (mkOptions "/tmp/x" false false "2") in
  let w := mkWorld {["/tmp/x/DigitalWhisper2.pdf" := PyBytes.bytes_of_str "old"]}
             ["no"; "y"] [] [] [] in
  (_skip_existing_issues self = true ->
   _download_issue Demo.platform self 2 w =
   (Ok tt, mkWorld (files w) (stdin w) (stdout w ++ [skipping_line 2])
             (stderr w) (requests w))) /\
  (_skip_existing_issues self = false ->
   forall (answer : string) (rest : list string),
     stdin w = answer :: rest ->
     let prompted :=
       mkWorld (files w) rest (stdout w ++ [exists_line 2; overwrite_prompt])
         (stderr w) (requests w) in
     (String.eqb (lower answer) "y" = true <-> answer = "y" \/ answer = "Y") /\
     (answer = "y" \/ answer = "Y" ->
      _download_issue Demo.platform self 2 w =
        fetch_and_save Demo.platform 2 (_generate_issue_url 2)
          (issue_filename 2) (issue_out_path Demo.platform self 2) prompted /\
      requests (snd (_download_issue Demo.platform self 2 w)) =
        requests w ++ [_generate_issue_url 2]) /\
     (answer <> "y" -> answer <> "Y" ->
      _download_issue Demo.platform self 2 w =
      (Ok tt, mkWorld (files w) rest
                (stdout w ++ [exists_line 2; overwrite_prompt; skipping_line 2])
                (stderr w) (requests w)))).
Proof.
  intros self w.
  apply (existing_file_policy Demo.platform self 2 w).
  - reflexivity.
  - vm_compute. eexists. reflexivity.
Defined.

Example existing_file_answers :
  let self := fresh_whisperer Demo.platform (mkOptions "/tmp/x" false false "2") in
  let old := {["/tmp/x/DigitalWhisper2.pdf" := PyBytes.bytes_of_str "old"]} in
  _download_issue Demo.platform self 2 (mkWorld old ["no"] [] [] []) =
    (Ok tt, mkWorld old [] [exists_line 2; overwrite_prompt; skipping_line 2] [] []) /\
  _download_issue Demo.platform self 2 (mkWorld old ["Y"] [] [] []) =
    (Ok tt, mkWorld {["/tmp/x/DigitalWhisper2.pdf" := Demo.pdf 2]} []
              [exists_line 2; overwrite_prompt; downloading_line 2;
               "Download successful! (2.5 MB)"] [] [_generate_issue_url 2]) /\
  _download_issue Demo.platform self 2 (mkWorld old [" y"] [] [] []) =
    (Ok tt, mkWorld old [] [exists_line 2; overwrite_prompt; skipping_line 2] [] []).
Proof. repeat split; vm_compute; reflexivity. Qed.

(* ================================================================== *)
(** ** A response without a Content-Length header *)
(* ================================================================== *)

(** C10. The request of an issue succeeds but the response has no
    Content-Length header.  Whenever the call gets as far as the request
    (the issue is not skipped), it has opened the target for writing, which
    leaves an empty file there whatever was in it, and then raises
    [TypeError] from [int(None)] before anything is written: the target is
    empty, the body is not saved, and the handler of [download], which
    catches [URLError] only, lets the exception through. *)
Theorem missing_content_length_truncates (os : Platform) (self : Whisperer)
    (issue_id : Z) (w : World) (body : list Byte.byte) :
  urlopen os (requests w) (_generate_issue_url issue_id) = Response body None ->
  open_denied os (issue_out_path os self issue_id) = false ->
  requests (snd (_download_issue os self issue_id w)) <> requests w ->
  exists (msg : string) (w' : World),
    _download_issue os self issue_id w = (Raise (TypeError msg), w') /\
    files w' = <[issue_out_path os self issue_id := []]> (files w) /\
    files w' !! issue_out_path os self issue_id = Some [] /\
    requests w' = requests w ++ [_generate_issue_url issue_id] /\
    is_URLError (TypeError msg) = false /\
    forall handler : exn -> IO bool,
      try_except (_download_issue os self issue_id ;; ret true) is_URLError handler w =
      (Raise (TypeError msg), w').
Proof.
  intros Hresp Hopen Hrequested.
  destruct (download_issue_cases os self issue_id w)
    as [(_ & Hsame & _) | (w1 & Hf & Hr & Hrun)]; [contradiction|].
  rewrite <- Hr in Hresp.
  rewrite (fetch_and_save_no_length os self issue_id w1 body Hresp Hopen) in Hrun.
  eexists _, _. split; [exact Hrun|]. cbn [files requests].
  split; [now rewrite Hf|]. split; [apply lookup_insert_eq|].
  split; [now rewrite Hr|]. split; [reflexivity|].
  intros handler. eapply try_except_passed; [|reflexivity].
  now apply bind_raise.
Qed.

Lemma missing_content_length_truncates_witness :
  let os := Demo.platform_with (fun _ _ => Response (Demo.pdf 7) None) in
  let self := fresh_whisperer os (mkOptions "/tmp/x" true false "7") in
  let w := mkWorld {["/tmp/x/DigitalWhisper7.pdf" := PyBytes.bytes_of_str "an older copy"]}
             [] [] [] [] in
  exists (msg : string) (w' : World),
    _download_issue os self 7 w = (Raise (TypeError msg), w') /\
    files w' = <[issue_out_path os self 7 := []]> (files w) /\
    files w' !! issue_out_path os self 7 = Some [] /\
    requests w' = requests w ++ [_generate_issue_url 7] /\
    is_URLError (TypeError msg) = false /\
    forall handler : exn -> IO bool,
      try_except (_download_issue os self 7 ;; ret true) is_URLError handler w =
      (Raise (TypeError msg), w').
Proof.
  intros os self w.
  apply (missing_content_length_truncates os self 7 w (Demo.pdf 7)).
  - reflexivity.
  - reflexivity.
  - vm_compute. discriminate.
Defined.

(** C9, the case the code misses.  The server sends issue 7 without a
    Content-Length header, the overwrite flag is set and an older copy is on
    disk.  The request succeeds, yet the run ends with status 1 and a
    [TypeError] traceback; the older copy is gone, the file is empty, and
    neither a size nor [All Done!] is printed. *)
Theorem fetch_success_without_length_saves_nothing :
  let os := Demo.platform_with (fun _ _ => Response (Demo.pdf 7) None) in
  let w := mkWorld {["/tmp/x/DigitalWhisper7.pdf" := PyBytes.bytes_of_str "an older copy"]}
             [] [] [] [] in
  run_script os (mkOptions "/tmp/x" true false "7") w =
  (1, mkWorld {["/tmp/x/DigitalWhisper7.pdf" := []]} []
        [newline +:+ "Progress [1/1]"; downloading_line 7]
        ["Traceback (most recent call last): TypeError"]
        [_generate_issue_url 7]).
Proof. vm_compute. reflexivity. Qed.

(** With a header that [int()] reads, the same run saves the body over the
    older copy and reports the size computed from the header. *)
Example fetch_success_with_length_saves_body :
  let os := Demo.platform_with (fun _ _ => Response (Demo.pdf 7) (Some "2340000")) in
  let w := mkWorld {["/tmp/x/DigitalWhisper7.pdf" := PyBytes.bytes_of_str "an older copy"]}
             [] [] [] [] in
  run_script os (mkOptions "/tmp/x" true false "7") w =
  (0, mkWorld {["/tmp/x/DigitalWhisper7.pdf" := Demo.pdf 7]} []
        [newline +:+ "Progress [1/1]"; downloading_line 7;
         "Download successful! (2.34 MB)"; "All Done!"]
        [] [_generate_issue_url 7]).
Proof. vm_compute. reflexivity. Qed.

(* ================================================================== *)
(** ** A request that fails *)
(* ================================================================== *)

(** [urlopen] raises [URLError] around the [OSError] of a failed
    connection: the handler concatenates it to a [str], which raises. *)
Lemma fetch_url_error_object (os : Platform) (url cls : string) (w : World) :
  urlopen os (requests w) url = FailURL (ReasonExc cls) ->
  exists msg,
    _fetch_url_content os url w =
    (Raise (TypeError msg),
     mkWorld (files w) (stdin w) (stdout w) (stderr w) (requests w ++ [url])).
Proof. intros Hfail. unfold _fetch_url_content. rewrite Hfail. now eexists. Qed.

(** C7, the case the code misses.  Two issues are queued, the host name
    does not resolve, and the user would answer [n].  The failure is not
    reported, no question is asked (the answer is still unread), and the run
    ends with status 1 and a [TypeError] traceback instead of [All Done!]
    and status 0. *)
Theorem url_error_with_exception_reason_crashes :
  let os := Demo.platform_with (fun _ _ => FailURL (ReasonExc "socket.gaierror")) in
  run_script os (mkOptions "/tmp/x" true false "1,2") (Demo.empty_world ["n"]) =
  (1, mkWorld ∅ ["n"]
        [newline +:+ "Progress [1/2]"; downloading_line 1]
        ["Traceback (most recent call last): TypeError"]
        [_generate_issue_url 1]).
Proof. vm_compute. reflexivity. Qed.

(** The sibling path: an HTTP error, whose reason is a string.  The
    failure is reported, the question is asked, and after [n] the second
    issue is not tried; the run still prints [All Done!] and ends with
    status 0.  After [y] the second issue is tried. *)
Example http_error_asks_to_continue :
  let os := Demo.platform_with (fun _ _ => FailHTTP 404 "Not Found") in
  run_script os (mkOptions "/tmp/x" true false "1,2") (Demo.empty_world ["n"]) =
  (0, mkWorld ∅ []
        [newline +:+ "Progress [1/2]"; downloading_line 1;
         "Error while trying to fetch issue #1"; continue_prompt; "All Done!"]
        ["HTTP Error: 404 Not Found"]
        [_generate_issue_url 1]) /\
  run_script os (mkOptions "/tmp/x" true false "1,2") (Demo.empty_world ["Y"; "no"]) =
  (0, mkWorld ∅ []
        [newline +:+ "Progress [1/2]"; downloading_line 1;
         "Error while trying to fetch issue #1"; continue_prompt;
         newline +:+ "Progress [2/2]"; downloading_line 2;
         "Error while trying to fetch issue #2"; continue_prompt; "All Done!"]
        ["HTTP Error: 404 Not Found"; "HTTP Error: 404 Not Found"]
        [_generate_issue_url 1; _generate_issue_url 2]).
Proof. split; vm_compute; reflexivity. Qed.

(** An HTTP error on a request that is made without asking: the failure
    is reported, the question is asked, and the answer decides whether the
    rest of the queue is tried. *)
Lemma http_error_prompt (os : Platform) (self : Whisperer) (total counter issue_id : Z)
    (rest : list Z) (w : World) (code : Z) (reason answer : string) (more : list string) :
  _overwrite_without_confirmation self = true ->
  urlopen os (requests w) (_generate_issue_url issue_id) = FailHTTP code reason ->
  stdin w = answer :: more ->
  let w' :=
    mkWorld (files w) more
      (stdout w ++ [newline +:+ "Progress [" +:+ str_int (counter + 1) +:+ "/" +:+
                    str_int total +:+ "]";
                    downloading_line issue_id;
                    "Error while trying to fetch issue #" +:+ str_int issue_id;
                    continue_prompt])
      (stderr w ++ ["HTTP Error: " +:+ str_int code +:+ " " +:+ reason])
      (requests w ++ [_generate_issue_url issue_id]) in
  download_loop os self total counter (issue_id :: rest) w =
  if String.eqb (lower answer) "y"
  then download_loop os self total (counter + 1) rest w'
  else (Ok tt, w').
Proof.
  intros Hover Hfail Hin w'. cbn [download_loop].
  unfold bind at 1. cbn [print]. unfold bind at 1.
  erewrite try_except_caught; cycle 1.
  { eapply bind_raise. rewrite download_issue_direct by now left.
    unfold fetch_and_save. unfold bind at 1. cbn [print].
    eapply bind_raise. unfold _fetch_url_content.
    cbn [files stdin stdout stderr requests]. rewrite Hfail. reflexivity. }
  { reflexivity. }
  unfold bind at 1. cbn [print]. unfold bind at 1, input.
  cbn [files stdin stdout stderr requests]. rewrite Hin. unfold ret.
  subst w'. rewrite <- !app_assoc. cbn [app].
  now destruct (String.eqb (lower answer) "y").
Qed.

(** The same for a [URLError] whose reason is a string. *)
Lemma url_error_prompt (os : Platform) (self : Whisperer) (total counter issue_id : Z)
    (rest : list Z) (w : World) (reason answer : string) (more : list string) :
  _overwrite_without_confirmation self = true ->
  urlopen os (requests w) (_generate_issue_url issue_id) = FailURL (ReasonStr reason) ->
  stdin w = answer :: more ->
  let w' :=
    mkWorld (files w) more
      (stdout w ++ [newline +:+ "Progress [" +:+ str_int (counter + 1) +:+ "/" +:+
                    str_int total +:+ "]";
                    downloading_line issue_id;
                    "Error while trying to fetch issue #" +:+ str_int issue_id;
                    continue_prompt])
      (stderr w ++ ["URL Error: " +:+ reason])
      (requests w ++ [_generate_issue_url issue_id]) in
  download_loop os self total counter (issue_id :: rest) w =
  if String.eqb (lower answer) "y"
  then download_loop os self total (counter + 1) rest w'
  else (Ok tt, w').
Proof.
  intros Hover Hfail Hin w'. cbn [download_loop].
  unfold bind at 1. cbn [print]. unfold bind at 1.
  erewrite try_except_caught; cycle 1.
  { eapply bind_raise. rewrite download_issue_direct by now left.
    unfold fetch_and_save. unfold bind at 1. cbn [print].
    eapply bind_raise. unfold _fetch_url_content.
    cbn [files stdin stdout stderr requests]. rewrite Hfail. reflexivity. }
  { reflexivity. }
  unfold bind at 1. cbn [print]. unfold bind at 1, input.
  cbn [files stdin stdout stderr requests]. rewrite Hin. unfold ret.
  subst w'. rewrite <- !app_assoc. cbn [app].
  now destruct (String.eqb (lower answer) "y").
Qed.

(* ================================================================== *)
(** ** The download queue and the order of the loop *)
(* ================================================================== *)

Lemma elem_of_sorted (queue : gset Z) (x : Z) : x ∈ sorted queue <-> x ∈ queue.
Proof. unfold sorted. now rewrite merge_sort_Permutation, elem_of_elements. Qed.






Lemma download_loop_step (os : Platform) (self : Whisperer) (total counter issue_id : Z)
    (rest : list Z) (w : World) :
  download_loop os self total counter (issue_id :: rest) w =
  match try_except (_download_issue os self issue_id ;; ret true) is_URLError
          (ask_continue issue_id) (add_stdout w [progress_line (counter + 1) total]) with
  | (Ok true, w') => download_loop os self total (counter + 1) rest w'
  | (Ok false, w') => (Ok tt, w')
  | (Raise e, w') => (Raise e, w')
  end.
Proof.
  cbn [download_loop]. unfold bind at 1. cbn [print]. unfold bind at 1.
  fold (ask_continue issue_id).
  change (mkWorld (files w) (stdin w) (stdout w ++ _) (stderr w) (requests w))
    with (add_stdout w [progress_line (counter + 1) total]).
  destruct (try_except _ _ _ _) as [[[]|e] w']; reflexivity.
Qed.













(** Without the flags: issue 2 is in the way and the answer is no, so
    the turns of 1, 2 and 3 follow one another and only 1 and 3 are
    requested.  A failed request answered with no ends the loop after the
    turns of 1 and 4; 9 has none. *)
Example download_turns_in_order :
  run_script Demo.platform (mkOptions "/tmp/x" false false "3,1-2")
    (mkWorld {["/tmp/x/DigitalWhisper2.pdf" := PyBytes.bytes_of_str "old"]} ["n"] [] [] []) =
  (0,
   mkWorld
     (<["/tmp/x/DigitalWhisper3.pdf" := Demo.pdf 3]>
        (<["/tmp/x/DigitalWhisper1.pdf" := Demo.pdf 1]>
           {["/tmp/x/DigitalWhisper2.pdf" := PyBytes.bytes_of_str "old"]}))
     []
     [progress_line 1 3; "Downloading issue #1 < DigitalWhisper1.pdf >";
      "Download successful! (1.23 MB)";
      progress_line 2 3; exists_line 2; overwrite_prompt; "Skipping issue #2";
      progress_line 3 3; "Downloading issue #3 < DigitalWhisper3.pdf >";
      "Download successful! (0.0 MB)"; "All Done!"]
     [] [_generate_issue_url 1; _generate_issue_url 3]) /\
  run_script Demo.platform (mkOptions "/tmp/x" false false "4,1,9") (Demo.empty_world ["n"]) =
  (0,
   mkWorld {["/tmp/x/DigitalWhisper1.pdf" := Demo.pdf 1]} []
     [progress_line 1 3; "Downloading issue #1 < DigitalWhisper1.pdf >";
      "Download successful! (1.23 MB)";
      progress_line 2 3; "Downloading issue #4 < DigitalWhisper4.pdf >";
      failed_line 4; continue_prompt; "All Done!"]
     ["HTTP Error: 404 Not Found"] [_generate_issue_url 1; _generate_issue_url 4]).
Proof. split; vm_compute; reflexivity. Qed.

Example download_in_ascending_order :
  exists w',
    main Demo.platform (mkOptions "/tmp/x" true false "3,1-2,2") (Demo.empty_world []) =
    (Ok tt, w') /\
    requests w' = [_generate_issue_url 1; _generate_issue_url 2; _generate_issue_url 3].
Proof. eexists. split; vm_compute; reflexivity. Qed.

(* ================================================================== *)
(** ** The output directory *)
(* ================================================================== *)

(** X1. When the output directory does not exist the run stops at once:
    the one line [Error: Directory <absolute path> does not exist!] goes to
    the error stream, the status is 1, and nothing else has happened (no
    request, no output, no input read, no file touched). *)
Theorem missing_directory_is_fatal (os : Platform) (options : Options) (world : World) :
  isdir os (abspath os (directory options)) = false ->
  run_script os options world =
  (1, mkWorld (files world) (stdin world) (stdout world)
        (stderr world ++
         ["Error: Directory " +:+ abspath os (directory options) +:+ " does not exist!"])
        (requests world)).
Proof.
  intros Hdir. unfold run_script, main. unfold bind at 1.
  erewrite try_except_caught; [|now apply init_no_directory|reflexivity].
  reflexivity.
Qed.

Lemma missing_directory_is_fatal_witness :
  run_script Demo.platform (mkOptions "/nowhere" false false "last") (Demo.empty_world ["y"]) =
  (1, mkWorld ∅ ["y"] [] ["Error: Directory /nowhere does not exist!"] []).
Proof.
  apply (missing_directory_is_fatal Demo.platform
           (mkOptions "/nowhere" false false "last") (Demo.empty_world ["y"])).
  reflexivity.
Defined.

(* ================================================================== *)
(** ** The name of the file of an issue *)
(* ================================================================== *)

Lemma rfind_absent (c : ascii) (s : string) :
  all_chars (is_not c) s = true -> rfind c s = -1.
Proof.
  induction s as [|d s IH]; [reflexivity|].
  cbn [all_chars rfind]. intros [Hd Hs]%andb_true_iff. rewrite (IH Hs).
  unfold is_not in Hd. apply negb_true_iff in Hd. now rewrite Hd.
Qed.

Lemma rfind_last (c : ascii) (front back : string) :
  all_chars (is_not c) back = true ->
  rfind c (front +:+ String c back) = Z.of_nat (String.length front).
Proof.
  intros Hback. induction front as [|d front IH].
  - rewrite app_nil_l_str. cbn [rfind]. rewrite (rfind_absent c back Hback).
    now rewrite Ascii.eqb_refl.
  - rewrite app_cons. cbn [rfind String.length]. rewrite IH.
    destruct (0 <=? Z.of_nat (String.length front)) eqn:E; lia.
Qed.

Lemma drop_app (front back : string) : drop (String.length front) (front +:+ back) = back.
Proof. induction front as [|d front IH]; [now destruct back|]. now rewrite app_cons. Qed.

Lemma slice_after_last (c : ascii) (front back : string) :
  all_chars (is_not c) back = true ->
  slice_from (rfind c (front +:+ String c back) + 1) (front +:+ String c back) = back.
Proof.
  intros Hback. rewrite rfind_last by exact Hback. unfold slice_from.
  replace (Z.to_nat (Z.of_nat (String.length front) + 1))
    with (String.length (front +:+ String c "")) by (rewrite length_app_str; cbn; lia).
  replace (front +:+ String c back) with ((front +:+ String c "") +:+ back)
    by now rewrite app_assoc_str.
  apply drop_app.
Qed.

Lemma str_int_chars (n : Z) : all_chars is_digit_or_dash (str_int n) = true.
Proof.
  assert (Hr : forall k, all_chars is_digit_or_dash (render 10 k) = true).
  { intros k. apply (all_chars_impl is_digit); [|apply render_dec_digits].
    intros c Hc. unfold is_digit_or_dash. now rewrite Hc. }
  unfold str_int. destruct (n <? 0); [|apply Hr].
  cbn [all_chars]. now rewrite Hr.
Qed.

Lemma digit_or_dash_not_slash (c : ascii) : is_digit_or_dash c = true -> is_not "/" c = true.
Proof. unfold is_digit_or_dash, is_not. char_cases c; vm_compute; congruence. Qed.

Lemma issue_filename_spelled (n : Z) :
  issue_filename n = "DigitalWhisper" +:+ str_int n +:+ ".pdf".
Proof.
  unfold issue_filename, _generate_issue_url.
  rewrite <- (app_assoc_str _ (format_02X n)).
  change ("/DigitalWhisper" +:+ str_int n +:+ ".pdf")
    with (String "/" ("DigitalWhisper" +:+ str_int n +:+ ".pdf")).
  apply slice_after_last.
  rewrite !all_chars_app.
  rewrite (all_chars_impl is_digit_or_dash (is_not "/") _ digit_or_dash_not_slash
             (str_int_chars n)).
  reflexivity.
Qed.

(** X2. The file of issue [n] is always named [DigitalWhisper<n>.pdf]:
    what follows the last slash of the URL is the fixed prefix, the decimal
    numeral of [n] and [.pdf], for every integer [n]; so the target of a
    download is that name inside the download path. *)
Theorem issue_filename_form (n : Z) :
  issue_filename n = "DigitalWhisper" +:+ str_int n +:+ ".pdf" /\
  forall (os : Platform) (self : Whisperer),
    issue_out_path os self n =
    realpath os (_download_path self +:+ "/" +:+ "DigitalWhisper" +:+ str_int n +:+ ".pdf").
Proof.
  split; [apply issue_filename_spelled|].
  intros os self. unfold issue_out_path. now rewrite issue_filename_spelled.
Qed.

Lemma app_inj_length (s1 s2 t1 t2 : string) :
  String.length s1 = String.length s2 -> s1 +:+ t1 = s2 +:+ t2 -> s1 = s2 /\ t1 = t2.
Proof.
  revert s2. induction s1 as [|c s1 IH]; intros [|d s2]; try discriminate.
  - intros _ H. now rewrite !app_nil_l_str in H.
  - cbn [String.length]. intros [= Hlen]. rewrite !app_cons. intros [= -> H].
    destruct (IH _ Hlen H) as [-> ->]. now split.
Qed.

Lemma app_inj_suffix (s1 s2 t : string) : s1 +:+ t = s2 +:+ t -> s1 = s2.
Proof.
  intros H. apply (app_inj_length s1 s2 t t); [|exact H].
  apply (f_equal String.length) in H. rewrite !length_app_str in H. lia.
Qed.

Lemma str_int_inj (n m : Z) : str_int n = str_int m -> n = m.
Proof.
  assert (Hmixed : forall k r, String "-" r <> render 10 k).
  { intros k r H. pose proof (render_dec_digits k) as Hd. rewrite <- H in Hd. discriminate Hd. }
  unfold str_int.
  destruct (n <? 0) eqn:En; destruct (m <? 0) eqn:Em; intros H.
  - injection H as H. apply (f_equal (digits_value 10 0)) in H.
    rewrite !render_value in H; lia.
  - now apply Hmixed in H.
  - symmetry in H. now apply Hmixed in H.
  - apply (f_equal (digits_value 10 0)) in H. rewrite !render_value in H; lia.
Qed.

(** X3. Two different issues never share a file name or a URL: the name
    and the URL of an issue determine its number, for all integers. *)
Theorem issue_names_are_distinct (n m : Z) :
  (issue_filename n = issue_filename m -> n = m) /\
  (_generate_issue_url n = _generate_issue_url m -> n = m).
Proof.
  assert (Hname : issue_filename n = issue_filename m -> n = m).
  { rewrite (issue_filename_spelled n), (issue_filename_spelled m).
    intros H. apply String.app_inj in H. apply app_inj_suffix in H.
    now apply str_int_inj. }
  split; [exact Hname|].
  intros H. apply Hname. unfold issue_filename. now rewrite H.
Qed.

(* ================================================================== *)
(** ** What [int()] accepts *)
(* ================================================================== *)

Lemma int_of_str_unfold (s : string) :
  int_of_str s =
  match strip s with
  | EmptyString => None
  | String c rest =>
      if Ascii.eqb c "+" then int_unsigned rest
      else if Ascii.eqb c "-" then Z.opp <$> int_unsigned rest
      else int_unsigned (String c rest)
  end.
Proof.
  unfold int_of_str. destruct (strip s) as [|c rest]; [reflexivity|].
  char_cases c; reflexivity.
Qed.

Lemma lstrip_all (p : ascii -> bool) (s : string) :
  all_chars p s = true -> all_chars p (lstrip s) = true.
Proof.
  induction s as [|c s IH]; [reflexivity|].
  intros Hall. pose proof Hall as Hcs. cbn [all_chars] in Hcs.
  apply andb_true_iff in Hcs as [_ Hs].
  cbn [lstrip]. destruct (is_space c); [now apply IH | exact Hall].
Qed.

Lemma rstrip_all (p : ascii -> bool) (s : string) :
  all_chars p s = true -> all_chars p (rstrip s) = true.
Proof.
  induction s as [|c s IH]; [reflexivity|].
  cbn [all_chars]. intros [Hc Hs]%andb_true_iff. specialize (IH Hs).
  rewrite rstrip_cons. destruct (rstrip s) as [|d kept].
  - destruct (is_space c); [reflexivity|]. cbn [all_chars]. now rewrite Hc.
  - cbn [all_chars] in *. now rewrite Hc.
Qed.

Lemma lstrip_back (p : ascii -> bool) (s : string) :
  (forall c, is_space c = true -> p c = true) ->
  all_chars p (lstrip s) = true -> all_chars p s = true.
Proof.
  intros Hspace. induction s as [|c s IH]; [reflexivity|].
  cbn [lstrip]. destruct (is_space c) eqn:Hc; [|exact (fun H => H)].
  intros H. cbn [all_chars]. now rewrite (Hspace c Hc), IH.
Qed.

Lemma rstrip_back (p : ascii -> bool) (s : string) :
  (forall c, is_space c = true -> p c = true) ->
  all_chars p (rstrip s) = true -> all_chars p s = true.
Proof.
  intros Hspace. induction s as [|c s IH]; [reflexivity|].
  rewrite rstrip_cons. destruct (rstrip s) as [|d kept] eqn:Hkept.
  - destruct (is_space c) eqn:Hc.
    + intros _. cbn [all_chars]. now rewrite (Hspace c Hc), IH.
    + cbn [all_chars]. intros [Hpc _]%andb_true_iff. now rewrite Hpc, IH.
  - cbn [all_chars]. intros [Hpc Hrest]%andb_true_iff. rewrite Hpc. now apply IH.
Qed.

Lemma int_digits_chars (acc : Z) (s : string) (n : Z) :
  int_digits acc s = Some n -> all_chars int_char s = true.
Proof.
  revert acc. induction s as [|c s IH]; intros acc; [reflexivity|].
  cbn [int_digits all_chars]. unfold int_char at 1.
  destruct (is_digit c); [intros H; cbn; now apply IH in H|].
  destruct (Ascii.eqb c "_"); [|discriminate].
  destruct s as [|d s]; [discriminate|].
  destruct (is_digit d); [|discriminate]. intros H. cbn. now apply IH in H.
Qed.

Lemma int_digits_nonneg (acc : Z) (s : string) (n : Z) :
  0 <= acc -> int_digits acc s = Some n -> 0 <= n.
Proof.
  revert acc. induction s as [|c s IH]; intros acc Hacc.
  - now intros [= <-].
  - cbn [int_digits]. destruct (is_digit c) eqn:Hc.
    + apply IH. pose proof (digit_value_nonneg c Hc). lia.
    + destruct (Ascii.eqb c "_"); [|discriminate].
      destruct s as [|d s]; [discriminate|].
      destruct (is_digit d); [|discriminate]. now apply IH.
Qed.

Lemma int_unsigned_chars (s : string) (n : Z) :
  int_unsigned s = Some n -> all_chars int_char s = true /\ 0 <= n.
Proof.
  unfold int_unsigned. destruct s as [|c s]; [discriminate|].
  destruct (is_digit c); [|discriminate].
  intros H. split; [now apply int_digits_chars in H | now apply int_digits_nonneg in H].
Qed.

Lemma space_is_int_char (c : ascii) : is_space c = true -> int_char c = true.
Proof. intros H. unfold int_char. rewrite H. now rewrite !orb_true_r. Qed.

(** Whatever [int()] reads is made of digits, underscores, signs and
    white space. *)
Lemma int_of_str_chars (s : string) (n : Z) :
  int_of_str s = Some n -> all_chars int_char s = true.
Proof.
  rewrite int_of_str_unfold. intros H.
  apply (lstrip_back _ _ space_is_int_char), (rstrip_back _ _ space_is_int_char).
  fold (strip s). destruct (strip s) as [|c rest]; [discriminate|].
  cbn [all_chars].
  destruct (Ascii.eqb_spec c "+") as [->|_].
  { apply int_unsigned_chars in H as [H _]. now rewrite H. }
  destruct (Ascii.eqb_spec c "-") as [->|_].
  { destruct (int_unsigned rest) as [k|] eqn:E; [|discriminate].
    apply int_unsigned_chars in E as [E _]. now rewrite E. }
  apply int_unsigned_chars in H as [H _]. exact H.
Qed.

(** Without a dash in its argument, [int()] reads a natural number. *)
Lemma int_of_str_nonneg (s : string) (n : Z) :
  all_chars (is_not "-") s = true -> int_of_str s = Some n -> 0 <= n.
Proof.
  intros Hdash. rewrite int_of_str_unfold.
  assert (Hstrip : all_chars (is_not "-") (strip s) = true)
    by now apply rstrip_all, lstrip_all.
  destruct (strip s) as [|c rest]; [discriminate|].
  destruct (Ascii.eqb_spec c "+") as [->|_].
  { intros H. now apply int_unsigned_chars in H. }
  destruct (Ascii.eqb_spec c "-") as [->|_]; [discriminate Hstrip|].
  intros H. now apply int_unsigned_chars in H.
Qed.

Lemma contains_char_false (c : ascii) (s : string) :
  contains (String c "") s = false -> all_chars (is_not c) s = true.
Proof.
  induction s as [|d s IH]; [reflexivity|].
  rewrite contains_cons, prefix_cons, prefix_empty.
  intros [Hhead Htail]%orb_false_iff. cbn [all_chars]. rewrite (IH Htail).
  unfold is_not. destruct (ascii_dec c d) as [->|Hne]; [discriminate|].
  destruct (Ascii.eqb_spec d c) as [->|_]; [congruence|reflexivity].
Qed.

(** The pieces of a split hold no separator, and a property of all
    characters of the pieces that the separator has too holds of the
    whole string. *)
Lemma split_pieces_without (sep : ascii) (s : string) :
  Forall (fun piece => all_chars (is_not sep) piece = true) (split sep s).
Proof.
  induction s as [|c s IH]; [now repeat constructor|].
  rewrite split_cons. destruct (Ascii.eqb c sep) eqn:E; [now constructor|].
  destruct (split sep s) as [|piece rest]; [repeat constructor; cbn; unfold is_not; now rewrite E|].
  apply Forall_cons in IH as [Hpiece Hrest]. constructor; [|exact Hrest].
  cbn [all_chars]. unfold is_not at 1. now rewrite E.
Qed.

Lemma split_pieces_all (p : ascii -> bool) (sep : ascii) (s : string) :
  p sep = true ->
  Forall (fun piece => all_chars p piece = true) (split sep s) ->
  all_chars p s = true.
Proof.
  intros Hsep. induction s as [|c s IH]; [reflexivity|].
  rewrite split_cons. destruct (Ascii.eqb_spec c sep) as [->|Hne].
  - intros [_ Hrest]%Forall_cons. cbn [all_chars]. now rewrite Hsep, IH.
  - destruct (split sep s) as [|piece rest].
    + intros [Hc _]%Forall_cons. cbn [all_chars] in Hc.
      apply andb_true_iff in Hc as [Hc _]. cbn [all_chars]. rewrite Hc.
      apply IH. constructor.
    + intros [Hc Hrest]%Forall_cons. cbn [all_chars] in Hc.
      apply andb_true_iff in Hc as [Hc Hpiece]. cbn [all_chars]. rewrite Hc.
      apply IH. now constructor.
Qed.

(* ================================================================== *)
(** ** Every way a token can succeed *)
(* ================================================================== *)

(** A successful expansion parsed either one natural number from a string
    without a dash, or two of them from the two pieces around the only
    dash. *)
Lemma expand_issue_range_ok (self self' : Whisperer) (issue_range : string) (w w' : World) :
  expand_issue_range self issue_range w = (Ok self', w') ->
  w' = w /\
  ((exists n, contains "-" issue_range = false /\ int_of_str issue_range = Some n /\
              0 <= n /\ self' = add_issue_id self n) \/
   (exists p1 p2 a b, split "-" issue_range = [p1; p2] /\
              int_of_str p1 = Some a /\ int_of_str p2 = Some b /\
              0 <= a /\ 0 <= b /\
              self' = add_issue_id_range self (py_range a (b + 1)))).
Proof.
  unfold expand_issue_range, bind, unpack2, int, ret, raise.
  destruct (contains "-" issue_range) eqn:Hdash.
  - pose proof (split_pieces_without "-" issue_range) as Hpieces.
    destruct (split "-" issue_range) as [|p1 [|p2 [|p3 ps]]]; try discriminate.
    cbn [fst snd].
    apply Forall_cons in Hpieces as [H1 [H2 _]%Forall_cons].
    destruct (int_of_str p1) as [a|] eqn:E1; [|discriminate].
    destruct (int_of_str p2) as [b|] eqn:E2; [|discriminate].
    intros [= <- <-]. split; [reflexivity|]. right. exists p1, p2, a, b.
    repeat split; try reflexivity; try assumption.
    + now apply (int_of_str_nonneg p1).
    + now apply (int_of_str_nonneg p2).
  - destruct (int_of_str issue_range) as [n|] eqn:E; [|discriminate].
    intros [= <- <-]. split; [reflexivity|]. left. exists n.
    repeat split; try reflexivity.
    apply (int_of_str_nonneg issue_range); [|exact E].
    now apply contains_char_false.
Qed.

Lemma get_last_issue_id_object (os : Platform) (self self' : Whisperer) (w w' : World)
    (res : option Z) :
  _get_last_issue_id os self w = (Ok (res, self'), w') -> self' = with_cache self res.
Proof.
  intros Hrun.
  destruct (get_last_issue_id_returns os self w res self' w' Hrun)
    as [(v & Hc & -> & -> & ->) | [(Hc & ds & _ & _ & -> & -> & ->) |
        (Hc & -> & -> & _)]].
  - now rewrite <- Hc, with_cache_same.
  - reflexivity.
  - now rewrite <- Hc, with_cache_same.
Qed.

(** A token that succeeds has expanded some string on the object, with at
    most its cache changed by the resolver. *)
Lemma add_range_token_ok (os : Platform) (self self' : Whisperer) (issue_range : string)
    (w w' : World) :
  add_range_token os self issue_range w = (Ok self', w') ->
  exists (cache : option Z) (substituted : string),
    expand_issue_range (with_cache self cache) substituted w' = (Ok self', w').
Proof.
  assert (Hresolved : forall rest : option Z -> string,
    (let* resolved := _get_last_issue_id os self in
     let '(last_issue_id, whisperer) := resolved in
     expand_issue_range whisperer (rest last_issue_id)) w = (Ok self', w') ->
    exists cache substituted,
      expand_issue_range (with_cache self cache) substituted w' = (Ok self', w')).
  { intros rest. unfold bind at 1.
    destruct (_get_last_issue_id os self w) as [[[latest self1]|e] w1] eqn:Hres; [|discriminate].
    apply get_last_issue_id_object in Hres as ->.
    intros Hexp. pose proof Hexp as [-> _]%expand_issue_range_ok. eauto. }
  unfold add_range_token.
  destruct (contains "all" issue_range).
  - destruct (String.eqb "all" issue_range); [|discriminate].
    apply (Hresolved (fun latest => str_int FIRST_ISSUE_ID +:+ "-" +:+ str_opt_int latest)).
  - destruct (contains "last" issue_range).
    + apply (Hresolved (fun latest => replace "last" (str_opt_int latest) issue_range)).
    + intros Hexp. pose proof Hexp as [-> _]%expand_issue_range_ok.
      exists (_last_issue_id_cache self), issue_range. now rewrite with_cache_same.
Qed.

Lemma expand_issue_range_nonneg (self self' : Whisperer) (issue_range : string) (w w' : World) :
  queue_nonneg self ->
  expand_issue_range self issue_range w = (Ok self', w') ->
  queue_nonneg self'.
Proof.
  intros Hq [_ [(n & _ & _ & Hn & ->) | (p1 & p2 & a & b & _ & _ & _ & Ha & Hb & ->)]]%expand_issue_range_ok x.
  - cbn. rewrite elem_of_union, elem_of_singleton. intros [Hx | ->]; [now apply Hq | exact Hn].
  - rewrite elem_of_add_issue_id_range, elem_of_py_range.
    intros [Hx | Hx]; [now apply Hq | lia].
Qed.

(** X4. However the range list is written, only natural numbers get into
    the queue: a list of tokens that expands without an exception leaves
    every queued id non-negative (a negative numeral has a dash, which is
    read as the range separator and fails). *)
Theorem queued_ids_are_natural (os : Platform) (ranges : list string)
    (self self' : Whisperer) (w w' : World) :
  queue_nonneg self ->
  add_range_tokens os self ranges w = (Ok self', w') ->
  queue_nonneg self'.
Proof.
  revert self w. induction ranges as [|tok rest IH]; intros self w Hq.
  - now intros [= <- <-].
  - cbn [add_range_tokens]. unfold bind.
    destruct (add_range_token os self tok w) as [[self1|e] w1] eqn:Htok; [|discriminate].
    apply add_range_token_ok in Htok as (cache & substituted & Hexp).
    apply (IH self1 w1).
    apply (expand_issue_range_nonneg (with_cache self cache) self1 substituted w1 w1);
      [exact Hq | exact Hexp].
Qed.

Lemma queued_ids_are_natural_witness :
  let self := fresh_whisperer Demo.platform (mkOptions "/tmp/x" false false "0,2-3,last") in
  let self' := with_cache (with_queue self {[0; 2; 3]}) (Some 3) in
  queue_nonneg self'.
Proof.
  intros self self'.
  apply (queued_ids_are_natural Demo.platform (split "," "0,2-3,last") self self'
           (Demo.empty_world []) (index_requested (Demo.empty_world []))).
  - intros x Hx. vm_compute in Hx. discriminate Hx.
  - vm_compute. reflexivity.
Defined.

Example negative_ids_are_rejected :
  forall self w,
    (exists msg, add_range_token Demo.platform self "-3" w = (Raise (ValueError msg), w)) /\
    (exists msg, add_range_token Demo.platform self "-3-5" w = (Raise (ValueError msg), w)).
Proof. intros self w. split; eexists; reflexivity. Qed.

(* ================================================================== *)
(** ** Single ids and the keyword [last] *)
(* ================================================================== *)

Lemma numeral_no_keyword (c : ascii) (sub : string) (n : Z) :
  is_digit c = false -> 0 <= n -> contains (String c sub) (str_int n) = false.
Proof. intros Hc Hn. apply (contains_outside is_digit); [exact Hc | now apply str_int_digits]. Qed.

Lemma add_range_token_numeral (os : Platform) (self : Whisperer) (n : Z) (w : World) :
  0 <= n -> add_range_token os self (str_int n) w = (Ok (add_issue_id self n), w).
Proof.
  intros Hn. unfold add_range_token, expand_issue_range.
  rewrite !numeral_no_keyword by (reflexivity || exact Hn).
  unfold bind, int. now rewrite int_of_str_str_int.
Qed.

(** X5. A token that is the numeral of a natural number [n] adds exactly
    [n] to the queue and touches nothing else; it queues what the range
    [n-n] queues. *)
Theorem single_id_token (os : Platform) (self : Whisperer) (n : Z) (w : World) :
  0 <= n ->
  add_range_token os self (str_int n) w = (Ok (add_issue_id self n), w) /\
  add_issue_id self n = with_queue self (_download_queue (add_issue_id self n)) /\
  (forall x : Z, x ∈ _download_queue (add_issue_id self n) <->
                 x ∈ _download_queue self \/ x = n) /\
  (exists ranged : Whisperer,
     add_range_token os self (str_int n +:+ "-" +:+ str_int n) w = (Ok ranged, w) /\
     _download_queue ranged = _download_queue (add_issue_id self n)).
Proof.
  intros Hn. split; [now apply add_range_token_numeral|]. split; [reflexivity|]. split.
  - intros x. cbn. now rewrite elem_of_union, elem_of_singleton.
  - eexists. split; [now apply add_range_token_numerals|].
    apply set_eq. intros x.
    rewrite elem_of_add_issue_id_range, elem_of_py_range. cbn.
    rewrite elem_of_union, elem_of_singleton. intuition lia.
Qed.

Lemma single_id_token_witness :
  let self := fresh_whisperer Demo.platform (mkOptions "/tmp/x" false false "7") in
  let w := Demo.empty_world [] in
  add_range_token Demo.platform self (str_int 7) w = (Ok (add_issue_id self 7), w) /\
  add_issue_id self 7 = with_queue self (_download_queue (add_issue_id self 7)) /\
  (forall x : Z, x ∈ _download_queue (add_issue_id self 7) <->
                 x ∈ _download_queue self \/ x = 7) /\
  (exists ranged : Whisperer,
     add_range_token Demo.platform self (str_int 7 +:+ "-" +:+ str_int 7) w = (Ok ranged, w) /\
     _download_queue ranged = _download_queue (add_issue_id self 7)).
Proof. intros self w. apply (single_id_token Demo.platform self 7 w). lia. Defined.

Lemma contains_skip_front (p : ascii -> bool) (c : ascii) (sub front s : string) :
  p c = false -> all_chars p front = true ->
  contains (String c sub) (front +:+ s) = contains (String c sub) s.
Proof.
  intros Hc. induction front as [|d front IH]; [reflexivity|].
  cbn [all_chars]. intros [Hd Hfront]%andb_true_iff.
  rewrite app_cons, contains_cons, prefix_cons, (IH Hfront).
  destruct (ascii_dec c d) as [->|_]; [congruence|reflexivity].
Qed.

Lemma replace_from_cons (old new : string) (c : ascii) (s : string) :
  replace_from old new 0 (String c s) =
  if String.prefix old (String c s)
  then new +:+ replace_from old new (String.length old - 1) s
  else String c (replace_from old new 0 s).
Proof. reflexivity. Qed.

Lemma replace_skip_front (p : ascii -> bool) (c : ascii) (old' new front s : string) :
  p c = false -> all_chars p front = true ->
  replace (String c old') new (front +:+ s) = front +:+ replace (String c old') new s.
Proof.
  intros Hc. unfold replace. induction front as [|d front IH]; [reflexivity|].
  cbn [all_chars]. intros [Hd Hfront]%andb_true_iff.
  rewrite !app_cons, replace_from_cons, prefix_cons, (IH Hfront).
  destruct (ascii_dec c d) as [->|_]; [congruence|reflexivity].
Qed.

Lemma replace_last_itself (new : string) : replace "last" new "last" = new.
Proof. change (replace "last" new "last") with (new +:+ ""). apply app_empty_r. Qed.

Lemma digit_or_dash_front (a : Z) :
  0 <= a -> all_chars is_digit_or_dash (str_int a +:+ "-") = true.
Proof. intros Ha. rewrite all_chars_app, str_int_chars. reflexivity. Qed.

(** X6. With the latest id [latest] resolved, the token [last] adds exactly
    [latest], and the token [a-last] adds exactly the integers from [a] to
    [latest]; the world is the one the resolver left. *)
Theorem last_token_adds_latest (os : Platform) (self resolved : Whisperer)
    (w w' : World) (latest : Z) :
  cache_valid self ->
  _get_last_issue_id os self w = (Ok (Some latest, resolved), w') ->
  resolved = with_cache self (Some latest) /\
  add_range_token os self "last" w = (Ok (add_issue_id resolved latest), w') /\
  forall a : Z, 0 <= a ->
    add_range_token os self (str_int a +:+ "-last") w =
    (Ok (add_issue_id_range resolved (py_range a (latest + 1))), w').
Proof.
  intros Hvalid Hrun.
  destruct (get_last_issue_id_valid os self resolved w w' _ Hvalid Hrun) as (_ & Hobj & Hpos).
  specialize (Hpos latest eq_refl).
  split; [exact Hobj|]. split.
  - unfold add_range_token.
    change (contains "all" "last") with false. change (contains "last" "last") with true.
    cbn match. erewrite bind_ok; [|exact Hrun].
    cbn [str_opt_int]. rewrite replace_last_itself.
    unfold expand_issue_range. rewrite numeral_no_keyword by (reflexivity || exact Hpos).
    unfold bind, int. now rewrite int_of_str_str_int.
  - intros a Ha. unfold add_range_token.
    replace (str_int a +:+ "-last") with ((str_int a +:+ "-") +:+ "last")
      by now rewrite app_assoc_str.
    rewrite (contains_skip_front is_digit_or_dash "a" "ll") by (reflexivity || now apply digit_or_dash_front).
    rewrite (contains_skip_front is_digit_or_dash "l" "ast") by (reflexivity || now apply digit_or_dash_front).
    change (contains "all" "last") with false. change (contains "last" "last") with true.
    cbn match. erewrite bind_ok; [|exact Hrun].
    cbn [str_opt_int].
    rewrite (replace_skip_front is_digit_or_dash "l" "ast") by (reflexivity || now apply digit_or_dash_front).
    rewrite replace_last_itself, app_assoc_str.
    now apply expand_issue_range_numerals.
Qed.

Lemma last_token_adds_latest_witness :
  let self := fresh_whisperer Demo.platform (mkOptions "/tmp/x" false false "last") in
  let resolved := with_cache self (Some 3) in
  let w := Demo.empty_world [] in
  resolved = with_cache self (Some 3) /\
  add_range_token Demo.platform self "last" w =
    (Ok (add_issue_id resolved 3), index_requested w) /\
  forall a : Z, 0 <= a ->
    add_range_token Demo.platform self (str_int a +:+ "-last") w =
    (Ok (add_issue_id_range resolved (py_range a (3 + 1))), index_requested w).
Proof.
  intros self resolved w.
  apply (last_token_adds_latest Demo.platform self resolved w (index_requested w) 3).
  - intros v Hv. discriminate Hv.
  - vm_compute. reflexivity.
Defined.

(* ================================================================== *)
(** ** A keyword that cannot be resolved *)
(* ================================================================== *)

Lemma all_chars_false_app (p : ascii -> bool) (s1 s2 s3 : string) :
  all_chars p s2 = false -> all_chars p (s1 +:+ s2 +:+ s3) = false.
Proof.
  intros H. rewrite !all_chars_app, H. now rewrite andb_false_r.
Qed.

(** The first occurrence of [old] is replaced by [new]. *)
Lemma replace_has_new (c : ascii) (old' new s : string) :
  contains (String c old') s = true ->
  exists front back, replace (String c old') new s = front +:+ new +:+ back.
Proof.
  unfold replace. induction s as [|d s IH]; [discriminate|].
  rewrite contains_cons, replace_from_cons.
  destruct (String.prefix (String c old') (String d s)).
  - intros _. exists "". eexists. reflexivity.
  - cbn [orb]. intros (front & back & ->)%IH.
    exists (String d front), back. reflexivity.
Qed.

(** A string with a character that [int()] refuses cannot be expanded. *)
Lemma expand_issue_range_rejects (self : Whisperer) (issue_range : string) (w : World) :
  all_chars int_char issue_range = false ->
  exists msg, expand_issue_range self issue_range w = (Raise (ValueError msg), w).
Proof.
  intros Hbad. unfold expand_issue_range, bind, unpack2, int, ret, raise.
  destruct (contains "-" issue_range).
  - destruct (split "-" issue_range) as [|p1 [|p2 [|p3 ps]]] eqn:Hsplit;
      try (eexists; reflexivity).
    cbn [fst snd].
    destruct (int_of_str p1) as [a|] eqn:E1; [|eexists; reflexivity].
    destruct (int_of_str p2) as [b|] eqn:E2; [|eexists; reflexivity].
    exfalso. apply int_of_str_chars in E1, E2.
    assert (all_chars int_char issue_range = true); [|congruence].
    apply (split_pieces_all int_char "-"); [reflexivity|].
    rewrite Hsplit. now repeat constructor.
  - destruct (int_of_str issue_range) as [n|] eqn:E; [|eexists; reflexivity].
    apply int_of_str_chars in E. congruence.
Qed.

Lemma none_is_no_number (front back : string) :
  all_chars int_char (front +:+ "None" +:+ back) = false.
Proof.
  apply all_chars_false_app.
  destruct (all_chars int_char "None") eqn:E; [discriminate E | reflexivity].
Qed.

Lemma unresolved_all (w : World) (self : Whisperer) :
  exists msg,
    expand_issue_range self (str_int FIRST_ISSUE_ID +:+ "-" +:+ str_opt_int None) w =
    (Raise (ValueError msg), w).
Proof.
  apply expand_issue_range_rejects.
  change (str_int FIRST_ISSUE_ID +:+ "-" +:+ str_opt_int None) with ("1-" +:+ "None" +:+ "").
  apply none_is_no_number.
Qed.

Lemma unresolved_last (w : World) (self : Whisperer) (issue_range : string) :
  contains "last" issue_range = true ->
  exists msg,
    expand_issue_range self (replace "last" (str_opt_int None) issue_range) w =
    (Raise (ValueError msg), w).
Proof.
  intros (front & back & ->)%(replace_has_new "l" "ast" (str_opt_int None)).
  apply expand_issue_range_rejects, none_is_no_number.
Qed.

(** X7. When the resolver finds no latest id, a token that needs it cannot
    be expanded: the token [all], and every token that holds [last] (and no
    [all]), end in an uncaught [ValueError] right after the resolver, since
    [None] is substituted and [int()] refuses it.  The queue is not
    changed. *)
Theorem unresolved_keyword_is_fatal (os : Platform) (self unresolved : Whisperer)
    (w w' : World) (issue_range : string) :
  _get_last_issue_id os self w = (Ok (None, unresolved), w') ->
  issue_range = "all" \/
  (contains "all" issue_range = false /\ contains "last" issue_range = true) ->
  exists msg,
    add_range_token os self issue_range w = (Raise (ValueError msg), w') /\
    exit_status (Raise (ValueError msg)) = 1.
Proof.
  intros Hrun Hkeyword. unfold add_range_token.
  destruct Hkeyword as [-> | [Hall Hlast]].
  - change (contains "all" "all") with true. change (String.eqb "all" "all") with true.
    cbn match. erewrite bind_ok; [|exact Hrun].
    destruct (unresolved_all w' unresolved) as [msg Hmsg].
    exists msg. now split.
  - rewrite Hall, Hlast. erewrite bind_ok; [|exact Hrun].
    destruct (unresolved_last w' unresolved issue_range Hlast) as [msg Hmsg].
    exists msg. now split.
Qed.

Lemma unresolved_keyword_is_fatal_witness :
  let os := Demo.platform_with (fun _ _ => Response (PyBytes.bytes_of_str "no issues here") None) in
  let self := fresh_whisperer os (mkOptions "/tmp/x" false false "5-last") in
  let w := Demo.empty_world [] in
  let w' := mkWorld ∅ [] [fetching_line] ["Error: Can't find last issue ID"] [issues_url] in
  exists msg,
    add_range_token os self "5-last" w = (Raise (ValueError msg), w') /\
    exit_status (Raise (ValueError msg)) = 1.
Proof.
  intros os self w w'.
  apply (unresolved_keyword_is_fatal os self self w w' "5-last").
  - vm_compute. reflexivity.
  - right. split; reflexivity.
Defined.

(** The default range [last] on a page without the pattern. *)
Example default_run_without_link :
  let os := Demo.platform_with (fun _ _ => Response (PyBytes.bytes_of_str "no issues here") None) in
  run_script os (mkOptions "/tmp/x" false false "last") (Demo.empty_world []) =
  (1, mkWorld ∅ [] [fetching_line]
        ["Error: Can't find last issue ID"; "Traceback (most recent call last): ValueError"]
        [issues_url]).
Proof. vm_compute. reflexivity. Qed.

(* ================================================================== *)
(** ** One request of the index page per run *)
(* ================================================================== *)

Lemma expand_issue_range_cache (self self' : Whisperer) (issue_range : string) (w w' : World) :
  expand_issue_range self issue_range w = (Ok self', w') ->
  _last_issue_id_cache self' = _last_issue_id_cache self.
Proof.
  intros [_ [(n & _ & _ & _ & ->) | (p1 & p2 & a & b & _ & _ & _ & _ & _ & ->)]]%expand_issue_range_ok;
    reflexivity.
Qed.

(** One token either makes no request and keeps the cache, or starts from
    an empty cache, requests the index page once and, if it succeeds,
    leaves the cache filled. *)
Lemma add_range_token_index (os : Platform) (self : Whisperer) (issue_range : string)
    (w w' : World) (r : result Whisperer) :
  add_range_token os self issue_range w = (r, w') ->
  (requests w' = requests w /\
   forall self', r = Ok self' -> _last_issue_id_cache self' = _last_issue_id_cache self) \/
  (_last_issue_id_cache self = None /\
   requests w' = requests w ++ [issues_url] /\
   forall self', r = Ok self' -> is_Some (_last_issue_id_cache self')).
Proof.
  assert (Hresolved : forall rest : option Z -> string,
    (forall u v, exists msg, expand_issue_range u (rest None) v = (Raise (ValueError msg), v)) ->
    (let* resolved := _get_last_issue_id os self in
     let '(last_issue_id, whisperer) := resolved in
     expand_issue_range whisperer (rest last_issue_id)) w = (r, w') ->
    (requests w' = requests w /\
     forall self', r = Ok self' -> _last_issue_id_cache self' = _last_issue_id_cache self) \/
    (_last_issue_id_cache self = None /\
     requests w' = requests w ++ [issues_url] /\
     forall self', r = Ok self' -> is_Some (_last_issue_id_cache self'))).
  { intros rest Hnone. unfold bind at 1.
    destruct (_last_issue_id_cache self) as [v|] eqn:Hcache.
    - rewrite (get_last_issue_id_cached os self w v Hcache).
      intros Hexp. left.
      destruct r as [self'|e].
      + pose proof Hexp as [-> _]%expand_issue_range_ok. split; [reflexivity|].
        intros ? [= <-]. apply expand_issue_range_cache in Hexp. now rewrite Hexp.
      + pose proof Hexp as [-> _]%expand_issue_range_effect. split; [reflexivity | discriminate].
    - pose proof (get_last_issue_id_requests os self w Hcache) as Hreq.
      destruct (_get_last_issue_id os self w) as [[[latest self1]|e] w1] eqn:Hres;
        cbn [snd] in Hreq.
      + apply get_last_issue_id_object in Hres as ->.
        intros Hexp. right. split; [reflexivity|].
        pose proof Hexp as [-> _]%expand_issue_range_effect. split; [exact Hreq|].
        intros self' ->. apply expand_issue_range_cache in Hexp as Hc. rewrite Hc.
        destruct latest as [latest|]; [now eexists|].
        destruct (Hnone (with_cache self None) w1) as [msg Hmsg]. congruence.
      + intros [= <- <-]. right. split; [reflexivity|]. split; [exact Hreq | discriminate]. }
  unfold add_range_token.
  destruct (contains "all" issue_range).
  - destruct (String.eqb "all" issue_range).
    + apply (Hresolved (fun latest => str_int FIRST_ISSUE_ID +:+ "-" +:+ str_opt_int latest)).
      intros u v. apply unresolved_all.
    + intros [= <- <-]. left. split; [reflexivity | discriminate].
  - destruct (contains "last" issue_range) eqn:Hlast.
    + apply (Hresolved (fun latest => replace "last" (str_opt_int latest) issue_range)).
      intros u v. now apply unresolved_last.
    + intros Hexp. left.
      pose proof Hexp as [-> _]%expand_issue_range_effect. split; [reflexivity|].
      intros self' ->. now apply expand_issue_range_cache in Hexp.
Qed.

(** X8. However many tokens of the range list use [last] or [all], the
    index page is requested at most once while the list is expanded, and not
    at all when the cache is filled: after the first request the id is
    cached, or the run is over. *)
Theorem index_requested_at_most_once (os : Platform) (ranges : list string)
    (self : Whisperer) (w w' : World) (r : result Whisperer) :
  add_range_tokens os self ranges w = (r, w') ->
  requests w' = requests w \/
  (_last_issue_id_cache self = None /\ requests w' = requests w ++ [issues_url]).
Proof.
  revert self w. induction ranges as [|tok rest IH]; intros self w.
  - intros [= <- <-]. now left.
  - cbn [add_range_tokens]. unfold bind.
    destruct (add_range_token os self tok w) as [[self1|e] w1] eqn:Htok;
      apply add_range_token_index in Htok as [[Hreq Hcache] | (Hnone & Hreq & Hcache)].
    + specialize (Hcache self1 eq_refl).
      intros [Hrest | [Hnone Hrest]]%IH.
      * left. congruence.
      * right. split; [congruence|]. now rewrite Hrest, Hreq.
    + destruct (Hcache self1 eq_refl) as [v Hv].
      intros [Hrest | [Hnone1 Hrest]]%IH.
      * right. split; [exact Hnone|]. congruence.
      * congruence.
    + intros [= <- <-]. now left.
    + intros [= <- <-]. now right.
Qed.

Lemma index_requested_at_most_once_witness :
  let self := fresh_whisperer Demo.platform (mkOptions "/tmp/x" false false "last,1-last") in
  let w := Demo.empty_world [] in
  requests (index_requested w) = requests w \/
  (_last_issue_id_cache self = None /\
   requests (index_requested w) = requests w ++ [issues_url]).
Proof.
  intros self w.
  apply (index_requested_at_most_once Demo.platform ["last"; "1-last"] self w
           (index_requested w)
           (Ok (with_cache (with_queue self {[1; 2; 3]}) (Some 3)))).
  vm_compute. reflexivity.
Defined.

Example index_requested_once_in_a_run :
  exists w',
    main Demo.platform (mkOptions "/tmp/x" true true "last,1-last,all") (Demo.empty_world []) =
    (Ok tt, w') /\
    requests w' = [issues_url; _generate_issue_url 1; _generate_issue_url 2;
                   _generate_issue_url 3].
Proof. eexists. split; vm_compute; reflexivity. Qed.

(* ================================================================== *)
(** ** The overwrite and skip flags over a whole run *)
(* ================================================================== *)

Lemma fetch_and_save_stdin (os : Platform) (issue_id : Z) (issue_url filename out_path : string)
    (w : World) :
  stdin (snd (fetch_and_save os issue_id issue_url filename out_path w)) = stdin w.
Proof.
  unfold fetch_and_save.
  unfold bind at 1. cbn [print]. unfold bind at 1.
  destruct (_fetch_url_content os issue_url _) as [[data|e] w1] eqn:Hfetch;
    apply fetch_url_content_effect in Hfetch as (_ & Hi & _);
    cbn [stdin] in Hi; [|exact Hi].
  unfold bind at 1, open_wb.
  destruct (open_denied os out_path); [exact Hi|].
  cbn [set_file]. unfold bind at 1, int_header, int.
  destruct (snd data) as [cl|]; [|exact Hi].
  destruct (int_of_str cl) as [n|]; [|exact Hi].
  unfold ret at 1. cbv beta iota. unfold bind at 1, _bytes_to_megabytes.
  destruct (truediv os n 1000000); exact Hi.
Qed.

(** X9. With the overwrite flag nothing is ever asked: whatever the
    server does, a call for one issue reads no input; and when the server
    sends the issue with a length the script can report ([int()] reads it
    and the count of megabytes fits a float), the body replaces whatever
    was at the target, with just the two lines [Downloading ...] and
    [Download successful! ...] printed. *)
Theorem overwrite_flag_never_asks (os : Platform) (self : Whisperer) (issue_id : Z)
    (w : World) :
  _overwrite_without_confirmation self = true ->
  stdin (snd (_download_issue os self issue_id w)) = stdin w /\
  forall (body : list Byte.byte) (cl : string) (quotient : pyfloat os),
    urlopen os (requests w) (_generate_issue_url issue_id) = Response body (Some cl) ->
    reportable_length os cl quotient ->
    open_denied os (issue_out_path os self issue_id) = false ->
    _download_issue os self issue_id w =
    (Ok tt,
     mkWorld (<[issue_out_path os self issue_id := body]> (files w)) (stdin w)
       (stdout w ++ [downloading_line issue_id; success_line os quotient])
       (stderr w) (requests w ++ [_generate_issue_url issue_id])).
Proof.
  intros Hover. rewrite download_issue_direct by now left.
  split; [apply fetch_and_save_stdin|].
  intros body cl quotient Hresp (_ & n & Hint & Hdiv) Hopen.
  now apply (fetch_and_save_success os self issue_id w body cl n quotient).
Qed.

Lemma overwrite_flag_never_asks_witness :
  let self := fresh_whisperer Demo.platform (mkOptions "/tmp/x" true false "2") in
  let w := mkWorld {["/tmp/x/DigitalWhisper2.pdf" := PyBytes.bytes_of_str "old"]}
             ["n"] [] [] [] in
  stdin (snd (_download_issue Demo.platform self 2 w)) = stdin w /\
  forall (body : list Byte.byte) (cl : string) (quotient : pyfloat Demo.platform),
    urlopen Demo.platform (requests w) (_generate_issue_url 2) = Response body (Some cl) ->
    reportable_length Demo.platform cl quotient ->
    open_denied Demo.platform (issue_out_path Demo.platform self 2) = false ->
    _download_issue Demo.platform self 2 w =
    (Ok tt,
     mkWorld (<[issue_out_path Demo.platform self 2 := body]> (files w)) (stdin w)
       (stdout w ++ [downloading_line 2; success_line Demo.platform quotient])
       (stderr w) (requests w ++ [_generate_issue_url 2])).
Proof.
  intros self w. apply (overwrite_flag_never_asks Demo.platform self 2 w). reflexivity.
Defined.

Example overwrite_flag_replaces_file :
  let self := fresh_whisperer Demo.platform (mkOptions "/tmp/x" true false "2") in
  _download_issue Demo.platform self 2
    (mkWorld {["/tmp/x/DigitalWhisper2.pdf" := PyBytes.bytes_of_str "old"]} ["n"] [] [] []) =
  (Ok tt,
   mkWorld {["/tmp/x/DigitalWhisper2.pdf" := Demo.pdf 2]} ["n"]
     ["Downloading issue #2 < DigitalWhisper2.pdf >"; "Download successful! (2.5 MB)"]
     [] [_generate_issue_url 2]).
Proof. vm_compute. reflexivity. Qed.

Lemma download_loop_skips (os : Platform) (self : Whisperer) (total : Z) (ids : list Z) :
  _overwrite_without_confirmation self = false ->
  _skip_existing_issues self = true ->
  forall (counter : Z) (w : World),
    (forall issue_id, issue_id ∈ ids -> is_Some (files w !! issue_out_path os self issue_id)) ->
    download_loop os self total counter ids w =
    (Ok tt, add_stdout w (skip_report total counter ids)).
Proof.
  intros Hover Hskip. induction ids as [|issue_id rest IH]; intros counter w Hfiles.
  - unfold add_stdout. cbn. rewrite app_nil_r. now destruct w.
  - rewrite download_loop_step.
    erewrite try_except_ok; cycle 1.
    { eapply then_ret_ok. apply download_issue_skip; [exact Hover| |exact Hskip].
      cbn. apply Hfiles, list_elem_of_here. }
    rewrite IH.
    + unfold add_stdout. cbn [files stdin stdout stderr requests skip_report].
      now rewrite <- !app_assoc.
    + intros i Hi. cbn. apply Hfiles. now apply list_elem_of_further.
Qed.

(** X10. With the skip flag (and no overwrite flag), a run over issues that
    are all on disk already touches nothing: no request, no file changed, no
    input read, nothing on the error stream.  It prints, for each queued id
    in ascending order, the progress line and [Skipping issue #<id>], the
    skipped issues counting in the progress, and ends normally. *)
Theorem skip_flag_run_is_offline (os : Platform) (self : Whisperer) (w : World) :
  _overwrite_without_confirmation self = false ->
  _skip_existing_issues self = true ->
  (forall issue_id, issue_id ∈ _download_queue self ->
     is_Some (files w !! issue_out_path os self issue_id)) ->
  download os self w =
  (Ok tt,
   mkWorld (files w) (stdin w)
     (stdout w ++ skip_report (Z.of_nat (size (_download_queue self))) 0
                    (sorted (_download_queue self)))
     (stderr w) (requests w)).
Proof.
  intros Hover Hskip Hfiles. unfold download.
  rewrite download_loop_skips; [reflexivity | exact Hover | exact Hskip |].
  intros issue_id Hin. apply Hfiles. now apply elem_of_sorted.
Qed.

Lemma skip_flag_run_is_offline_witness :
  let self := with_queue (fresh_whisperer Demo.platform (mkOptions "/tmp/x" false true "1,2"))
                {[1; 2]} in
  let w := mkWorld {["/tmp/x/DigitalWhisper1.pdf" := []; "/tmp/x/DigitalWhisper2.pdf" := []]}
             [] [] [] [] in
  download Demo.platform self w =
  (Ok tt,
   mkWorld (files w) (stdin w)
     (stdout w ++ skip_report (Z.of_nat (size (_download_queue self))) 0
                    (sorted (_download_queue self)))
     (stderr w) (requests w)).
Proof.
  intros self w. apply (skip_flag_run_is_offline Demo.platform self w).
  - reflexivity.
  - reflexivity.
  - intros issue_id Hin.
    assert (Hid : issue_id = 1 \/ issue_id = 2) by (revert Hin; cbn; set_solver).
    destruct Hid as [-> | ->]; vm_compute; eexists; reflexivity.
Defined.

Example skip_report_example :
  skip_report 2 0 [1; 2] =
  [newline +:+ "Progress [1/2]"; "Skipping issue #1";
   newline +:+ "Progress [2/2]"; "Skipping issue #2"].
Proof. reflexivity. Qed.

(* ================================================================== *)
(** ** What [download] leaves alone, and what stops it *)
(* ================================================================== *)

Lemma download_issue_other_files (os : Platform) (self : Whisperer) (issue_id : Z)
    (w : World) (path : string) :
  path <> issue_out_path os self issue_id ->
  files (snd (_download_issue os self issue_id w)) !! path = files w !! path.
Proof.
  intros Hpath.
  destruct (download_issue_cases os self issue_id w)
    as [(Hsame & _) | (w1 & Hf & _ & Hrun)]; [now rewrite Hsame|].
  rewrite Hrun, <- Hf. now apply fetch_and_save_other_files.
Qed.

Lemma ask_continue_files (issue_id : Z) (e : exn) (w : World) :
  files (snd (ask_continue issue_id e w)) = files w.
Proof.
  unfold ask_continue, bind, print, input. cbn [files stdin stdout stderr requests].
  now destruct (stdin w).
Qed.

Lemma iteration_other_files (os : Platform) (self : Whisperer) (issue_id : Z) (w w' : World)
    (r : result bool) (path : string) :
  path <> issue_out_path os self issue_id ->
  try_except (_download_issue os self issue_id ;; ret true) is_URLError
    (ask_continue issue_id) w = (r, w') ->
  files w' !! path = files w !! path.
Proof.
  intros Hpath. unfold try_except, bind.
  pose proof (download_issue_other_files os self issue_id w path Hpath) as Hfiles.
  destruct (_download_issue os self issue_id w) as [[[]|e] w1]; cbn [snd] in Hfiles.
  - now intros [= <- <-].
  - destruct (is_URLError e); [|now intros [= <- <-]].
    intros Hask. rewrite <- Hfiles, <- (ask_continue_files issue_id e w1). now rewrite Hask.
Qed.

Lemma download_loop_other_files (os : Platform) (self : Whisperer) (total : Z)
    (ids : list Z) (path : string) :
  (forall issue_id, issue_id ∈ ids -> path <> issue_out_path os self issue_id) ->
  forall (counter : Z) (w : World),
    files (snd (download_loop os self total counter ids w)) !! path = files w !! path.
Proof.
  induction ids as [|issue_id rest IH]; intros Hpath counter w; [reflexivity|].
  rewrite download_loop_step.
  destruct (try_except _ _ _ _) as [r w1] eqn:Hturn.
  apply (iteration_other_files _ _ _ _ _ _ path) in Hturn;
    [|apply Hpath, list_elem_of_here].
  cbn [add_stdout files] in Hturn.
  destruct r as [[]|e]; cbn [snd]; [|exact Hturn..].
  rewrite IH; [exact Hturn|]. intros i Hi. apply Hpath. now apply list_elem_of_further.
Qed.

(** X11. Whatever the server and the user do, and however the loop ends,
    [download] changes no file other than the targets of the queued issues:
    a path that is the target of no queued id holds after the run what it
    held before. *)
Theorem download_touches_only_targets (os : Platform) (self : Whisperer) (w : World)
    (path : string) :
  (forall issue_id, issue_id ∈ _download_queue self ->
     path <> issue_out_path os self issue_id) ->
  files (snd (download os self w)) !! path = files w !! path.
Proof.
  intros Hpath. unfold download. apply download_loop_other_files.
  intros issue_id Hin. apply Hpath. now apply elem_of_sorted.
Qed.

Lemma download_touches_only_targets_witness :
  let self := with_queue (fresh_whisperer Demo.platform (mkOptions "/tmp/x" true false "1,2"))
                {[1; 2]} in
  let w := mkWorld {["/tmp/x/notes.txt" := PyBytes.bytes_of_str "keep"]} [] [] [] [] in
  files (snd (download Demo.platform self w)) !! "/tmp/x/notes.txt" =
  files w !! "/tmp/x/notes.txt".
Proof.
  intros self w.
  apply (download_touches_only_targets Demo.platform self w "/tmp/x/notes.txt").
  intros issue_id Hin.
  assert (Hid : issue_id = 1 \/ issue_id = 2) by (revert Hin; cbn; set_solver).
  destruct Hid as [-> | ->]; vm_compute; discriminate.
Defined.

(** X12. A target that cannot be opened ends the run: with the overwrite
    flag and a request that succeeded, [open] raises [OSError], which the
    loop does not catch.  The body that was fetched is dropped, no file is
    changed, nothing is asked and the issues that follow are not tried. *)
Theorem open_failure_is_fatal (os : Platform) (self : Whisperer) (total counter issue_id : Z)
    (rest : list Z) (w : World) (body : list Byte.byte) (cl : option string) :
  _overwrite_without_confirmation self = true ->
  urlopen os (requests w) (_generate_issue_url issue_id) = Response body cl ->
  open_denied os (issue_out_path os self issue_id) = true ->
  exists msg,
    download_loop os self total counter (issue_id :: rest) w =
    (Raise (OSError msg),
     mkWorld (files w) (stdin w)
       (stdout w ++ [progress_line (counter + 1) total; downloading_line issue_id])
       (stderr w) (requests w ++ [_generate_issue_url issue_id])).
Proof.
  intros Hover Hresp Hopen. eexists. rewrite download_loop_step.
  erewrite try_except_passed; cycle 1.
  { eapply bind_raise. rewrite download_issue_direct by now left.
    unfold fetch_and_save. unfold bind at 1. cbn [print].
    unfold bind at 1, _fetch_url_content. cbn [files stdin stdout stderr requests add_stdout].
    rewrite Hresp. unfold bind at 1, open_wb. rewrite Hopen. reflexivity. }
  { reflexivity. }
  rewrite <- app_assoc. reflexivity.
Qed.

Lemma open_failure_is_fatal_witness :
  let os := mkPlatform (fun p => p) (fun p => p) (fun p => String.eqb p "/tmp/x") (fun _ => true)
              Demo.server Demo.binary64 Demo.float_div Demo.float_round Demo.float_str in
  let self := fresh_whisperer os (mkOptions "/tmp/x" true false "1,2") in
  let w := Demo.empty_world ["y"] in
  exists msg,
    download_loop os self 2 0 [1; 2] w =
    (Raise (OSError msg),
     mkWorld (files w) (stdin w)
       (stdout w ++ [progress_line (0 + 1) 2; downloading_line 1])
       (stderr w) (requests w ++ [_generate_issue_url 1])).
Proof.
  intros os self w.
  apply (open_failure_is_fatal os self 2 0 1 [2] w (Demo.pdf 1) (Some "1234567"));
    reflexivity.
Defined.

(** X13. The end of the input at a question ends the run: [input] raises
    [EOFError], which nothing catches, both at the question about an
    existing file and, inside the handler of a failed request, at the
    question whether to continue.  The issues that follow are not tried. *)
Theorem end_of_input_is_fatal (os : Platform) (self : Whisperer) (total counter issue_id : Z)
    (rest : list Z) (w : World) :
  stdin w = [] ->
  (_overwrite_without_confirmation self = false ->
   _skip_existing_issues self = false ->
   is_Some (files w !! issue_out_path os self issue_id) ->
   download_loop os self total counter (issue_id :: rest) w =
   (Raise EOFError,
    mkWorld (files w) []
      (stdout w ++ [progress_line (counter + 1) total; exists_line issue_id; overwrite_prompt])
      (stderr w) (requests w))) /\
  (forall (code : Z) (reason : string),
   _overwrite_without_confirmation self = true ->
   urlopen os (requests w) (_generate_issue_url issue_id) = FailHTTP code reason ->
   download_loop os self total counter (issue_id :: rest) w =
   (Raise EOFError,
    mkWorld (files w) []
      (stdout w ++ [progress_line (counter + 1) total; downloading_line issue_id;
                    "Error while trying to fetch issue #" +:+ str_int issue_id;
                    continue_prompt])
      (stderr w ++ ["HTTP Error: " +:+ str_int code +:+ " " +:+ reason])
      (requests w ++ [_generate_issue_url issue_id]))).
Proof.
  intros Hin. split.
  - intros Hover Hskip Hfile. rewrite download_loop_step.
    erewrite try_except_passed; cycle 1.
    { eapply bind_raise. now apply download_issue_eof. }
    { reflexivity. }
    unfold asked, add_stdout. cbn [files stdin stdout stderr requests].
    rewrite <- app_assoc. reflexivity.
  - intros code reason Hover Hfail. rewrite download_loop_step.
    erewrite try_except_caught; cycle 1.
    { eapply bind_raise. rewrite download_issue_direct by now left.
      unfold fetch_and_save. unfold bind at 1. cbn [print].
      eapply bind_raise. unfold _fetch_url_content.
      cbn [files stdin stdout stderr requests add_stdout]. rewrite Hfail. reflexivity. }
    { reflexivity. }
    unfold ask_continue. unfold bind at 1. cbn [print]. unfold bind at 1, input.
    cbn [files stdin stdout stderr requests]. rewrite Hin.
    rewrite <- !app_assoc. reflexivity.
Qed.

Lemma end_of_input_is_fatal_witness :
  let os := Demo.platform_with (fun _ _ => FailHTTP 503 "Service Unavailable") in
  let self := fresh_whisperer os (mkOptions "/tmp/x" true false "1,2") in
  let w := Demo.empty_world [] in
  (_overwrite_without_confirmation self = false ->
   _skip_existing_issues self = false ->
   is_Some (files w !! issue_out_path os self 1) ->
   download_loop os self 2 0 (1 :: [2]) w =
   (Raise EOFError,
    mkWorld (files w) []
      (stdout w ++ [progress_line (0 + 1) 2; exists_line 1; overwrite_prompt])
      (stderr w) (requests w))) /\
  (forall (code : Z) (reason : string),
   _overwrite_without_confirmation self = true ->
   urlopen os (requests w) (_generate_issue_url 1) = FailHTTP code reason ->
   download_loop os self 2 0 (1 :: [2]) w =
   (Raise EOFError,
    mkWorld (files w) []
      (stdout w ++ [progress_line (0 + 1) 2; downloading_line 1;
                    "Error while trying to fetch issue #" +:+ str_int 1;
                    continue_prompt])
      (stderr w ++ ["HTTP Error: " +:+ str_int code +:+ " " +:+ reason])
      (requests w ++ [_generate_issue_url 1]))).
Proof.
  intros os self w. apply (end_of_input_is_fatal os self 2 0 1 [2] w). reflexivity.
Defined.

Example piped_run_stops_at_http_error :
  run_script (Demo.platform_with (fun _ _ => FailHTTP 503 "Service Unavailable"))
    (mkOptions "/tmp/x" true false "1,2") (Demo.empty_world []) =
  (1, mkWorld ∅ []
        [progress_line 1 2; downloading_line 1; "Error while trying to fetch issue #1";
         continue_prompt]
        ["HTTP Error: 503 Service Unavailable"; "Traceback (most recent call last): EOFError"]
        [_generate_issue_url 1]).
Proof. vm_compute. reflexivity. Qed.


(* ================================================================== *)
(** ** A run for one issue *)
(* ================================================================== *)

Lemma sorted_singleton (n : Z) : sorted {[n]} = [n].
Proof. unfold sorted. now rewrite elements_singleton. Qed.

Lemma split_numeral_list (n : Z) : 0 <= n -> split "," (str_int n) = [str_int n].
Proof. intros Hn. apply split_whole. now apply str_int_without. Qed.

(** X14. A whole run for the single issue [n] with the overwrite flag: when
    the directory exists, the server sends the issue with a length the
    script can report ([int()] reads it and the count of megabytes fits a
    float) and the target can be opened, the run makes the one request of
    that issue, writes the body to [<directory>/DigitalWhisper<n>.pdf],
    prints progress [1/1], the two download lines and [All Done!], and ends
    with status 0. *)
Theorem single_issue_run (os : Platform) (dir : string) (skip_flag : bool) (n : Z)
    (w : World) (body : list Byte.byte) (cl : string) (quotient : pyfloat os) :
  0 <= n ->
  isdir os (abspath os dir) = true ->
  urlopen os (requests w) (_generate_issue_url n) = Response body (Some cl) ->
  reportable_length os cl quotient ->
  open_denied os (realpath os (abspath os dir +:+ "/" +:+ "DigitalWhisper" +:+
                               str_int n +:+ ".pdf")) = false ->
  run_script os (mkOptions dir true skip_flag (str_int n)) w =
  (0,
   mkWorld
     (<[realpath os (abspath os dir +:+ "/" +:+ "DigitalWhisper" +:+ str_int n +:+ ".pdf")
        := body]> (files w))
     (stdin w)
     (stdout w ++ [newline +:+ "Progress [1/1]"; downloading_line n;
                   success_line os quotient; "All Done!"])
     (stderr w) (requests w ++ [_generate_issue_url n])).
Proof.
  intros Hn Hdir Hresp (_ & size_in_bytes & Hint & Hdiv) Hopen. unfold run_script.
  rewrite main_after_init by exact Hdir. cbn [range].
  rewrite (split_numeral_list n Hn).
  erewrite bind_ok; cycle 1.
  { cbn [add_range_tokens]. erewrite bind_ok; [reflexivity|].
    now apply add_range_token_numeral. }
  set (self := add_issue_id _ n).
  assert (Hqueue : _download_queue self = {[n]}).
  { subst self. cbn. apply (left_id_L ∅ (∪)). }
  assert (Hpath : issue_out_path os self n =
                  realpath os (abspath os dir +:+ "/" +:+ "DigitalWhisper" +:+
                               str_int n +:+ ".pdf")).
  { unfold issue_out_path. now rewrite issue_filename_spelled. }
  erewrite bind_ok; cycle 1.
  { unfold download. rewrite Hqueue, size_singleton, sorted_singleton.
    rewrite download_loop_step.
    erewrite try_except_ok; cycle 1.
    { eapply then_ret_ok. rewrite download_issue_direct by now left.
      apply (fetch_and_save_success os self n _ body cl size_in_bytes quotient);
        [exact Hresp | exact Hint | exact Hdiv | now rewrite Hpath]. }
    reflexivity. }
  rewrite Hpath. cbn [print files stdin stdout stderr requests add_stdout].
  rewrite <- !app_assoc. reflexivity.
Qed.

Lemma single_issue_run_witness :
  let w := Demo.empty_world [] in
  run_script Demo.platform (mkOptions "/tmp/x" true false (str_int 2)) w =
  (0,
   mkWorld
     (<[realpath Demo.platform
          (abspath Demo.platform "/tmp/x" +:+ "/" +:+ "DigitalWhisper" +:+ str_int 2 +:+ ".pdf")
        := Demo.pdf 2]> (files w))
     (stdin w)
     (stdout w ++ [newline +:+ "Progress [1/1]"; downloading_line 2;
                   success_line Demo.platform (Demo.mkBinary64 false 5629499534213120 (-51));
                   "All Done!"])
     (stderr w) (requests w ++ [_generate_issue_url 2])).
Proof.
  intros w.
  apply (single_issue_run Demo.platform "/tmp/x" false 2 w (Demo.pdf 2) "2500000"
           (Demo.mkBinary64 false 5629499534213120 (-51)));
    [lia | reflexivity | reflexivity | | reflexivity].
  split; [vm_compute; lia|]. exists 2500000. split; vm_compute; reflexivity.
Defined.

Example single_issue_run_prints :
  run_script Demo.platform (mkOptions "/tmp/x" true false "2") (Demo.empty_world []) =
  (0,
   mkWorld {["/tmp/x/DigitalWhisper2.pdf" := Demo.pdf 2]} []
     [newline +:+ "Progress [1/1]"; "Downloading issue #2 < DigitalWhisper2.pdf >";
      "Download successful! (2.5 MB)"; "All Done!"]
     [] [_generate_issue_url 2]).
Proof. vm_compute. reflexivity. Qed.


(* ================================================================== *)
(** ** The resolver on a page that links to an issue *)
(* ================================================================== *)

Lemma bytes_of_str_cons (c : ascii) (s : string) :
  PyBytes.bytes_of_str (String c s) = byte_of_ascii c :: PyBytes.bytes_of_str s.
Proof. reflexivity. Qed.

Lemma has_byte_absent (c : ascii) (s : string) :
  all_chars (is_not c) s = true -> PyBytes.has_byte c (PyBytes.bytes_of_str s) = false.
Proof.
  induction s as [|d s IH]; [reflexivity|].
  cbn [all_chars]. intros [Hd Hs]%andb_true_iff.
  rewrite bytes_of_str_cons. unfold PyBytes.has_byte in *. cbn [existsb].
  rewrite (IH Hs). unfold PyBytes.char_of_byte. rewrite ascii_of_byte_of_ascii.
  unfold is_not in Hd. apply negb_true_iff in Hd. now rewrite Hd.
Qed.

Lemma plain_not_quote (c : ascii) : plain c = true -> is_not "'" c = true.
Proof. unfold plain, is_not. char_cases c; vm_compute; congruence. Qed.

Lemma repr_byte_plain (c : ascii) :
  plain c = true -> PyBytes.repr_byte "'" (byte_of_ascii c) = String c "".
Proof.
  intros H. unfold PyBytes.repr_byte, PyBytes.char_of_byte. rewrite ascii_of_byte_of_ascii.
  char_cases c; vm_compute in H; try discriminate H; reflexivity.
Qed.

(** [str] of the bytes of a plain string is the string between [b'] and
    the closing quote. *)
Lemma str_bytes_plain (s : string) :
  all_chars plain s = true ->
  PyBytes.str_bytes (PyBytes.bytes_of_str s) = "b'" +:+ s +:+ "'".
Proof.
  intros Hplain. unfold PyBytes.str_bytes, PyBytes.repr_quote.
  rewrite has_byte_absent by (apply (all_chars_impl plain); [apply plain_not_quote | exact Hplain]).
  cbn [andb]. change ("b'" +:+ s +:+ "'") with (String "b" (String "'" (s +:+ "'"))).
  do 2 f_equal.
  induction s as [|c s IH]; [reflexivity|].
  cbn [all_chars] in Hplain. apply andb_true_iff in Hplain as [Hc Hs].
  rewrite bytes_of_str_cons. cbn [fold_right]. now rewrite (IH Hs), repr_byte_plain.
Qed.

Lemma match_atoms_link (tail : string) :
  Regex.match_atoms (Regex.atoms_of issue_pattern_prefix) (issue_pattern_prefix +:+ tail) =
  Some tail.
Proof. reflexivity. Qed.

Lemma take_digits_app (ds back : string) :
  all_chars is_digit ds = true -> Regex.take_digits back = "" ->
  Regex.take_digits (ds +:+ back) = ds.
Proof.
  intros Hds Hback. induction ds as [|c ds IH]; [exact Hback|].
  cbn [all_chars] in Hds. apply andb_true_iff in Hds as [Hc Hds].
  rewrite app_cons. cbn [Regex.take_digits]. now rewrite Hc, IH.
Qed.

Lemma match_here_link (ds back : string) :
  ds <> "" -> all_chars is_digit ds = true -> Regex.take_digits back = "" ->
  Regex.match_here issue_pattern_prefix (issue_pattern_prefix +:+ ds +:+ back) = Some ds.
Proof.
  intros Hne Hds Hback. unfold Regex.match_here.
  rewrite match_atoms_link, take_digits_app by assumption.
  now destruct ds.
Qed.

(** A match of the pattern starts with three [w]. *)
Lemma match_atoms_www (s rest : string) :
  Regex.match_atoms (Regex.atoms_of issue_pattern_prefix) s = Some rest ->
  String.prefix "www" s = true.
Proof.
  change (Regex.atoms_of issue_pattern_prefix)
    with (Regex.Lit "w" :: Regex.Lit "w" :: Regex.Lit "w" ::
          Regex.atoms_of ".digitalwhisper.co.il/issue").
  destruct s as [|c1 [|c2 [|c3 s]]]; cbn [Regex.match_atoms Regex.atom_matches];
    try discriminate.
  - destruct (Ascii.eqb c1 "w"); discriminate.
  - destruct (Ascii.eqb c1 "w"); [|discriminate]. destruct (Ascii.eqb c2 "w"); discriminate.
  - destruct (Ascii.eqb_spec c1 "w") as [->|]; [|discriminate].
    destruct (Ascii.eqb_spec c2 "w") as [->|]; [|discriminate].
    destruct (Ascii.eqb_spec c3 "w") as [->|]; [|discriminate].
    intros _. rewrite !prefix_cons, prefix_empty.
    now destruct (ascii_dec "w" "w").
Qed.

Lemma prefix_www_inv (c1 c2 c3 : ascii) (s : string) :
  String.prefix "www" (String c1 (String c2 (String c3 s))) = true ->
  c1 = "w"%char /\ c2 = "w"%char /\ c3 = "w"%char.
Proof.
  rewrite !prefix_cons.
  destruct (ascii_dec "w" c1) as [<-|]; [|discriminate].
  destruct (ascii_dec "w" c2) as [<-|]; [|discriminate].
  destruct (ascii_dec "w" c3) as [<-|]; [|discriminate].
  now intros _.
Qed.

(** No match starts in a stretch of text without [www] that is followed
    by the link. *)
Lemma no_match_before_link (c : ascii) (front tail : string) :
  contains "www" (String c front) = false ->
  Regex.match_here issue_pattern_prefix
    (String c front +:+ issue_pattern_prefix +:+ tail) = None.
Proof.
  intros Hfront. unfold Regex.match_here.
  destruct (Regex.match_atoms _ _) as [rest|] eqn:E; [exfalso|reflexivity].
  pose proof (match_atoms_www _ _ E) as Hp.
  destruct front as [|d [|e front]].
  - change (String c "" +:+ issue_pattern_prefix +:+ tail)
      with (String c (String "w" (String "w" ("w.digitalwhisper.co.il/issue" +:+ tail)))) in *.
    apply prefix_www_inv in Hp as (-> & _). discriminate E.
  - change (String c (String d "") +:+ issue_pattern_prefix +:+ tail)
      with (String c (String d (String "w" ("ww.digitalwhisper.co.il/issue" +:+ tail)))) in *.
    apply prefix_www_inv in Hp as (-> & -> & _). discriminate E.
  - change (String c (String d (String e front)) +:+ issue_pattern_prefix +:+ tail)
      with (String c (String d (String e (front +:+ issue_pattern_prefix +:+ tail)))) in Hp.
    apply prefix_www_inv in Hp as (-> & -> & ->).
    rewrite contains_cons in Hfront. apply orb_false_iff in Hfront as [Hfront _].
    rewrite !prefix_cons, prefix_empty in Hfront.
    now destruct (ascii_dec "w" "w").
Qed.

Lemma search_behind_front (front tail ds : string) :
  contains "www" front = false ->
  Regex.match_here issue_pattern_prefix (issue_pattern_prefix +:+ tail) = Some ds ->
  Regex.search_digits_after issue_pattern_prefix (front +:+ issue_pattern_prefix +:+ tail) =
  Some ds.
Proof.
  intros Hfront Hlink. induction front as [|c front IH].
  - rewrite app_nil_l_str.
    change (issue_pattern_prefix +:+ tail)
      with (String "w" ("ww.digitalwhisper.co.il/issue" +:+ tail)) in *.
    cbn [Regex.search_digits_after]. now rewrite Hlink.
  - pose proof (no_match_before_link c front tail Hfront) as Hnone.
    rewrite app_cons in *. cbn [Regex.search_digits_after]. rewrite Hnone.
    apply IH. rewrite contains_cons in Hfront. now apply orb_false_iff in Hfront.
Qed.

Lemma plain_digit (c : ascii) : is_digit c = true -> plain c = true.
Proof. char_cases c; vm_compute; congruence. Qed.

(** X15. The resolver reads the issue number back from a page that links
    to it.  If the page is plain text in which [www] does not occur before
    the link [www.digitalwhisper.co.il/issue<n>] and no digit follows the
    number, a call with an empty cache returns [n] and caches it, whatever
    comes after the link, later links to other issues included: the first
    link decides, not the largest number. *)
Theorem resolver_reads_first_link (os : Platform) (self : Whisperer) (w : World)
    (front back : string) (n : Z) (cl : option string) :
  _last_issue_id_cache self = None ->
  0 <= n ->
  all_chars plain front = true ->
  all_chars plain back = true ->
  contains "www" front = false ->
  Regex.take_digits back = "" ->
  urlopen os (requests w) issues_url =
    Response (PyBytes.bytes_of_str
                (front +:+ issue_pattern_prefix +:+ str_int n +:+ back)) cl ->
  _get_last_issue_id os self w =
  (Ok (Some n, with_cache self (Some n)), index_requested w).
Proof.
  intros Hcache Hn Hfront Hback Hwww Hnext Hresp.
  destruct (str_int_head n Hn) as (c & s & Hhead & _).
  pose proof (get_last_issue_id_found os self w _ cl (str_int n) Hcache Hresp) as Hfound.
  rewrite (str_int_value n Hn) in Hfound. apply Hfound. clear Hfound.
  rewrite str_bytes_plain.
  - replace ("b'" +:+ (front +:+ issue_pattern_prefix +:+ str_int n +:+ back) +:+ "'")
      with (("b'" +:+ front) +:+ issue_pattern_prefix +:+ str_int n +:+ (back +:+ "'"))
      by now rewrite !app_assoc_str.
    apply search_behind_front.
    + now rewrite (contains_skip_front (is_not "w") "w" "ww" "b'").
    + apply match_here_link.
      * rewrite Hhead. discriminate.
      * now apply str_int_digits.
      * destruct back as [|d back]; [reflexivity|].
        rewrite app_cons. cbn [Regex.take_digits] in *.
        now destruct (is_digit d).
  - rewrite !all_chars_app, Hfront, Hback.
    rewrite (all_chars_impl is_digit plain _ plain_digit (str_int_digits n Hn)).
    reflexivity.
Qed.

Lemma resolver_reads_first_link_witness :
  let page_front := "<a href=http://" in
  let page_back := ">new</a> <a href=http://www.digitalwhisper.co.il/issue160>old</a>" in
  let os := Demo.platform_with
              (fun _ _ => Response (PyBytes.bytes_of_str
                            (page_front +:+ issue_pattern_prefix +:+ str_int 97 +:+ page_back))
                            None) in
  let self := fresh_whisperer os (mkOptions "/tmp/x" false false "last") in
  let w := Demo.empty_world [] in
  _get_last_issue_id os self w =
  (Ok (Some 97, with_cache self (Some 97)), index_requested w).
Proof.
  intros page_front page_back os self w.
  apply (resolver_reads_first_link os self w page_front page_back 97 None);
    (lia || reflexivity).
Defined.

(* ================================================================== *)
(** ** A failed request of the index page *)
(* ================================================================== *)

(** X16. An HTTP error on the index page ends the run: when the first
    token of the range list needs the latest id and the request of the index
    page fails with an HTTP status, the error line is printed, nothing is
    asked (unlike for a failed issue), no issue is requested, and the run
    ends with status 1 and a traceback. *)
Theorem index_failure_is_fatal (os : Platform) (options : Options) (w : World)
    (tok : string) (rest : list string) (code : Z) (reason : string) :
  isdir os (abspath os (directory options)) = true ->
  split "," (range options) = tok :: rest ->
  needs_latest tok ->
  urlopen os (requests w) issues_url = FailHTTP code reason ->
  run_script os options w =
  (1,
   mkWorld (files w) (stdin w) (stdout w ++ [fetching_line])
     (stderr w ++ ["HTTP Error: " +:+ str_int code +:+ " " +:+ reason;
                   "Traceback (most recent call last): urllib.error.HTTPError"])
     (requests w ++ [issues_url])).
Proof.
  intros Hdir Hsplit Hneeds Hfail. unfold run_script.
  rewrite main_after_init by exact Hdir. rewrite Hsplit.
  assert (Hres : _get_last_issue_id os (fresh_whisperer os options) w =
                 (Raise (HTTPError code reason),
                  mkWorld (files w) (stdin w) (stdout w ++ [fetching_line])
                    (stderr w ++ ["HTTP Error: " +:+ str_int code +:+ " " +:+ reason])
                    (requests w ++ [issues_url]))).
  { unfold _get_last_issue_id. cbn [fresh_whisperer _last_issue_id_cache].
    unfold bind at 1. cbn [print]. eapply bind_raise.
    unfold _fetch_url_content. cbn [files stdin stdout stderr requests].
    rewrite Hfail. reflexivity. }
  erewrite bind_raise; cycle 1.
  { cbn [add_range_tokens]. eapply bind_raise. unfold add_range_token.
    destruct Hneeds as [-> | [Hall Hlast]].
    - change (contains "all" "all") with true. change (String.eqb "all" "all") with true.
      cbn match. eapply bind_raise. exact Hres.
    - rewrite Hall, Hlast. eapply bind_raise. exact Hres. }
  cbn [exit_status files stdin stdout stderr requests exn_class].
  rewrite <- app_assoc. reflexivity.
Qed.

Lemma index_failure_is_fatal_witness :
  let os := Demo.platform_with (fun _ _ => FailHTTP 500 "Internal Server Error") in
  let w := Demo.empty_world ["y"] in
  run_script os (mkOptions "/tmp/x" true false "3-last,1") w =
  (1,
   mkWorld (files w) (stdin w) (stdout w ++ [fetching_line])
     (stderr w ++ ["HTTP Error: " +:+ str_int 500 +:+ " " +:+ "Internal Server Error";
                   "Traceback (most recent call last): urllib.error.HTTPError"])
     (requests w ++ [issues_url])).
Proof.
  intros os w.
  apply (index_failure_is_fatal os (mkOptions "/tmp/x" true false "3-last,1") w
           "3-last" ["1"] 500 "Internal Server Error").
  - reflexivity.
  - reflexivity.
  - right. split; reflexivity.
  - reflexivity.
Defined.

(* ================================================================== *)
(** ** The range list as a whole *)
(* ================================================================== *)

Lemma add_range_tokens_effect (os : Platform) (ranges : list string) :
  forall (self : Whisperer) (w w' : World) (r : result Whisperer),
    add_range_tokens os self ranges w = (r, w') -> prelude w w'.
Proof.
  induction ranges as [|tok rest IH]; intros self w w' r.
  - intros [= <- <-]. apply prelude_refl.
  - cbn [add_range_tokens]. unfold bind.
    destruct (add_range_token os self tok w) as [[self1|e] w1] eqn:Htok;
      apply add_range_token_effect in Htok as [Hpre _].
    + intros Hrest%IH. now apply (prelude_trans _ w1).
    + now intros [= <- <-].
Qed.

(** X17. Expanding the range list is quiet: whatever the tokens are and
    however it ends, it changes no file, reads no input, requests nothing
    but the index page, prints nothing on the output stream but the
    announcement of that request, and only ever adds to the error stream. *)
Theorem expansion_is_quiet (os : Platform) (ranges : list string) (self : Whisperer)
    (w w' : World) (r : result Whisperer) :
  add_range_tokens os self ranges w = (r, w') ->
  files w' = files w /\
  stdin w' = stdin w /\
  (exists reqs, requests w' = requests w ++ reqs /\ Forall (eq issues_url) reqs) /\
  (exists out, stdout w' = stdout w ++ out /\ Forall (eq fetching_line) out) /\
  (exists errs, stderr w' = stderr w ++ errs).
Proof.
  intros Hrun. apply add_range_tokens_effect in Hrun as [Hf Hi Hr Ho He]. auto.
Qed.

Lemma expansion_is_quiet_witness :
  let self := fresh_whisperer Demo.platform (mkOptions "/tmp/x" false false "last,x") in
  let w := mkWorld {["/tmp/x/a" := []]} ["y"] [] [] [] in
  let w' := index_requested w in
  files w' = files w /\
  stdin w' = stdin w /\
  (exists reqs, requests w' = requests w ++ reqs /\ Forall (eq issues_url) reqs) /\
  (exists out, stdout w' = stdout w ++ out /\ Forall (eq fetching_line) out) /\
  (exists errs, stderr w' = stderr w ++ errs).
Proof.
  intros self w w'.
  apply (expansion_is_quiet Demo.platform ["last"; "x"] self w w'
           (Raise (ValueError "invalid literal for int() with base 10: 'x'"))).
  vm_compute. reflexivity.
Defined.

(** The expansion of a token computes [token_ids] and adds them. *)
Lemma add_issue_id_as_range (self : Whisperer) (issue_id : Z) :
  add_issue_id self issue_id = add_issue_id_range self [issue_id].
Proof.
  unfold add_issue_id, add_issue_id_range. f_equal. cbn.
  now rewrite (right_id_L ∅ (∪)).
Qed.

Lemma expand_issue_range_ids (self : Whisperer) (issue_range : string) (w : World)
    (ids : list Z) :
  token_ids issue_range = Some ids ->
  expand_issue_range self issue_range w = (Ok (add_issue_id_range self ids), w).
Proof.
  unfold token_ids, expand_issue_range, bind, unpack2, int, ret.
  destruct (contains "-" issue_range).
  - destruct (split "-" issue_range) as [|p1 [|p2 [|p3 ps]]]; try discriminate.
    cbn [fst snd].
    destruct (int_of_str p1); [|discriminate].
    destruct (int_of_str p2); [|discriminate]. now intros [= <-].
  - destruct (int_of_str issue_range); [|discriminate].
    intros [= <-]. now rewrite add_issue_id_as_range.
Qed.

Lemma expand_issue_range_has_ids (self self' : Whisperer) (issue_range : string)
    (w w' : World) :
  expand_issue_range self issue_range w = (Ok self', w') ->
  exists ids, token_ids issue_range = Some ids.
Proof.
  intros [_ [(n & Hdash & Hint & _) | (p1 & p2 & a & b & Hsplit & H1 & H2 & _)]]%expand_issue_range_ok;
    unfold token_ids.
  - rewrite Hdash, Hint. eauto.
  - destruct (contains "-" issue_range) eqn:Hdash.
    + rewrite Hsplit, H1, H2. eauto.
    + apply contains_char_false, (split_whole "-") in Hdash. congruence.
Qed.

Lemma add_range_token_keyword_free (os : Platform) (self : Whisperer) (issue_range : string)
    (w : World) :
  keyword_free issue_range ->
  add_range_token os self issue_range w = expand_issue_range self issue_range w.
Proof. intros [Hall Hlast]. unfold add_range_token. now rewrite Hall, Hlast. Qed.

Lemma add_issue_id_range_swap (self : Whisperer) (ids1 ids2 : list Z) :
  add_issue_id_range (add_issue_id_range self ids1) ids2 =
  add_issue_id_range (add_issue_id_range self ids2) ids1.
Proof.
  unfold add_issue_id_range, with_queue. cbn. f_equal.
  rewrite <- !(assoc_L (∪)). f_equal. apply (comm_L (∪)).
Qed.

(** X18. For a range list without keywords the order of the tokens does
    not matter: if the list expands without an exception, so does every
    rearrangement of it, to the very same object (the same queue) and
    without touching the world. *)
Theorem token_order_is_irrelevant (os : Platform) (ranges ranges' : list string) :
  ranges ≡ₚ ranges' ->
  Forall keyword_free ranges ->
  forall (self self' : Whisperer) (w w' : World),
    add_range_tokens os self ranges w = (Ok self', w') ->
    w' = w /\ add_range_tokens os self ranges' w = (Ok self', w).
Proof.
  induction 1 as [|tok l l' Hperm IH|x y l|l1 l2 l3 H12 IH12 H23 IH23];
    intros Hfree self self' w w'.
  - intros [= <- <-]. now split.
  - apply Forall_cons in Hfree as [Htok Hl].
    cbn [add_range_tokens]. unfold bind.
    rewrite add_range_token_keyword_free by exact Htok.
    destruct (expand_issue_range self tok w) as [[self1|e] w1] eqn:Hexp; [|discriminate].
    pose proof Hexp as [-> _]%expand_issue_range_ok.
    intros Hrest. destruct (IH Hl _ _ _ _ Hrest) as [-> Hrest']. now split.
  - apply Forall_cons in Hfree as [Hy [Hx Hl]%Forall_cons].
    cbn [add_range_tokens]. unfold bind.
    rewrite (add_range_token_keyword_free os self y) by exact Hy.
    destruct (expand_issue_range self y w) as [[self1|e] w1] eqn:Hexpy; [|discriminate].
    pose proof Hexpy as [-> _]%expand_issue_range_ok.
    rewrite (add_range_token_keyword_free os self1 x) by exact Hx.
    destruct (expand_issue_range self1 x w) as [[self2|e] w2] eqn:Hexpx; [|discriminate].
    pose proof Hexpx as [-> _]%expand_issue_range_ok.
    destruct (expand_issue_range_has_ids _ _ _ _ _ Hexpy) as [idsy Hidsy].
    destruct (expand_issue_range_has_ids _ _ _ _ _ Hexpx) as [idsx Hidsx].
    rewrite (expand_issue_range_ids _ _ _ _ Hidsy) in Hexpy.
    rewrite (expand_issue_range_ids _ _ _ _ Hidsx) in Hexpx.
    injection Hexpy as <-. injection Hexpx as <-.
    intros Hrest.
    assert (Hw : w' = w).
    { revert Hrest. clear -Hl. revert w'.
      generalize (add_issue_id_range (add_issue_id_range self idsy) idsx) as u.
      induction l as [|t l IHl]; intros u w'.
      - now intros [= _ <-].
      - apply Forall_cons in Hl as [Ht Hl]. cbn [add_range_tokens]. unfold bind.
        rewrite add_range_token_keyword_free by exact Ht.
        destruct (expand_issue_range u t w) as [[u1|e] w1] eqn:Hexp; [|discriminate].
        pose proof Hexp as [-> _]%expand_issue_range_ok. now apply IHl. }
    subst w'. split; [reflexivity|].
    rewrite (add_range_token_keyword_free os self x) by exact Hx.
    rewrite (expand_issue_range_ids _ _ _ _ Hidsx).
    rewrite (add_range_token_keyword_free os _ y) by exact Hy.
    rewrite (expand_issue_range_ids _ _ _ _ Hidsy).
    now rewrite add_issue_id_range_swap.
  - intros Hrun. destruct (IH12 Hfree _ _ _ _ Hrun) as [-> Hrun2].
    split; [reflexivity|].
    assert (Hfree2 : Forall keyword_free l2) by now rewrite <- H12.
    apply (IH23 Hfree2 _ _ _ _ Hrun2).
Qed.

Lemma token_order_is_irrelevant_witness :
  let self := fresh_whisperer Demo.platform (mkOptions "/tmp/x" false false "3,1-2") in
  let w := Demo.empty_world [] in
  w = w /\
  add_range_tokens Demo.platform self ["1-2"; "3"] w = (Ok (with_queue self {[1; 2; 3]}), w).
Proof.
  intros self w.
  apply (token_order_is_irrelevant Demo.platform ["3"; "1-2"] ["1-2"; "3"]).
  - apply perm_swap.
  - repeat constructor.
  - vm_compute. reflexivity.
Defined.

(** X19. After an HTTP error on a request made without asking, the answer
    to [Would you like to continue? [Y/n]] decides: after [y] or [Y] the
    loop goes on with the next queued issue; after anything else it ends
    normally at once, the remaining issues untried.  Either way the error
    line, the message and the question were printed and the answer was
    read. *)
Theorem http_error_answer_decides (os : Platform) (self : Whisperer)
    (total counter issue_id : Z) (rest : list Z) (w : World) (code : Z)
    (reason answer : string) (more : list string) :
  _overwrite_without_confirmation self = true ->
  urlopen os (requests w) (_generate_issue_url issue_id) = FailHTTP code reason ->
  stdin w = answer :: more ->
  let w' :=
    mkWorld (files w) more
      (stdout w ++ [progress_line (counter + 1) total; downloading_line issue_id;
                    "Error while trying to fetch issue #" +:+ str_int issue_id;
                    continue_prompt])
      (stderr w ++ ["HTTP Error: " +:+ str_int code +:+ " " +:+ reason])
      (requests w ++ [_generate_issue_url issue_id]) in
  (answer = "y" \/ answer = "Y" ->
   download_loop os self total counter (issue_id :: rest) w =
   download_loop os self total (counter + 1) rest w') /\
  (answer <> "y" -> answer <> "Y" ->
   download_loop os self total counter (issue_id :: rest) w = (Ok tt, w')).
Proof.
  intros Hover Hfail Hin w'.
  pose proof (http_error_prompt os self total counter issue_id rest w code reason answer more
                Hover Hfail Hin) as Hprompt.
  cbn zeta in Hprompt. split.
  - intros Hyes%lower_is_y. now rewrite Hyes in Hprompt.
  - intros Hy HY. destruct (String.eqb (lower answer) "y") eqn:Hans; [|exact Hprompt].
    apply lower_is_y in Hans. tauto.
Qed.

Lemma http_error_answer_decides_witness :
  let os := Demo.platform_with (fun _ _ => FailHTTP 404 "Not Found") in
  let self := fresh_whisperer os (mkOptions "/tmp/x" true false "1,2") in
  let w := Demo.empty_world ["no"; "y"] in
  let w' :=
    mkWorld (files w) ["y"]
      (stdout w ++ [progress_line (0 + 1) 2; downloading_line 1;
                    "Error while trying to fetch issue #" +:+ str_int 1;
                    continue_prompt])
      (stderr w ++ ["HTTP Error: " +:+ str_int 404 +:+ " " +:+ "Not Found"])
      (requests w ++ [_generate_issue_url 1]) in
  ("no" = "y" \/ "no" = "Y" ->
   download_loop os self 2 0 (1 :: [2]) w = download_loop os self 2 (0 + 1) [2] w') /\
  ("no" <> "y" -> "no" <> "Y" ->
   download_loop os self 2 0 (1 :: [2]) w = (Ok tt, w')).
Proof.
  intros os self w.
  apply (http_error_answer_decides os self 2 0 1 [2] w 404 "Not Found" "no" ["y"]);
    reflexivity.
Defined.

(* ================================================================== *)
(** ** A Content-Length header that is not a number *)
(* ================================================================== *)

(** X20. The size is read from the header after the target was opened: a
    response whose Content-Length [int()] cannot read (the header value is
    the Latin-1 text of the header line, and it is not a decimal literal
    with an optional sign and white space around it) leaves an empty file
    at the target, raises [ValueError] before the body is written, and the
    loop does not catch it; the issues that follow are not tried. *)
Theorem unreadable_content_length_truncates (os : Platform) (self : Whisperer)
    (total counter issue_id : Z) (rest : list Z) (w : World)
    (body : list Byte.byte) (cl : string) :
  _overwrite_without_confirmation self = true ->
  urlopen os (requests w) (_generate_issue_url issue_id) = Response body (Some cl) ->
  int_of_str cl = None ->
  open_denied os (issue_out_path os self issue_id) = false ->
  exists msg,
    download_loop os self total counter (issue_id :: rest) w =
    (Raise (ValueError msg),
     mkWorld (<[issue_out_path os self issue_id := []]> (files w)) (stdin w)
       (stdout w ++ [progress_line (counter + 1) total; downloading_line issue_id])
       (stderr w) (requests w ++ [_generate_issue_url issue_id])).
Proof.
  intros Hover Hresp Hint Hopen. eexists. rewrite download_loop_step.
  erewrite try_except_passed; cycle 1.
  { eapply bind_raise. rewrite download_issue_direct by now left.
    unfold fetch_and_save. unfold bind at 1. cbn [print].
    unfold bind at 1, _fetch_url_content. cbn [files stdin stdout stderr requests add_stdout].
    rewrite Hresp. unfold bind at 1, open_wb. rewrite Hopen.
    cbn [set_file files stdin stdout stderr requests].
    unfold bind at 1, int_header, int. cbn [snd]. rewrite Hint. reflexivity. }
  { reflexivity. }
  rewrite <- app_assoc. reflexivity.
Qed.

Lemma unreadable_content_length_truncates_witness :
  let os := Demo.platform_with (fun _ _ => Response (Demo.pdf 1) (Some "12 bytes")) in
  let self := fresh_whisperer os (mkOptions "/tmp/x" true false "1,2") in
  let w := mkWorld {["/tmp/x/DigitalWhisper1.pdf" := PyBytes.bytes_of_str "an older copy"]}
             [] [] [] [] in
  exists msg,
    download_loop os self 2 0 (1 :: [2]) w =
    (Raise (ValueError msg),
     mkWorld (<[issue_out_path os self 1 := []]> (files w)) (stdin w)
       (stdout w ++ [progress_line (0 + 1) 2; downloading_line 1])
       (stderr w) (requests w ++ [_generate_issue_url 1])).
Proof.
  intros os self w.
  apply (unreadable_content_length_truncates os self 2 0 1 [2] w (Demo.pdf 1) "12 bytes");
    reflexivity.
Defined.

(* ================================================================== *)
(** ** A Content-Length header beyond the range of a float *)
(* ================================================================== *)

(** X21. The size in megabytes is a float: a response whose
    Content-Length is a number so large that its division by 1000000 does
    not fit a float raises [OverflowError] at line 64, after the target was
    opened and before the body is written.  The file is left empty, the
    loop does not catch the exception, and the issues that follow are not
    tried. *)
Theorem oversized_content_length_truncates (os : Platform) (self : Whisperer)
    (total counter issue_id : Z) (rest : list Z) (w : World)
    (body : list Byte.byte) (cl : string) (n : Z) :
  _overwrite_without_confirmation self = true ->
  urlopen os (requests w) (_generate_issue_url issue_id) = Response body (Some cl) ->
  (String.length cl <= 4300)%nat ->
  int_of_str cl = Some n ->
  truediv os n 1000000 = None ->
  open_denied os (issue_out_path os self issue_id) = false ->
  exists msg,
    download_loop os self total counter (issue_id :: rest) w =
    (Raise (OverflowError msg),
     mkWorld (<[issue_out_path os self issue_id := []]> (files w)) (stdin w)
       (stdout w ++ [progress_line (counter + 1) total; downloading_line issue_id])
       (stderr w) (requests w ++ [_generate_issue_url issue_id])).
Proof.
  intros Hover Hresp _ Hint Hdiv Hopen. eexists. rewrite download_loop_step.
  erewrite try_except_passed; cycle 1.
  { eapply bind_raise. rewrite download_issue_direct by now left.
    apply (fetch_and_save_overflow os self issue_id _ body cl n);
      [exact Hresp | exact Hint | exact Hdiv | exact Hopen]. }
  { reflexivity. }
  cbn [add_stdout files stdin stdout stderr requests].
  rewrite <- app_assoc. reflexivity.
Qed.

Lemma oversized_content_length_truncates_witness :
  let os := Demo.platform_with (fun _ _ => Response (Demo.pdf 1) (Some (str_int (10 ^ 400)))) in
  let self := fresh_whisperer os (mkOptions "/tmp/x" true false "1,2") in
  let w := mkWorld {["/tmp/x/DigitalWhisper1.pdf" := PyBytes.bytes_of_str "an older copy"]}
             [] [] [] [] in
  exists msg,
    download_loop os self 2 0 (1 :: [2]) w =
    (Raise (OverflowError msg),
     mkWorld (<[issue_out_path os self 1 := []]> (files w)) (stdin w)
       (stdout w ++ [progress_line (0 + 1) 2; downloading_line 1])
       (stderr w) (requests w ++ [_generate_issue_url 1])).
Proof.
  intros os self w.
  apply (oversized_content_length_truncates os self 2 0 1 [2] w (Demo.pdf 1)
           (str_int (10 ^ 400)) (10 ^ 400));
    [reflexivity | reflexivity | apply Nat.leb_le; vm_compute; reflexivity
    | vm_compute; reflexivity | vm_compute; reflexivity | reflexivity].
Defined.

Example oversized_length_run :
  run_script (Demo.platform_with (fun _ _ => Response (Demo.pdf 1) (Some (str_int (10 ^ 400)))))
    (mkOptions "/tmp/x" true false "1,2") (Demo.empty_world []) =
  (1,
   mkWorld {["/tmp/x/DigitalWhisper1.pdf" := []]} []
     [progress_line 1 2; "Downloading issue #1 < DigitalWhisper1.pdf >"]
     ["Traceback (most recent call last): OverflowError"] [_generate_issue_url 1]).
Proof. vm_compute. reflexivity. Qed.
